(** * PyRC core: a shallow embedding of the numeric handlers, the client
      logic, the command dispatcher and the DCC manager, with the properties
      of the specification stated and settled against them.

    Python values are modelled as follows.
    - [str] is [string]; the case operations ([lower], [upper]) act on the
      seven-bit ASCII letters, which is what nick names, channel names and
      CTCP verbs consist of on the IRC wire.
    - [int] is [Z]; [len] results are [nat]; clock readings and ages in
      seconds ([float]) are rationals [Q], compared exactly.
    - [dict] with string keys is [gmap string _], [set] is [gset string].
    - [None]-able values are [option]; a raised exception is an explicit
      constructor of the result type.
    - Objects that the source mutates in place (a [Context] held in the
      context table, the [ConnectionInfo] held by the state manager) are
      fields of the client state, updated where the source assigns. *)

From Stdlib Require Import ZArith QArith String Ascii List Lia Sorted Permutation.
From stdpp Require Import base option gmap sets list strings pretty.

Open Scope string_scope.
Open Scope Z_scope.

(* ===================================================================== *)
(** ** Python string primitives *)
(* ===================================================================== *)

Module Py.

Definition is_upper (c : ascii) : bool :=
  (65 <=? Z.of_nat (nat_of_ascii c)) && (Z.of_nat (nat_of_ascii c) <=? 90).

Definition is_lower (c : ascii) : bool :=
  (97 <=? Z.of_nat (nat_of_ascii c)) && (Z.of_nat (nat_of_ascii c) <=? 122).

Definition lower_ascii (c : ascii) : ascii :=
  if is_upper c then ascii_of_nat (nat_of_ascii c + 32) else c.

Definition upper_ascii (c : ascii) : ascii :=
  if is_lower c then ascii_of_nat (nat_of_ascii c - 32) else c.

Fixpoint map_string (f : ascii -> ascii) (s : string) : string :=
  match s with
  | EmptyString => EmptyString
  | String c r => String (f c) (map_string f r)
  end.

(** [s.lower()] and [s.upper()]. *)
Definition lower (s : string) : string := map_string lower_ascii s.
Definition upper (s : string) : string := map_string upper_ascii s.

(** [s.startswith(p)]. *)
Definition startswith (s p : string) : bool := String.prefix p s.

(** [s.startswith((p1, p2, ...))]. *)
Definition startswith_any (s : string) (ps : list string) : bool :=
  existsb (startswith s) ps.

(** [s[-1]] when [s] is not empty. *)
Fixpoint last_char (s : string) : option ascii :=
  match s with
  | EmptyString => None
  | String c EmptyString => Some c
  | String _ r => last_char r
  end.

(** [s[:-1]]. *)
Fixpoint drop_last (s : string) : string :=
  match s with
  | EmptyString => EmptyString
  | String _ EmptyString => EmptyString
  | String c r => String c (drop_last r)
  end.

(** [s.endswith(c)] for a one-character suffix. *)
Definition endswith_char (s : string) (c : ascii) : bool :=
  match last_char s with
  | Some d => bool_decide (d = c)
  | None => false
  end.

(** [s[:n]]. *)
Fixpoint take (n : nat) (s : string) : string :=
  match n, s with
  | O, _ => EmptyString
  | _, EmptyString => EmptyString
  | S k, String c r => String c (take k r)
  end.

(** [s[1:]]. *)
Definition tail (s : string) : string :=
  match s with
  | EmptyString => EmptyString
  | String _ r => r
  end.

(** [p in s] for strings: some suffix of [s] starts with [p]. *)
Fixpoint contains (s p : string) : bool :=
  String.prefix p s ||
  match s with
  | EmptyString => false
  | String _ r => contains r p
  end.

(** [c.isdigit()] and [int(c)] on one ASCII character. *)
Definition is_digit (c : ascii) : bool :=
  (48 <=? Z.of_nat (nat_of_ascii c)) && (Z.of_nat (nat_of_ascii c) <=? 57).

Definition digit_value (c : ascii) : Z := Z.of_nat (nat_of_ascii c) - 48.

(** [str(n)] for an integer. *)
Definition str_of_Z (n : Z) : string := pretty n.

(** The characters [str.strip()] and [int()] treat as blank. *)
Definition is_space (c : ascii) : bool :=
  let n := Z.of_nat (nat_of_ascii c) in
  ((9 <=? n) && (n <=? 13)) || ((28 <=? n) && (n <=? 32)).

Fixpoint lstrip (s : string) : string :=
  match s with
  | EmptyString => EmptyString
  | String c r => if is_space c then lstrip r else s
  end.

Fixpoint rstrip (s : string) : string :=
  match s with
  | EmptyString => EmptyString
  | String c r =>
      match rstrip r with
      | EmptyString => if is_space c then EmptyString else String c EmptyString
      | r' => String c r'
      end
  end.

(** [s.strip()]. *)
Definition strip (s : string) : string := rstrip (lstrip s).

(** [s.split(" ")]: cut at every single space, keeping empty pieces. *)
Fixpoint split_space (s : string) : list string :=
  match s with
  | EmptyString => [EmptyString]
  | String c r =>
      if bool_decide (c = " "%char) then EmptyString :: split_space r
      else match split_space r with
           | w :: ws => String c w :: ws
           | [] => [String c EmptyString]
           end
  end.

(** The digit groups of an integer literal: digits, with single
    underscores allowed between two digits. [acc] is the value read so
    far, [prev_digit] tells whether the previous character was a digit. *)
Fixpoint int_digits (s : string) (acc : Z) (prev_digit : bool) : option Z :=
  match s with
  | EmptyString => if prev_digit then Some acc else None
  | String c r =>
      if is_digit c then int_digits r (10 * acc + digit_value c) true
      else if bool_decide (c = "_"%char) && prev_digit then
             match r with
             | String d _ => if is_digit d then int_digits r acc false else None
             | EmptyString => None
             end
           else None
  end.

(** [int(s)] in base ten: surrounding blanks, an optional sign, digits.
    [None] stands for [ValueError]. *)
Definition int (s : string) : option Z :=
  match strip s with
  | String "+" r => int_digits r 0 false
  | String "-" r => Z.opp <$> int_digits r 0 false
  | r => int_digits r 0 false
  end.

(** A stable sort by key, as [list.sort(key=...)] is: an element goes in
    front of the first later element whose key is not smaller. *)
Section Sort.
Context {A : Type} (leb : A -> A -> bool).

Fixpoint insert_sorted (x : A) (l : list A) : list A :=
  match l with
  | [] => [x]
  | y :: r => if leb x y then x :: l else y :: insert_sorted x r
  end.

Definition sort (l : list A) : list A := foldr insert_sorted [] l.
End Sort.

(** [sorted(l)] and [l.sort(key=str.lower)] on strings. *)
Definition sort_strings (l : list string) : list string := sort String.leb l.
Definition sort_by_lower (l : list string) : list string :=
  sort (fun a b => String.leb (lower a) (lower b)) l.

(** [", ".join(l)] and friends. *)
Definition join (sep : string) (l : list string) : string := String.concat sep l.

End Py.

(* ===================================================================== *)
(** ** The context manager *)
(* ===================================================================== *)

Module ContextManager.

Inductive ChannelJoinStatus : Set :=
| NOT_JOINED
| PENDING_INITIAL_JOIN
| JOIN_COMMAND_SENT
| SELF_JOIN_RECEIVED
| FULLY_JOINED
| PARTED
| JOIN_FAILED.

#[global] Instance ChannelJoinStatus_eq_dec : EqDecision ChannelJoinStatus.
Proof. solve_decision. Defined.

Inductive ContextType : Set :=
| status | channel | query | dcc_transfers | list_results | generic.

#[global] Instance ContextType_eq_dec : EqDecision ContextType.
Proof. solve_decision. Defined.

(** A context: the fields the client logic and the handlers read or
    assign. A scrollback entry is a line with its colour attribute. *)
Record Context : Type := mkContext {
  name : string;
  type : ContextType;
  join_status : option ChannelJoinStatus;
  users : list string;
  scrollback : list (string * Z);
  scrollback_offset : Z
}.

Definition with_join_status (st : option ChannelJoinStatus) (c : Context) : Context :=
  mkContext (name c) (type c) st (users c) (scrollback c) (scrollback_offset c).

Definition with_scrollback (sb : list (string * Z)) (c : Context) : Context :=
  mkContext (name c) (type c) (join_status c) (users c) sb (scrollback_offset c).

Definition with_scrollback_offset (off : Z) (c : Context) : Context :=
  mkContext (name c) (type c) (join_status c) (users c) (scrollback c) off.

(** The manager: the context table (a Python dict, so the insertion
    order of its keys is kept beside the map), the active context name
    and the history bound. *)
Record t : Type := mk {
  contexts : gmap string Context;
  context_order : list string;
  active_context_name : option string;
  max_history : nat
}.

Definition with_contexts (m : gmap string Context) (cm : t) : t :=
  mk m (context_order cm) (active_context_name cm) (max_history cm).

Definition with_active (a : option string) (cm : t) : t :=
  mk (contexts cm) (context_order cm) a (max_history cm).

Definition channel_prefixes : list string := ["#"; "&"; "+"; "!"].

(** Lower case of one character under the RFC 1459 case mapping. *)
Definition rfc1459_lower (c : ascii) : ascii :=
  if bool_decide (c = "["%char) then "{"%char
  else if bool_decide (c = "]"%char) then "}"%char
  else if bool_decide (c = "\"%char) then "|"%char
  else if bool_decide (c = "~"%char) then "^"%char
  else Py.lower_ascii c.

(** Modelled from the spec: [ContextManager._normalize_context_name] is
    not among the sources. The specification says that a context name is
    case-folded for channels per RFC 1459 ([{}|^] are the lower case of
    [[]\~]) and that [#Foo] and [#foo] are the same context. *)
Definition _normalize_context_name (n : string) : string :=
  if Py.startswith_any n channel_prefixes then Py.map_string rfc1459_lower n else n.

(** Modelled from the spec: [ContextManager.get_context] is not among
    the sources; it looks the case-folded name up in the table. *)
Definition get_context (cm : t) (n : string) : option Context :=
  contexts cm !! _normalize_context_name n.

(** Modelled from the spec: [ContextManager.create_context] is not among
    the sources. A name is unique after case folding: an existing
    context is left alone and [False] is returned; otherwise the context
    is stored under the folded name and [True] is returned. *)
Definition create_context (cm : t) (n : string) (ty : ContextType)
    (initial_join_status_for_channel : option ChannelJoinStatus) : t * bool :=
  let k := _normalize_context_name n in
  match contexts cm !! k with
  | Some _ => (cm, false)
  | None =>
      let js := if bool_decide (ty = channel)
                then Some (default NOT_JOINED initial_join_status_for_channel)
                else None in
      (mk (<[k := mkContext k ty js [] [] 0]> (contexts cm))
          (context_order cm ++ [k]) (active_context_name cm) (max_history cm),
       true)
  end.

(** Modelled from the spec: [ContextManager.set_active_context] is not
    among the sources; an existing context becomes the active one. *)
Definition set_active_context (cm : t) (n : string) : t * bool :=
  let k := _normalize_context_name n in
  match contexts cm !! k with
  | Some _ => (with_active (Some k) cm, true)
  | None => (cm, false)
  end.

(** The last [n] elements of a list: what a bounded history keeps. *)
Definition keep_last {A : Type} (n : nat) (l : list A) : list A :=
  drop (length l - n)%nat l.

(** Modelled from the spec: [ContextManager.add_message_to_context] is
    not among the sources. The line is appended to the scrollback of the
    named context; the scrollback never exceeds [max_history], overflow
    evicts the oldest line. The scrollback offset is not touched here. *)
Definition add_message_to_context (cm : t) (n : string) (text : string)
    (color : Z) (line_count : Z) : t * bool :=
  let k := _normalize_context_name n in
  match contexts cm !! k with
  | Some c =>
      let sb := keep_last (max_history cm) (scrollback c ++ [(text, color)]) in
      (with_contexts (<[k := with_scrollback sb c]> (contexts cm)) cm, true)
  | None => (cm, false)
  end.

(** [get_all_context_names()]: the keys of the table, in dict order. *)
Definition get_all_context_names (cm : t) : list string := context_order cm.

(** Assignment to a field of the context object that [get_context]
    returned: the object sits in the table under the folded name. *)
Definition update_context (cm : t) (n : string) (f : Context -> Context) : t :=
  with_contexts (alter f (_normalize_context_name n) (contexts cm)) cm.

(** [cm'] keeps every context of [cm], and what [view] shows of it. *)
Definition keeps {A : Type} (view : Context -> A) (cm cm' : ContextManager.t) : Prop :=
  forall k ctx, contexts cm !! k = Some ctx ->
  exists ctx', contexts cm' !! k = Some ctx' /\ view ctx' = view ctx.

(** The type and the join status of a context. *)
Definition join_view (c : Context) : ContextType * option ChannelJoinStatus :=
  (type c, join_status c).

End ContextManager.

Import ContextManager.

(* ===================================================================== *)
(** ** The client state *)
(* ===================================================================== *)

(** The user interface: its colour table and the width of the message
    window. *)
Record UI : Type := mkUI {
  colors : gmap string Z;
  msg_win_width : Z
}.

(** The connection information held by the state manager: the fields the
    numeric handlers read or assign. [state_manager.get_connection_info()]
    hands out the stored object, so an assignment to one of its fields is
    an update of the stored value. *)
Record ConnectionInfo : Type := mkConnectionInfo {
  nick : string;
  last_attempted_nick_change : option string;
  currently_joined_channels : gset string;
  initial_channels : list string
}.

Record RegistrationHandler : Type := mkRegistrationHandler {
  initial_nick : string;
  registration_nick : string
}.

Record NetworkHandler : Type := mkNetworkHandler {
  is_handling_nick_collision : bool;
  sent_raw : list string
}.

(** What the event manager was asked to dispatch. *)
Inductive Event : Type :=
| MESSAGE_ADDED_TO_CONTEXT (context_name text color_key : string)
    (source_full_ident : option string) (is_privmsg_or_notice : bool)
| CHANNEL_FULLY_JOINED_EVENT (channel_name : string).

(** [IRCClient_Logic]: the attributes the modelled methods use.
    [is_source_ignored] is [config.is_source_ignored]; [clock] is what
    [time.strftime("%H:%M:%S ")] returns. *)
Record Client : Type := mkClient {
  ui : option UI;
  is_source_ignored : string -> bool;
  clock : string;
  context_manager : ContextManager.t;
  conn_info : option ConnectionInfo;
  network_handler : NetworkHandler;
  registration_handler : option RegistrationHandler;
  last_join_command_target : option string;
  events : list Event;
  ui_needs_update : bool
}.

Definition with_context_manager (cm : ContextManager.t) (c : Client) : Client :=
  mkClient (ui c) (is_source_ignored c) (clock c) cm (conn_info c)
    (network_handler c) (registration_handler c) (last_join_command_target c)
    (events c) (ui_needs_update c).

Definition with_conn_info (ci : option ConnectionInfo) (c : Client) : Client :=
  mkClient (ui c) (is_source_ignored c) (clock c) (context_manager c) ci
    (network_handler c) (registration_handler c) (last_join_command_target c)
    (events c) (ui_needs_update c).

Definition with_network_handler (nh : NetworkHandler) (c : Client) : Client :=
  mkClient (ui c) (is_source_ignored c) (clock c) (context_manager c) (conn_info c)
    nh (registration_handler c) (last_join_command_target c)
    (events c) (ui_needs_update c).

Definition with_registration_handler (rh : option RegistrationHandler) (c : Client) : Client :=
  mkClient (ui c) (is_source_ignored c) (clock c) (context_manager c) (conn_info c)
    (network_handler c) rh (last_join_command_target c)
    (events c) (ui_needs_update c).

Definition with_last_join_command_target (t : option string) (c : Client) : Client :=
  mkClient (ui c) (is_source_ignored c) (clock c) (context_manager c) (conn_info c)
    (network_handler c) (registration_handler c) t
    (events c) (ui_needs_update c).

Definition dispatch (e : Event) (c : Client) : Client :=
  mkClient (ui c) (is_source_ignored c) (clock c) (context_manager c) (conn_info c)
    (network_handler c) (registration_handler c) (last_join_command_target c)
    (events c ++ [e]) (ui_needs_update c).

(** [self.ui_needs_update.set()]. *)
Definition set_ui_needs_update (c : Client) : Client :=
  mkClient (ui c) (is_source_ignored c) (clock c) (context_manager c) (conn_info c)
    (network_handler c) (registration_handler c) (last_join_command_target c)
    (events c) true.

(** [network_handler.send_raw(line)]. *)
Definition send_raw (line : string) (c : Client) : Client :=
  with_network_handler
    (mkNetworkHandler (is_handling_nick_collision (network_handler c))
       (sent_raw (network_handler c) ++ [line])) c.

Definition set_is_handling_nick_collision (b : bool) (c : Client) : Client :=
  with_network_handler (mkNetworkHandler b (sent_raw (network_handler c))) c.

(** Truth value of a Python [str]. *)
Definition nonempty (s : string) : bool := negb (bool_decide (s = EmptyString)).

(** Truth value of an [Optional[str]]. *)
Definition truthy (o : option string) : bool :=
  match o with Some s => nonempty s | None => false end.

(* ===================================================================== *)
(** ** Client logic: adding a message to a context *)
(* ===================================================================== *)

Module ClientLogic.

(** The [color_attr_or_key] argument: a semantic key, a curses attribute,
    or a value of another type. *)
Inductive ColorArg : Type :=
| ColorKey (k : string)
| ColorAttr (a : Z)
| ColorOther.

Definition default_color (u : UI) : Z := default 0 (colors u !! "default").

Definition resolve_color (u : UI) (c : ColorArg) : Z :=
  match c with
  | ColorKey k => default (default_color u) (colors u !! k)
  | ColorAttr a => a
  | ColorOther => default_color u
  end.

(** [target_context_name]: the given name, else the active context name,
    and ["Status"] when that is missing or empty. *)
Definition target_name (client : Client) (context_name : option string) : string :=
  let t := match context_name with
           | Some n => Some n
           | None => active_context_name (context_manager client)
           end in
  match t with
  | Some n => if nonempty n then n else "Status"
  | None => "Status"
  end.

(** The type and initial join status of a context made on the fly. *)
Definition new_context_kind (n : string) : ContextType * option ChannelJoinStatus :=
  if Py.startswith_any n channel_prefixes then (channel, Some NOT_JOINED)
  else if negb (bool_decide (n = "Status")) && negb (bool_decide (n = "DCC"))
          && negb (Py.contains n ":")
          && negb (Py.startswith_any n channel_prefixes)
       then (query, None)
       else (generic, None).

Definition max_w (u : UI) : Z :=
  if 1 <? msg_win_width u then msg_win_width u - 1 else 80.

Definition full_message (client : Client) (text : string) (prefix_time : bool) : string :=
  let timestamp := if prefix_time then clock client else EmptyString in
  if prefix_time && negb (Py.startswith text (Py.strip timestamp))
  then timestamp +:+ text else text.

(** One turn of the wrapping loop over the words of the message. *)
Definition wrap_step (w : Z) (acc : list string * string) (word : string)
    : list string * string :=
  let '(lines, current_line) := acc in
  if nonempty current_line
     && (w <? Z.of_nat (String.length current_line) + Z.of_nat (String.length word) + 1)
  then ((lines ++ [current_line])%list, word)
  else (lines, current_line +:+ (if nonempty current_line then " " else EmptyString) +:+ word).

(** The wrapped lines of a message. *)
Definition wrap_lines (w : Z) (msg : string) : list string :=
  let '(lines, current_line) := foldl (wrap_step w) ([], EmptyString) (Py.split_space msg) in
  let lines := if nonempty current_line then (lines ++ [current_line])%list else lines in
  if bool_decide (lines = []) && nonempty msg then (lines ++ [msg])%list else lines.

(** The loop that hands every wrapped line to the context manager. *)
Definition add_lines (cm : ContextManager.t) (target : string) (color : Z)
    (lines : list string) : ContextManager.t :=
  foldl (fun m line => (add_message_to_context m target line color 1).1) cm lines.

(** The lines [add_message] adds for a message on this client. *)
Definition lines_of_message (client : Client) (u : UI) (text : string)
    (prefix_time : bool) : list string :=
  wrap_lines (max_w u) (full_message client text prefix_time).

(** The scrollback pin: the offset of the target context moves by the
    number of lines when the target name is the active context name and
    the view is scrolled up. *)
Definition pin_scrollback (cm : ContextManager.t) (target : string)
    (target_context_obj : Context) (n : nat) : ContextManager.t :=
  if bool_decide (Some target = active_context_name cm)
     && (0 <? scrollback_offset target_context_obj)
  then update_context cm target
         (with_scrollback_offset (scrollback_offset target_context_obj + Z.of_nat n))
  else cm.

Definition event_color_key (c : ColorArg) : string :=
  match c with ColorKey k => k | _ => "system" end.

(** [IRCClient_Logic.add_message]. *)
Definition add_message (client : Client) (text : string) (color_attr_or_key : ColorArg)
    (prefix_time : bool) (context_name : option string)
    (source_full_ident : option string) (is_privmsg_or_notice : bool) : Client :=
  match ui client with
  | None => client
  | Some u =>
    let resolved_color_attr := resolve_color u color_attr_or_key in
    let target_context_name := target_name client context_name in
    if is_privmsg_or_notice && truthy source_full_ident
       && is_source_ignored client (default EmptyString source_full_ident)
    then client
    else
      let cm := context_manager client in
      let created :=
        match get_context cm target_context_name with
        | Some _ => (cm, true)
        | None =>
            let '(ty, js) := new_context_kind target_context_name in
            create_context cm target_context_name ty js
        end in
      if negb created.2 then
        let cm1 := created.1 in
        let cm2 := match get_context cm1 "Status" with
                   | Some _ => cm1
                   | None => (create_context cm1 "Status" status None).1
                   end in
        let cm3 := (add_message_to_context cm2 "Status"
                      ("[CtxErr for '" +:+ target_context_name +:+ "'] " +:+ text)
                      resolved_color_attr 1).1 in
        set_ui_needs_update (with_context_manager cm3 client)
      else
        let cm1 := created.1 in
        match get_context cm1 target_context_name with
        | None => with_context_manager cm1 client
        | Some _ =>
            let lines := lines_of_message client u text prefix_time in
            let num_lines_added_for_this_message := length lines in
            let cm2 := add_lines cm1 target_context_name resolved_color_attr lines in
            let cm3 :=
              match get_context cm2 target_context_name with
              | Some target_context_obj =>
                  pin_scrollback cm2 target_context_name target_context_obj
                    num_lines_added_for_this_message
              | None => cm2
              end in
            set_ui_needs_update
              (dispatch (MESSAGE_ADDED_TO_CONTEXT target_context_name text
                           (event_color_key color_attr_or_key)
                           source_full_ident is_privmsg_or_notice)
                 (with_context_manager cm3 client))
        end
  end.

(** [add_message(text, color, context_name=name)] as the handlers call it. *)
Definition add_message_to (client : Client) (text : string) (color : ColorArg)
    (context_name : string) : Client :=
  add_message client text color true (Some context_name) None false.

(** [client.add_message(text, color, third)] with three positional
    arguments: the third parameter of [add_message] is [prefix_time], so
    the string passed there is read as a truth value and [context_name]
    keeps its default, [None]. *)
Definition add_message_positional (client : Client) (text : string) (color : ColorArg)
    (third : string) : Client :=
  add_message client text color (nonempty third) None None false.

(** Modelled from the spec: [ContextManager.get_active_context] is not
    among the sources; it is the context of the active name, if any. *)
Definition get_active_context (cm : ContextManager.t) : option Context :=
  match active_context_name cm with
  | Some n => get_context cm n
  | None => None
  end.

(** [IRCClient_Logic.handle_channel_fully_joined]. *)
Definition handle_channel_fully_joined (client : Client) (channel_name : string) : Client :=
  let normalized_channel_name := _normalize_context_name channel_name in
  let client := dispatch (CHANNEL_FULLY_JOINED_EVENT normalized_channel_name) client in
  if truthy (last_join_command_target client)
     && bool_decide (_normalize_context_name (default EmptyString (last_join_command_target client))
                     = normalized_channel_name)
  then
    set_ui_needs_update
      (with_last_join_command_target None
         (with_context_manager
            (set_active_context (context_manager client) normalized_channel_name).1 client))
  else
    let active_ctx := get_active_context (context_manager client) in
    let on_status := match active_ctx with
                     | None => true
                     | Some c => bool_decide (name c = "Status")
                     end in
    if on_status then
      match conn_info client with
      | Some ci =>
          if bool_decide (initial_channels ci <> [])
             && bool_decide (normalized_channel_name
                             ∈ (_normalize_context_name <$> initial_channels ci))
          then set_ui_needs_update
                 (with_context_manager
                    (set_active_context (context_manager client) normalized_channel_name).1
                    client)
          else client
      | None => client
      end
    else client.

(** *** Inbound lines: the CTCP DCC diversion *)

(** What [IRCMessage.parse] gives for a line: the attributes that
    [handle_server_message] reads. *)
Record IRCMessage : Type := mkIRCMessage {
  command : string;
  params : list string;
  trailing : option string;
  prefix : option string;
  source_nick : option string
}.

(** Where [handle_server_message] sends a line. *)
Inductive Dispatch : Type :=
| UNPARSED (status_line : string)
| TO_DCC_MANAGER (nick userhost ctcp_payload : string)
| TO_ROUTER (line : string).

(** The CTCP delimiter, [\x01]. *)
Definition SOH : ascii := "001"%char.

(** [s.endswith("\x01")]. *)
Definition ends_with_soh (s : string) : bool := Py.endswith_char s SOH.

(** [s.startswith("\x01")]. *)
Definition starts_with_soh (s : string) : bool :=
  Py.startswith s (String SOH EmptyString).

(** [message_content[1:-1]]. *)
Definition ctcp_payload_of (message_content : string) : string :=
  Py.drop_last (Py.tail message_content).

(** [x or fallback] on an optional string. *)
Definition or_else (o : option string) (fallback : string) : string :=
  match o with
  | Some s => if nonempty s then s else fallback
  | None => fallback
  end.

(** [IRCClient_Logic.handle_server_message]: [has_dcc_manager] is the
    truth value of [self.dcc_manager], [parsed_msg] the result of
    [IRCMessage.parse(line)]. The raw-log echo to the Status window comes
    before the parse and does not bear on the dispatch. *)
Definition handle_server_message (has_dcc_manager : bool)
    (parsed_msg : option IRCMessage) (line : string) : Dispatch :=
  match parsed_msg with
  | None => UNPARSED ("[UNPARSED] " +:+ Py.strip line)
  | Some parsed_msg =>
      let to_router := TO_ROUTER line in
      if bool_decide (command parsed_msg = "PRIVMSG")
         || bool_decide (command parsed_msg = "NOTICE")
      then
        let message_content := default EmptyString (trailing parsed_msg) in
        if starts_with_soh message_content && ends_with_soh message_content then
          let ctcp_payload := ctcp_payload_of message_content in
          if Py.startswith (Py.upper ctcp_payload) "DCC " && has_dcc_manager then
            let nick_from_parser := or_else (source_nick parsed_msg) "UnknownNick" in
            let full_userhost_from_parser :=
              or_else (prefix parsed_msg) (nick_from_parser +:+ "!UnknownUser@UnknownHost") in
            TO_DCC_MANAGER nick_from_parser full_userhost_from_parser ctcp_payload
          else to_router
        else to_router
      else to_router
  end.

(** *** Switching the active context *)

(** What [switch_active_context] ends with: nothing, a call of
    [set_active_context], or an error line in the current context. *)
Inductive SwitchResult : Type :=
| NO_SWITCH
| SWITCH_TO (new_active_context_name : string)
| SWITCH_ERROR (message : string) (context_name : string).

(** The cycle order: Status, then the other contexts by lower-cased name,
    then DCC. *)
Definition sorted_context_names (context_names : list string) : list string :=
  let status_context := "Status" in
  let dcc_context := "DCC" in
  let regular_contexts :=
    Py.sort_by_lower
      (filter (fun n => n ∉ [status_context; dcc_context]) context_names) in
  let l := ((if bool_decide (status_context ∈ context_names) then [status_context] else [])
            ++ regular_contexts)%list in
  if bool_decide (dcc_context ∈ context_names) && negb (bool_decide (dcc_context ∈ l))
  then (l ++ [dcc_context])%list else l.

(** The order of two names in the cycle: by lower-cased name. *)
Definition lower_le (a b : string) : Prop := String.leb (Py.lower a) (Py.lower b) = true.

Definition regular_contexts (context_names : list string) : list string :=
  filter (fun n => n ∉ ["Status"; "DCC"]) context_names.

(** [l.index(x)], [None] for [ValueError]. *)
Fixpoint index_of (x : string) (l : list string) : option nat :=
  match l with
  | [] => None
  | y :: r => if bool_decide (x = y) then Some O else S <$> index_of x r
  end.

(** [l[i]] for an index known to be in range. *)
Definition item (l : list string) (i : Z) : string := default EmptyString (l !! Z.to_nat i).

(** The names a free-form argument selects, after the exact-name test:
    a window number, else a substring match. *)
Definition resolve_name (sorted : list string) (direction current_active_name : string)
    : SwitchResult :=
  let num_contexts := Z.of_nat (length sorted) in
  match Py.int direction with
  | Some n =>
      let num_idx := n - 1 in
      if (0 <=? num_idx) && (num_idx <? num_contexts)
      then SWITCH_TO (item sorted num_idx)
      else SWITCH_ERROR ("Invalid window number: " +:+ direction +:+ ". Max: "
                           +:+ Py.str_of_Z num_contexts)
                        current_active_name
  | None =>
      let found_ctx :=
        filter (fun n => Py.contains (Py.lower n) (Py.lower direction) = true) sorted in
      match found_ctx with
      | [one] => SWITCH_TO one
      | _ :: _ :: _ =>
          SWITCH_ERROR ("Ambiguous window name '" +:+ direction +:+ "'. Matches: "
                          +:+ Py.join ", " (Py.sort_strings found_ctx))
                       current_active_name
      | [] =>
          let exact_match_case_insensitive :=
            filter (fun n => Py.lower direction = Py.lower n) sorted in
          match exact_match_case_insensitive with
          | [one] => SWITCH_TO one
          | _ => SWITCH_ERROR ("Window '" +:+ direction +:+ "' not found.")
                              current_active_name
          end
      end
  end.

(** [IRCClient_Logic.switch_active_context]: [context_names] is what
    [get_all_context_names()] returns, [active] the active context name. *)
Definition switch_active_context (context_names : list string)
    (active : option string) (direction : string) : SwitchResult :=
  match context_names with
  | [] => NO_SWITCH
  | _ =>
    let sorted := sorted_context_names context_names in
    match (if truthy active then active else head sorted) with
    | None => NO_SWITCH
    | Some current_active_name =>
      let '(current_idx, current_active_name) :=
        match index_of current_active_name sorted with
        | Some i => (Z.of_nat i, current_active_name)
        | None => (0, default EmptyString (head sorted))
        end in
      if negb (nonempty current_active_name) then NO_SWITCH
      else
        let num_contexts := Z.of_nat (length sorted) in
        let chosen :=
          if bool_decide (direction = "next")
          then SWITCH_TO (item sorted ((current_idx + 1) `mod` num_contexts))
          else if bool_decide (direction = "prev")
          then SWITCH_TO (item sorted ((current_idx - 1 + num_contexts) `mod` num_contexts))
          else if bool_decide (direction ∈ sorted) then SWITCH_TO direction
          else resolve_name sorted direction current_active_name in
        match chosen with
        | SWITCH_TO n => if nonempty n then SWITCH_TO n else NO_SWITCH
        | r => r
        end
    end
  end.

(** The wrapped lines that a call of [add_message] hands to the context
    manager: none when there is no UI or the source is ignored. *)
Definition lines_added (client : Client) (text : string) (prefix_time : bool)
    (source_full_ident : option string) (is_privmsg_or_notice : bool) : list string :=
  match ui client with
  | None => []
  | Some u =>
      if is_privmsg_or_notice && truthy source_full_ident
         && is_source_ignored client (default EmptyString source_full_ident)
      then []
      else lines_of_message client u text prefix_time
  end.

(** A client scrolled up by three lines in its active context [#foo]. *)
Definition scrolled_up_client : Client :=
  mkClient (Some (mkUI (<["system" := 2]> (<["default" := 0]> ∅)) 20))
    (fun _ => false) "12:00:00 "
    (ContextManager.mk
       (<["#foo" := mkContext "#foo" channel (Some FULLY_JOINED) ["me"] [] 3]>
          (<["Status" := mkContext "Status" status None [] [] 0]> ∅))
       ["Status"; "#foo"] (Some "#foo") 500)
    None (mkNetworkHandler false []) None None [] false.

End ClientLogic.

(* ===================================================================== *)
(** ** Numeric handlers *)
(* ===================================================================== *)

Module NumericHandlers.
Import ClientLogic.

(** How a handler ends: it returns, or an exception leaves it. Either way
    the client state it leaves behind is given. *)
Inductive outcome : Type :=
| Done (client : Client)
| Raised (client : Client).

Definition final_state (o : outcome) : Client :=
  match o with Done c => c | Raised c => c end.

(** [client.ui.colors[key]]: [None] when the attribute access or the
    subscript raises. *)
Definition ui_colors (client : Client) (key : string) : option Z :=
  match ui client with
  | Some u => colors u !! key
  | None => None
  end.

(** [display_params[0] if display_params else fallback]. *)
Definition first_param (display_params : list string) (fallback : string) : string :=
  match display_params with
  | p :: _ => p
  | [] => fallback
  end.

(** Modelled from the spec: [StateManager.set] is not among the sources.
    The handlers pass it the stored [ConnectionInfo] object they have just
    assigned to, so the stored value is the assigned one already; no
    handler registered for ["connection_info"] touches the contexts or
    the tracked channels. *)
Definition state_manager_set_connection_info (client : Client) : Client := client.

(** [ctx.join_status = st] on the context [get_context(name)] returned. *)
Definition set_join_status (client : Client) (n : string) (st : ChannelJoinStatus) : Client :=
  with_context_manager
    (update_context (context_manager client) n (with_join_status (Some st))) client.

Definition with_joined (s : gset string) (ci : ConnectionInfo) : ConnectionInfo :=
  mkConnectionInfo (nick ci) (last_attempted_nick_change ci) s (initial_channels ci).

Definition with_nick (n : string) (ci : ConnectionInfo) : ConnectionInfo :=
  mkConnectionInfo n (last_attempted_nick_change ci) (currently_joined_channels ci)
    (initial_channels ci).

Definition with_last_attempted (l : option string) (ci : ConnectionInfo) : ConnectionInfo :=
  mkConnectionInfo (nick ci) l (currently_joined_channels ci) (initial_channels ci).

(** [conn_info.currently_joined_channels.add(name)] followed by the
    [state_manager.set], when there is a connection info. *)
Definition track_joined (client : Client) (n : string) : Client :=
  match conn_info client with
  | Some ci =>
      state_manager_set_connection_info
        (with_conn_info (Some (with_joined ({[n]} ∪ currently_joined_channels ci) ci)) client)
  | None => client
  end.

(** [conn_info.currently_joined_channels.discard(name)] followed by the
    [state_manager.set], when there is a connection info. *)
Definition untrack_joined (client : Client) (n : string) : Client :=
  match conn_info client with
  | Some ci =>
      state_manager_set_connection_info
        (with_conn_info (Some (with_joined (currently_joined_channels ci ∖ {[n]}) ci)) client)
  | None => client
  end.

Definition pending_join_states : list (option ChannelJoinStatus) :=
  [Some SELF_JOIN_RECEIVED; Some JOIN_COMMAND_SENT; Some PENDING_INITIAL_JOIN].

(** [_handle_rpl_endofnames], numeric 366. *)
Definition _handle_rpl_endofnames (client : Client) (display_params : list string) : outcome :=
  let channel_ended := first_param display_params "Unknown Channel" in
  let not_found :=
    match ui_colors client "error" with
    | None => Raised client
    | Some col =>
        Done (add_message_positional client
                ("End of names for " +:+ channel_ended +:+ " (context not found).")
                (ColorAttr col) "Status")
    end in
  match get_context (context_manager client) channel_ended with
  | Some ctx_for_endofnames =>
      if bool_decide (type ctx_for_endofnames = channel) then
        let user_count := Z.of_nat (length (users ctx_for_endofnames)) in
        if bool_decide (join_status ctx_for_endofnames ∈ pending_join_states) then
          let client := set_join_status client channel_ended FULLY_JOINED in
          let client := track_joined client channel_ended in
          Done (handle_channel_fully_joined client channel_ended)
        else if bool_decide (join_status ctx_for_endofnames = Some NOT_JOINED) then
          Done (add_message_to client
                  ("Users in " +:+ channel_ended +:+ ": " +:+ Py.str_of_Z user_count)
                  (ColorKey "system") channel_ended)
        else Done client
      else not_found
  | None => not_found
  end.

(** The tail shared by the 403 and the 471/473/474/475 handlers: the
    context of the channel, when it is a channel context, is marked
    [JOIN_FAILED]; the name is discarded from the tracked channels. *)
Definition fail_join (client : Client) (channel_name : string) : Client :=
  let client :=
    match get_context (context_manager client) channel_name with
    | Some failed_join_ctx =>
        if bool_decide (type failed_join_ctx = channel)
        then set_join_status client channel_name JOIN_FAILED
        else client
    | None => client
    end in
  untrack_joined client channel_name.

(** [_handle_err_nosuchchannel], numeric 403. *)
Definition _handle_err_nosuchchannel (client : Client) (display_params : list string) : outcome :=
  let channel_name := first_param display_params "channel" in
  match ui_colors client "error" with
  | None => Raised client
  | Some col =>
      let client := add_message_positional client
                      ("Channel " +:+ channel_name +:+ " does not exist or is invalid.")
                      (ColorAttr col) "Status" in
      Done (fail_join client channel_name)
  end.

Definition error_message_map (code : Z) : string :=
  if code =? 471 then "is full"
  else if code =? 473 then "is invite-only"
  else if code =? 474 then "you are banned"
  else if code =? 475 then "bad channel key (password)"
  else "join error".

(** [_handle_err_channel_join_group], numerics 471, 473, 474 and 475. *)
Definition _handle_err_channel_join_group (client : Client) (code : Z)
    (display_params : list string) (trailing : option string) : outcome :=
  let channel_name := first_param display_params "channel" in
  let reason := error_message_map code in
  match ui_colors client "error" with
  | None => Raised client
  | Some col =>
      let client := add_message_positional client
                      ("Cannot join " +:+ channel_name +:+ ": " +:+ reason +:+ ". "
                         +:+ (if truthy trailing then default EmptyString trailing else EmptyString))
                      (ColorAttr col) "Status" in
      Done (fail_join client channel_name)
  end.

(** The six numerics of the join state machine and their handlers, as
    [NUMERIC_HANDLERS] maps them. *)
Definition join_numerics : list Z := [366; 403; 471; 473; 474; 475].

Definition handle_join_numeric (code : Z) (client : Client)
    (display_params : list string) (trailing : option string) : outcome :=
  if code =? 366 then _handle_rpl_endofnames client display_params
  else if code =? 403 then _handle_err_nosuchchannel client display_params
  else _handle_err_channel_join_group client code display_params trailing.

(** [[p for p in params if p.lower() != current_nick.lower()]], the
    [display_params] that [_handle_numeric_command] hands to a handler. *)
Definition display_params_of (client : Client) (params : list string) : list string :=
  let current_nick := match conn_info client with Some ci => nick ci | None => EmptyString end in
  filter (fun p => Py.lower p <> Py.lower current_nick) params.

(** The invariant of the data model: every tracked channel is the name of
    a channel context whose join status is [FULLY_JOINED]. *)
Definition joined_invariant (client : Client) : Prop :=
  forall ci, conn_info client = Some ci ->
  forall c, c ∈ currently_joined_channels ci ->
  exists ctx, get_context (context_manager client) c = Some ctx
              /\ type ctx = channel
              /\ join_status ctx = Some FULLY_JOINED.

(** The candidate the 433 handler computes from the current and the
    initial nick, before truncation. [None] stands for the [IndexError] of
    [current_nick_for_logic[-1]] on an empty nick. *)
Definition next_try_nick (current_nick_for_logic initial_nick_for_logic : string)
    : option string :=
  if bool_decide (Py.lower current_nick_for_logic = Py.lower initial_nick_for_logic)
  then Some (initial_nick_for_logic +:+ "_")
  else if Py.endswith_char current_nick_for_logic "_"
  then Some (Py.drop_last current_nick_for_logic +:+ "1")
  else
    match Py.last_char current_nick_for_logic with
    | None => None
    | Some d =>
        if Py.is_digit d then
          let base_nick := Py.drop_last current_nick_for_logic in
          match Py.int (String d EmptyString) with
          | Some current_num => Some (base_nick +:+ Py.str_of_Z (current_num + 1))
          | None => Some (current_nick_for_logic +:+ "_")
          end
        else Some (current_nick_for_logic +:+ "_")
    end.

(** [if len(new_try_nick) > 9: new_try_nick = new_try_nick[:9]]. *)
Definition clamp_nick (new_try_nick : string) : string :=
  if (9 <? String.length new_try_nick)%nat then Py.take 9 new_try_nick else new_try_nick.

(** Modelled from the spec: [RegistrationHandler.update_nick_for_registration]
    is not among the sources; it records the nick that registration goes
    on with and leaves the initial nick as it is. *)
Definition update_nick_for_registration (n : string) (rh : RegistrationHandler)
    : RegistrationHandler :=
  mkRegistrationHandler (initial_nick rh) n.

(** Text of an optional string inside an f-string. *)
Definition fmt_opt (o : option string) : string := default "None" o.

(** [a.lower() == b.lower()] where [b] may be [None] only if unreachable. *)
Definition same_nick (a : string) (b : option string) : bool :=
  match b with
  | Some b => bool_decide (Py.lower a = Py.lower b)
  | None => false
  end.

(** [_handle_err_nicknameinuse], numeric 433. *)
Definition _handle_err_nicknameinuse (client : Client) (display_params : list string) : outcome :=
  let failed_nick : option string :=
    match display_params with
    | p :: _ => Some p
    | [] => nick <$> conn_info client
    end in
  match ui_colors client "error" with
  | None => Raised client
  | Some col_error =>
    let client := add_message_positional client
                    ("Nickname " +:+ fmt_opt failed_nick +:+ " is already in use.")
                    (ColorAttr col_error) "Status" in
    match conn_info client with
    | None => Done client
    | Some ci =>
      if match last_attempted_nick_change ci with
         | Some l => same_nick l failed_nick
         | None => false
         end
      then
        Done (state_manager_set_connection_info
                (with_conn_info (Some (with_last_attempted None ci)) client))
      else
        let is_our_nick_colliding := nonempty (nick ci) && same_nick (nick ci) failed_nick in
        if is_our_nick_colliding
           && negb (is_handling_nick_collision (network_handler client))
        then
          match registration_handler client with
          | Some rh =>
            match next_try_nick (nick ci) (initial_nick rh) with
            | None => Raised client
            | Some candidate =>
              let new_try_nick := clamp_nick candidate in
              match ui_colors client "system" with
              | None => Raised client
              | Some col_system =>
                let client := add_message_positional client
                                ("Trying " +:+ new_try_nick +:+ " instead.")
                                (ColorAttr col_system) "Status" in
                let client := set_is_handling_nick_collision true client in
                let client := send_raw ("NICK " +:+ new_try_nick) client in
                let client := state_manager_set_connection_info
                                (with_conn_info (Some (with_nick new_try_nick ci)) client) in
                Done (with_registration_handler
                        (Some (update_nick_for_registration new_try_nick rh)) client)
              end
            end
          | None => Done client
          end
        else if is_our_nick_colliding
                && is_handling_nick_collision (network_handler client)
        then
          match ui_colors client "error" with
          | None => Raised client
          | Some col =>
            let client := add_message_positional client
                "Nickname collision handling failed. Please use /nick to choose a different nickname."
                (ColorAttr col) "Status" in
            Done (set_is_handling_nick_collision false client)
          end
        else Done client
    end
  end.

(** A tracked channel and the join status its context has. *)
Definition tracked (client : Client) (c : string) : bool :=
  match conn_info client with
  | Some ci => bool_decide (c ∈ currently_joined_channels ci)
  | None => false
  end.

Definition join_status_of (client : Client) (c : string) : option ChannelJoinStatus :=
  match get_context (context_manager client) c with
  | Some ctx => join_status ctx
  | None => None
  end.

(** A client that sits in [#foo]: a Status window, the channel context
    fully joined, the channel tracked. *)
Definition ui0 : UI :=
  mkUI (<["error" := 1]> (<["system" := 2]> (<["default" := 0]> ∅))) 80.

Definition joined_foo : Client :=
  mkClient (Some ui0) (fun _ => false) "12:00:00 "
    (ContextManager.mk
       (<["#foo" := mkContext "#foo" channel (Some FULLY_JOINED) ["me"] [] 0]>
          (<["Status" := mkContext "Status" status None [] [] 0]> ∅))
       ["Status"; "#foo"] (Some "#foo") 500)
    (Some (mkConnectionInfo "me" None {["#foo"]} []))
    (mkNetworkHandler false []) (Some (mkRegistrationHandler "me" "me")) None [] false.

(** *** The nick collision rule, in the words of the specification *)

(** The candidate as the specification words it, with [same] as the test
    for "the current nick equals the initial nick": append [_] when it
    does; else replace a final [_] by [1]; else increment a final digit;
    else append [_]. *)
Definition spec_next_nick (same : string -> string -> bool) (current initial : string)
    : string :=
  if same current initial then current +:+ "_"
  else match Py.last_char current with
       | Some c =>
           if bool_decide (c = "_"%char) then Py.drop_last current +:+ "1"
           else if Py.is_digit c
                then Py.drop_last current +:+ Py.str_of_Z (Py.digit_value c + 1)
                else current +:+ "_"
       | None => current +:+ "_"
       end.

(** Equality of nicks as strings, and up to the case of ASCII letters. *)
Definition same_exactly (a b : string) : bool := bool_decide (a = b).
Definition same_ignoring_case (a b : string) : bool := bool_decide (Py.lower a = Py.lower b).

(** The candidate the handler computes, case by case: what the amended
    statement of the rule says. *)
Inductive candidate_of (current initial : string) : string -> Prop :=
| candidate_initial :
    Py.lower current = Py.lower initial ->
    candidate_of current initial (initial +:+ "_")
| candidate_underscore base :
    Py.lower current <> Py.lower initial ->
    current = base +:+ "_" ->
    candidate_of current initial (base +:+ "1")
| candidate_digit base d :
    Py.lower current <> Py.lower initial ->
    current = base +:+ String d EmptyString ->
    Py.is_digit d = true ->
    candidate_of current initial (base +:+ Py.str_of_Z (Py.digit_value d + 1))
| candidate_other base c :
    Py.lower current <> Py.lower initial ->
    current = base +:+ String c EmptyString ->
    c <> "_"%char -> Py.is_digit c = false ->
    candidate_of current initial (current +:+ "_").

(** The [NICK] lines among the lines sent. *)
Definition nick_commands (client : Client) : list string :=
  filter (fun l => Py.startswith l "NICK " = true) (sent_raw (network_handler client)).

(** A registered client with the given current and initial nick, no nick
    change of the user in flight, no collision being handled. *)
Definition client_with_nicks (current initial : string) : Client :=
  mkClient (Some ui0) (fun _ => false) "12:00:00 "
    (ContextManager.mk (<["Status" := mkContext "Status" status None [] [] 0]> ∅)
       ["Status"] (Some "Status") 500)
    (Some (mkConnectionInfo current None ∅ []))
    (mkNetworkHandler false []) (Some (mkRegistrationHandler initial initial)) None [] false.

End NumericHandlers.

(* ===================================================================== *)
(** ** The DCC manager *)
(* ===================================================================== *)

Module DCC.

Inductive DCCTransferStatus : Set :=
| QUEUED | NEGOTIATING | CONNECTING | TRANSFERRING
| COMPLETED | FAILED | CANCELLED | TIMED_OUT.

#[global] Instance DCCTransferStatus_eq_dec : EqDecision DCCTransferStatus.
Proof. solve_decision. Defined.

(** [DCCSendTransfer] and [DCCReceiveTransfer], the two subclasses of
    [DCCTransfer]. *)
Inductive DCCTransferType : Set := SEND | RECEIVE.

#[global] Instance DCCTransferType_eq_dec : EqDecision DCCTransferType.
Proof. solve_decision. Defined.

(** [status.name] and [transfer_type.name], the names of the enum
    members. *)
Definition status_name (s : DCCTransferStatus) : string :=
  match s with
  | QUEUED => "QUEUED"
  | NEGOTIATING => "NEGOTIATING"
  | CONNECTING => "CONNECTING"
  | TRANSFERRING => "TRANSFERRING"
  | COMPLETED => "COMPLETED"
  | FAILED => "FAILED"
  | CANCELLED => "CANCELLED"
  | TIMED_OUT => "TIMED_OUT"
  end.

Definition transfer_type_name (ty : DCCTransferType) : string :=
  match ty with
  | SEND => "SEND"
  | RECEIVE => "RECEIVE"
  end.

Record DCCTransfer : Type := mkDCCTransfer {
  transfer_id : string;
  transfer_type : DCCTransferType;
  peer_nick : string;
  peer_ip : option string;
  original_filename : string;
  local_filepath : string;
  filesize : Z;
  bytes_transferred : Z;
  status : DCCTransferStatus;
  end_time : option Q;
  passive_token : option string
}.

(** The entries of [dcc_config] that the modelled methods read. *)
Record DCCConfig : Type := mkDCCConfig {
  enabled : bool;
  resume_enabled : bool;
  cleanup_enabled : bool;
  transfer_max_age_seconds : Q;
  port_range_start : Z;
  port_range_end : Z;
  passive_mode_token_timeout : Q
}.

(** A stored passive offer. *)
Record PassiveOffer : Type := mkPassiveOffer {
  offer_nick : string;
  offer_filename : string;
  offer_filesize : Z;
  offer_ip_str : option string;
  offer_timestamp : Q
}.

(** What the manager asked of its collaborators, in order. *)
Inductive Effect : Type :=
| ADD_MESSAGE (text color_key context_name : string)
| SEND_CTCP_PRIVMSG (target ctcp_message : string)
| DISPATCH_EVENT (event_name transfer_id : string)
| START_TRANSFER_THREAD (transfer_id : string)
| PROCESS_NEXT_IN_SEND_QUEUE (peer_nick : string)
| UI_NEEDS_UPDATE.

(** [DCCManager]: configuration, transfer table, the offer table of the
    passive offer manager, and the effects so far. *)
Record DCCManager : Type := mkDCCManager {
  dcc_config : DCCConfig;
  transfers : gmap string DCCTransfer;
  pending_passive_offers : gmap string PassiveOffer;
  effects : list Effect
}.

Definition with_transfers (t : gmap string DCCTransfer) (m : DCCManager) : DCCManager :=
  mkDCCManager (dcc_config m) t (pending_passive_offers m) (effects m).

Definition with_offers (o : gmap string PassiveOffer) (m : DCCManager) : DCCManager :=
  mkDCCManager (dcc_config m) (transfers m) o (effects m).

Definition emit (e : Effect) (m : DCCManager) : DCCManager :=
  mkDCCManager (dcc_config m) (transfers m) (pending_passive_offers m)
    (effects m ++ [e]).

(** *** Cleanup of finished transfers *)

Definition terminal_statuses : list DCCTransferStatus :=
  [COMPLETED; FAILED; CANCELLED; TIMED_OUT].

(** [a > b] on clock values. *)
Definition Qgtb (a b : Q) : bool := negb (Qle_bool a b).

(** Truth value of [transfer.end_time] together with the age test:
    [transfer.end_time and (now - transfer.end_time > max_age_seconds)]. *)
Definition old_enough (now max_age_seconds : Q) (t : DCCTransfer) : bool :=
  match end_time t with
  | Some e => negb (Qeq_bool e 0) && Qgtb (now - e) max_age_seconds
  | None => false
  end.

(** The test under which the first loop marks a transfer for removal. *)
Definition marked_for_cleanup (now max_age_seconds : Q) (t : DCCTransfer) : bool :=
  bool_decide (status t ∈ terminal_statuses) && old_enough now max_age_seconds t.

(** The second loop: delete the marked ids that are (still) in the table,
    counting the deletions. *)
Definition remove_marked (tr : gmap string DCCTransfer) (ids : list string)
    : gmap string DCCTransfer * Z :=
  foldl (fun acc tid =>
           match acc.1 !! tid with
           | Some _ => (delete tid acc.1, acc.2 + 1)
           | None => acc
           end) (tr, 0%Z) ids.

(** [DCCManager._cleanup_finished_transfers], run at clock reading [now]. *)
Definition _cleanup_finished_transfers (m : DCCManager) (now : Q) : DCCManager :=
  if negb (cleanup_enabled (dcc_config m)) then m
  else
    let max_age_seconds := transfer_max_age_seconds (dcc_config m) in
    let transfer_ids_to_remove :=
      (filter (fun kv => marked_for_cleanup now max_age_seconds kv.2 = true)
         (map_to_list (transfers m))).*1 in
    let '(tr, cleaned_count) := remove_marked (transfers m) transfer_ids_to_remove in
    let m := with_transfers tr m in
    if (0 <? cleaned_count)%Z
    then emit UI_NEEDS_UPDATE
           (emit (ADD_MESSAGE ("DCC: Cleaned up " +:+ Py.str_of_Z cleaned_count
                                 +:+ " old transfer(s).") "debug" "DCC") m)
    else m.

(** *** Resuming a failed send *)

(** What [attempt_user_resume] returns: an error dictionary, or the result
    of the [_execute_send_operation] call it ends with. *)
Inductive ResumeResult : Type :=
| RESUME_ERROR (error : string)
| EXECUTE_SEND_OPERATION (peer_nick local_filepath original_filename : string)
    (filesize : Z) (passive : bool).

Definition resumable_statuses : list DCCTransferStatus :=
  [FAILED; CANCELLED; TIMED_OUT].

Definition is_send (t : DCCTransfer) : bool := bool_decide (transfer_type t = SEND).

Definition matches_by_id (identifier : string) (kv : string * DCCTransfer) : bool :=
  Py.startswith kv.1 identifier && is_send kv.2.

Definition matches_by_filename (identifier : string) (kv : string * DCCTransfer) : bool :=
  is_send kv.2 && bool_decide (Py.lower (original_filename kv.2) = Py.lower identifier).

(** The checks on the transfer found, and the final call. *)
Definition resume_found (resumable_transfer : DCCTransfer) : ResumeResult :=
  if negb (bool_decide (status resumable_transfer ∈ resumable_statuses))
  then RESUME_ERROR ("Transfer '" +:+ original_filename resumable_transfer
                       +:+ "' is not in a failed/cancelled state ("
                       +:+ status_name (status resumable_transfer) +:+ ").")
  else if negb ((0 <? bytes_transferred resumable_transfer)%Z
                && (bytes_transferred resumable_transfer <? filesize resumable_transfer)%Z)
  then RESUME_ERROR ("Transfer '" +:+ original_filename resumable_transfer
                       +:+ "' has no partial progress to resume from.")
  else EXECUTE_SEND_OPERATION (peer_nick resumable_transfer)
         (local_filepath resumable_transfer) (original_filename resumable_transfer)
         (filesize resumable_transfer) false.

(** [DCCManager.attempt_user_resume]. *)
Definition attempt_user_resume (m : DCCManager) (identifier : string) : ResumeResult :=
  if negb (enabled (dcc_config m)) then RESUME_ERROR "DCC is disabled."
  else if negb (resume_enabled (dcc_config m))
  then RESUME_ERROR "DCC resume is disabled in configuration."
  else
    let possible_matches_by_id :=
      filter (fun kv => matches_by_id identifier kv = true) (map_to_list (transfers m)) in
    match possible_matches_by_id with
    | [kv] => resume_found kv.2
    | _ :: _ :: _ =>
        RESUME_ERROR ("Ambiguous transfer ID prefix '" +:+ identifier
                        +:+ "'. Be more specific.")
    | [] =>
        let possible_matches_by_filename :=
          filter (fun kv => matches_by_filename identifier kv = true)
            (map_to_list (transfers m)) in
        match possible_matches_by_filename with
        | [kv] => resume_found kv.2
        | _ :: _ :: _ =>
            RESUME_ERROR ("Ambiguous filename '" +:+ identifier
                            +:+ "'. Multiple transfers match. Try ID prefix.")
        | [] => RESUME_ERROR ("No SEND transfer found matching '" +:+ identifier +:+ "'.")
        end
    end.

(** *** The listening socket *)

(** What one turn of the port loop meets: [socket()], [bind] and [listen]
    all succeed; or a [socket.error] with its [errno] is raised; or another
    exception is raised. [created] tells whether [socket.socket(...)] had
    returned, that is, whether [s] was assigned in this turn. *)
Inductive Attempt : Type :=
| BOUND
| SOCKET_ERROR (created : bool) (errno : Z)
| OTHER_EXCEPTION (created : bool).

(** The result of the search: a socket listening on a port, [None], or the
    [UnboundLocalError] that [if s:] raises in an [except] clause when no
    socket object was ever assigned to [s]. *)
Inductive Listening : Type :=
| LISTENING (port : Z)
| NO_PORT
| UNBOUND_LOCAL_ERROR.

(** The range the search runs over: the configured one, or 1024-65535
    when the configured start exceeds the configured end. *)
Definition effective_port_range (cfg : DCCConfig) : Z * Z :=
  if (port_range_end cfg <? port_range_start cfg)%Z then (1024%Z, 65535%Z)
  else (port_range_start cfg, port_range_end cfg).

(** [list(range(port_start, port_end + 1))]. *)
Definition ports_to_try (port_start port_end : Z) : list Z :=
  seqZ port_start (port_end + 1 - port_start).

(** The [for port in ports_to_try] loop; [s_assigned] tells whether the
    local [s] holds a socket object from this or an earlier turn. *)
Fixpoint try_ports (bind : Z -> Attempt) (s_assigned : bool) (ports : list Z) : Listening :=
  match ports with
  | [] => NO_PORT
  | port :: rest =>
      match bind port with
      | BOUND => LISTENING port
      | SOCKET_ERROR created _ | OTHER_EXCEPTION created =>
          if s_assigned || created then try_ports bind true rest
          else UNBOUND_LOCAL_ERROR
      end
  end.

(** [DCCManager._get_listening_socket]: [bind] is the behaviour of the
    operating system for each port. The warning about an invalid range
    goes to the DCC event log only; the one message shown to the user is
    the one after an exhausted search. *)
Definition _get_listening_socket (m : DCCManager) (bind : Z -> Attempt)
    : DCCManager * Listening :=
  let '(port_start, port_end) := effective_port_range (dcc_config m) in
  match try_ports bind false (ports_to_try port_start port_end) with
  | NO_PORT =>
      (emit (ADD_MESSAGE ("Error: No available DCC ports in range "
                            +:+ Py.str_of_Z port_start +:+ "-" +:+ Py.str_of_Z port_end +:+ ".")
               "error" "DCC") m,
       NO_PORT)
  | r => (m, r)
  end.

(** *** Inbound DCC CTCP *)

(** What the manager does with a DCC CTCP payload. *)
Inductive CtcpOutcome (Parsed : Type) : Type :=
| IGNORED_DCC_DISABLED
| MALFORMED_DCC_REQUEST
| PROCESS_CTCP (nick userhost : string) (parsed_dcc : Parsed).

Arguments IGNORED_DCC_DISABLED {Parsed}.
Arguments MALFORMED_DCC_REQUEST {Parsed}.
Arguments PROCESS_CTCP {Parsed} nick userhost parsed_dcc.

(** [DCCManager.handle_incoming_dcc_ctcp]; [parse_dcc_ctcp] is the parser
    of [dcc_protocol], which is not among the sources. *)
Definition handle_incoming_dcc_ctcp {Parsed : Type}
    (parse_dcc_ctcp : string -> option Parsed) (m : DCCManager)
    (nick userhost ctcp_payload : string) : DCCManager * CtcpOutcome Parsed :=
  if negb (enabled (dcc_config m)) then (m, IGNORED_DCC_DISABLED)
  else
    match parse_dcc_ctcp ctcp_payload with
    | None =>
        (emit (ADD_MESSAGE ("Received malformed DCC request from " +:+ nick +:+ ".")
                 "error" "Status") m,
         MALFORMED_DCC_REQUEST)
    | Some parsed_dcc => (m, PROCESS_CTCP nick userhost parsed_dcc)
    end.

(** *** Accepting a passive offer *)

(** The collaborators of a passive receive that are not among the sources
    or belong to the operating system. *)
Record Env : Type := mkEnv {
  (* [validate_download_path(filename, ..., filesize)]: the safe path, or
     the error with the sanitized file name. *)
  validate_download_path : string -> Z -> (string + string * option string);
  bind_port : Z -> Attempt;
  local_ip_for_ctcp : string;
  (* [format_dcc_accept_ctcp(filename, ip_str, port, position, token)] *)
  format_dcc_accept_ctcp : string -> string -> Z -> Z -> option string -> option string;
  (* [str(uuid.uuid4())] *)
  generated_transfer_id : string;
  (* [time.time()] as the passive offer manager reads it *)
  now : Q
}.

(** The dictionary a DCC operation returns, or the exception leaving it. *)
Inductive OpResult : Type :=
| OP_SUCCESS (transfer_id : string)
| OP_ERROR (error : string) (sanitized_filename : option string)
| OP_RAISED.

(** [transfer.status = status] on a transfer of the table. *)
Definition with_status (s : DCCTransferStatus) (t : DCCTransfer) : DCCTransfer :=
  mkDCCTransfer (transfer_id t) (transfer_type t) (peer_nick t) (peer_ip t)
    (original_filename t) (local_filepath t) (filesize t) (bytes_transferred t)
    s (end_time t) (passive_token t).

(** The event that goes with a status, [EmptyString] for none. *)
Definition status_event_name (status : DCCTransferStatus) : string :=
  if bool_decide (status = COMPLETED) then "DCC_TRANSFER_COMPLETE"
  else if bool_decide (status ∈ [FAILED; TIMED_OUT]) then "DCC_TRANSFER_ERROR"
  else if bool_decide (status = CANCELLED) then "DCC_TRANSFER_CANCELLED"
  else if bool_decide (status = TRANSFERRING) then "DCC_TRANSFER_START"
  else EmptyString.

(** [DCCManager.update_transfer_status]. The record of a transfer has no
    field for the error message, which no modelled method reads back: the
    message goes into the line for the DCC window. The call of
    [_process_next_in_send_queue], which delegates to the send manager, is
    an effect. *)
Definition update_transfer_status (m : DCCManager) (transfer_id : string)
    (status : DCCTransferStatus) (error_message : option string) : DCCManager :=
  match transfers m !! transfer_id with
  | Some transfer =>
      let m := with_transfers (<[transfer_id := with_status status transfer]> (transfers m)) m in
      let event_name := status_event_name status in
      let m := if nonempty event_name
               then emit (DISPATCH_EVENT event_name (DCC.transfer_id transfer)) m
               else m in
      let m := if bool_decide (status ∈ terminal_statuses) && is_send transfer
               then emit (PROCESS_NEXT_IN_SEND_QUEUE (peer_nick transfer)) m
               else m in
      emit (ADD_MESSAGE
              ("DCC " +:+ transfer_type_name (transfer_type transfer) +:+ " '"
                 +:+ original_filename transfer +:+ "' with " +:+ peer_nick transfer
                 +:+ ": " +:+ status_name status
                 +:+ (if truthy error_message
                      then " (" +:+ default EmptyString error_message +:+ ")"
                      else EmptyString))
              (if bool_decide (status ∈ [FAILED; TIMED_OUT]) then "error" else "system")
              "DCC") m
  | None => m
  end.

(** Modelled from the spec: [DCCTransfer._report_status] is not among the
    sources (none of the transfer classes is). A transfer is made with
    the manager it belongs to ([dcc_manager_ref]) and moves through the
    statuses of the state machine; reporting a status hands the status
    and the message to [update_transfer_status] of that manager, the
    manager's one entry point for a status, which nothing else calls. *)
Definition _report_status (m : DCCManager) (transfer_id : string)
    (status : DCCTransferStatus) (message : option string) : DCCManager :=
  update_transfer_status m transfer_id status message.

(** [DCCManager.initiate_passive_receive]. *)
Definition initiate_passive_receive (env : Env) (m : DCCManager)
    (peer_nick offered_filename : string) (offered_filesize : Z)
    (offer_token : string) (peer_ip_str_from_offer : option string)
    : DCCManager * OpResult :=
  if negb (enabled (dcc_config m)) then (m, OP_ERROR "DCC is disabled." None)
  else
    match validate_download_path env offered_filename offered_filesize with
    | inr (error, sanitized) => (m, OP_ERROR error sanitized)
    | inl safe_local_path =>
        match _get_listening_socket m (bind_port env) with
        | (m, UNBOUND_LOCAL_ERROR) => (m, OP_RAISED)
        | (m, NO_PORT) =>
            (m, OP_ERROR "Could not create listening socket for passive DCC RECV." None)
        | (m, LISTENING local_listening_port) =>
            match format_dcc_accept_ctcp env offered_filename (local_ip_for_ctcp env)
                    local_listening_port 0 (Some offer_token) with
            | None => (m, OP_ERROR "Failed to format passive DCC ACCEPT CTCP message." None)
            | Some ctcp_accept_message =>
                let tid := generated_transfer_id env in
                let recv_transfer :=
                  mkDCCTransfer tid RECEIVE peer_nick peer_ip_str_from_offer
                    offered_filename safe_local_path offered_filesize 0 QUEUED None None in
                let m := with_transfers (<[tid := recv_transfer]> (transfers m)) m in
                let m := emit (SEND_CTCP_PRIVMSG peer_nick ctcp_accept_message) m in
                let m := _report_status m tid NEGOTIATING
                           (Some ("Sent passive ACCEPT. Waiting for " +:+ peer_nick
                                    +:+ " to connect to " +:+ local_ip_for_ctcp env +:+ ":"
                                    +:+ Py.str_of_Z local_listening_port +:+ ".")) in
                let m := emit (START_TRANSFER_THREAD tid) m in
                let m := emit (DISPATCH_EVENT "DCC_TRANSFER_QUEUED" tid) m in
                let m := emit (ADD_MESSAGE ("Passive DCC RECV for '" +:+ offered_filename
                                              +:+ "' from " +:+ peer_nick
                                              +:+ " initiated. Listening on "
                                              +:+ local_ip_for_ctcp env +:+ ":"
                                              +:+ Py.str_of_Z local_listening_port
                                              +:+ ". Waiting for peer connection.")
                                 "system" "DCC") m in
                (m, OP_SUCCESS tid)
            end
        end
    end.

(** Modelled from the spec: [DCCPassiveOfferManager.get_offer] is not
    among the sources. Offers live in a token-indexed table with the
    expiration [passive_mode_token_timeout]: the offer stored under the
    token is returned unless it is past that age. *)
Definition get_offer (m : DCCManager) (now : Q) (offer_token : string) : option PassiveOffer :=
  match pending_passive_offers m !! offer_token with
  | Some o =>
      if Qgtb (now - offer_timestamp o) (passive_mode_token_timeout (dcc_config m))
      then None else Some o
  | None => None
  end.

(** Modelled from the spec: [DCCPassiveOfferManager.remove_offer] is not
    among the sources; it drops the token from the table and tells whether
    it was there. *)
Definition remove_offer (m : DCCManager) (offer_token : string) : DCCManager * bool :=
  (with_offers (delete offer_token (pending_passive_offers m)) m,
   bool_decide (is_Some (pending_passive_offers m !! offer_token))).

(** [DCCManager.accept_passive_offer_by_token]. The file name the user
    gave is compared with the stored one only to log a warning. *)
Definition accept_passive_offer_by_token (env : Env) (m : DCCManager)
    (calling_nick_for_logging offered_filename_by_user offer_token : string)
    : DCCManager * OpResult :=
  match get_offer m (now env) offer_token with
  | None =>
      (m, OP_ERROR ("Passive offer with token '" +:+ offer_token
                      +:+ "' not found or expired.") None)
  | Some pending_offer_details =>
      let original_sender_nick := offer_nick pending_offer_details in
      let original_offered_filename := offer_filename pending_offer_details in
      let original_filesize := offer_filesize pending_offer_details in
      let original_peer_ip_str := offer_ip_str pending_offer_details in
      let m := (remove_offer m offer_token).1 in
      initiate_passive_receive env m original_sender_nick original_offered_filename
        original_filesize offer_token original_peer_ip_str
  end.

(** *** The cleanup rule, in the words of the specification *)

(** [end_time] is set: it holds a clock reading, one that is not zero (the
    source tests the truth value of [transfer.end_time]). *)
Definition end_time_older_than (now max_age_seconds : Q) (t : DCCTransfer) : Prop :=
  exists e, end_time t = Some e /\ ~ (e == 0)%Q /\ (max_age_seconds < now - e)%Q.

(** A transfer in a terminal state whose end time is set and older than
    the maximum age. *)
Definition eligible_for_cleanup (now max_age_seconds : Q) (t : DCCTransfer) : Prop :=
  status t ∈ [COMPLETED; FAILED; CANCELLED; TIMED_OUT]
  /\ end_time_older_than now max_age_seconds t.

(** A table of four transfers at clock reading 1000 with a maximum age of
    100 seconds: an old failed one, a recent completed one, a running
    one, and a cancelled one without end time. *)
Definition example_transfer (tid : string) (ty : DCCTransferType) (fname : string)
    (size done : Z) (st : DCCTransferStatus) (e : option Q) : DCCTransfer :=
  mkDCCTransfer tid ty "alice" (Some "192.168.1.1") fname ("/up/" +:+ fname)
    size done st e None.

Definition example_transfers : gmap string DCCTransfer :=
  <["a1" := example_transfer "a1" SEND "movie.mkv" 1000000 500000 FAILED (Some (500 # 1))]>
  (<["b2" := example_transfer "b2" RECEIVE "gift.bin" 2048 2048 COMPLETED (Some (950 # 1))]>
  (<["c3" := example_transfer "c3" SEND "notes.txt" 10 4 TRANSFERRING None]>
  (<["d4" := example_transfer "d4" SEND "old.txt" 10 0 CANCELLED None]> ∅))).

Definition example_manager : DCCManager :=
  mkDCCManager (mkDCCConfig true true true (100 # 1) 1024 65535 (120 # 1))
    example_transfers ∅ [].

(** *** The resume rule, in the words of the specification *)

(** An outgoing SEND transfer whose id starts with the identifier. *)
Definition id_match (identifier tid : string) (t : DCCTransfer) : Prop :=
  Py.startswith tid identifier = true /\ transfer_type t = SEND.

(** An outgoing SEND transfer whose file name is the identifier, up to
    case. *)
Definition filename_match (identifier : string) (t : DCCTransfer) : Prop :=
  transfer_type t = SEND /\ Py.lower (original_filename t) = Py.lower identifier.

(** The identifier matches exactly one outgoing SEND transfer: by id
    prefix, or, when no id matches, by file name. *)
Definition resolves_to (m : DCCManager) (identifier : string) (t : DCCTransfer) : Prop :=
  (exists tid, transfers m !! tid = Some t /\ id_match identifier tid t
     /\ forall tid' t', transfers m !! tid' = Some t' -> id_match identifier tid' t' ->
                        tid' = tid)
  \/ ((forall tid' t', transfers m !! tid' = Some t' -> ~ id_match identifier tid' t')
      /\ exists tid, transfers m !! tid = Some t /\ filename_match identifier t
           /\ forall tid' t', transfers m !! tid' = Some t' -> filename_match identifier t' ->
                              tid' = tid).

(** All the conditions under which a resume goes ahead with [t]. *)
Definition resumable (m : DCCManager) (identifier : string) (t : DCCTransfer) : Prop :=
  enabled (dcc_config m) = true
  /\ resume_enabled (dcc_config m) = true
  /\ resolves_to m identifier t
  /\ status t ∈ [FAILED; CANCELLED; TIMED_OUT]
  /\ (0 < bytes_transferred t)%Z
  /\ (bytes_transferred t < filesize t)%Z.

(** *** An accepted passive offer *)

(** The offer is stored and has not expired at clock reading [now]. *)
Definition stored_unexpired (m : DCCManager) (now : Q) (offer_token : string)
    (offer : PassiveOffer) : Prop :=
  pending_passive_offers m !! offer_token = Some offer
  /\ (now - offer_timestamp offer <= passive_mode_token_timeout (dcc_config m))%Q.


(** A manager that holds the passive offer [tok42] of [gift.bin] from
    alice, received at clock reading 100, and an environment at clock
    reading 130 in which port 51000 binds. *)
Definition gift_offer : PassiveOffer :=
  mkPassiveOffer "alice" "gift.bin" 2048 (Some "10.0.0.7") (100 # 1).

Definition manager_with_gift : DCCManager :=
  mkDCCManager (mkDCCConfig true true true (259200 # 1) 51000 51010 (120 # 1))
    ∅ (<["tok42" := gift_offer]> ∅) [].

Definition example_env : Env :=
  mkEnv (fun filename _ => inl ("/downloads/" +:+ filename))
    (fun _ => BOUND) "192.168.1.1"
    (fun filename ip port position token =>
       Some ("DCC ACCEPT " +:+ filename +:+ " " +:+ ip +:+ " " +:+ Py.str_of_Z port
               +:+ " " +:+ Py.str_of_Z position +:+ " " +:+ default EmptyString token))
    "3f2c" (130 # 1).

End DCC.

(* ===================================================================== *)
(** ** The command handler *)
(* ===================================================================== *)

Module CommandHandler.

(** What a command handler, a script command handler or the text input
    path may do, one step after the other: some work of its own, a call
    back into [process_user_command], or a raise. [RAISE_EXCEPTION] is an
    exception below [Exception]; [RAISE_BASE] is one that is not (a
    [KeyboardInterrupt], a [SystemExit]). *)
Inductive Step : Type :=
| WORK (label : string)
| REENTER (line : string)
| RAISE_EXCEPTION (message : string)
| RAISE_BASE.

(** What the dispatcher did, in order. *)
Inductive Trace : Type :=
| DISPATCH_COMMAND (cmd args_str : string)
| DISPATCH_SCRIPT_COMMAND (cmd args_str : string)
| TEXT_INPUT (line : string)
| ADD_MESSAGE (text : string)
| DID (label : string)
| NESTED_RETURNED (result : bool).

(** The command tables and the text path: a handler is given by the steps
    it takes on its argument string. *)
Record Commands : Type := mkCommands {
  command_map : gmap string (string -> list Step);
  script_commands : gmap string (string -> list Step);
  handle_text_input : string -> list Step
}.

Record State : Type := mkState {
  _processing_depth : Z;
  active_context_name : option string;
  trace : list Trace
}.

Definition with_depth (d : Z) (st : State) : State :=
  mkState d (active_context_name st) (trace st).

Definition log (t : Trace) (st : State) : State :=
  mkState (_processing_depth st) (active_context_name st) (trace st ++ [t]).

(** How a call ends. *)
Inductive Outcome : Type :=
| RETURNED (result : bool)
| EXCEPTION (message : string)
| BASE_EXCEPTION.

(** The steps of a handler, run with [reenter] as the dispatcher it calls
    back into. A nested call that returns lets the handler go on; one that
    raises ends the handler with that exception. [None]: the nested call
    did not come back within the recursion bound. *)
Fixpoint run_steps (reenter : State -> string -> option (Outcome * State))
    (steps : list Step) (st : State) : option (Outcome * State) :=
  match steps with
  | [] => Some (RETURNED true, st)
  | WORK label :: rest => run_steps reenter rest (log (DID label) st)
  | REENTER line :: rest =>
      match reenter st line with
      | None => None
      | Some (RETURNED b, st) => run_steps reenter rest (log (NESTED_RETURNED b) st)
      | Some (raised, st) => Some (raised, st)
      end
  | RAISE_EXCEPTION message :: _ => Some (EXCEPTION message, st)
  | RAISE_BASE :: _ => Some (BASE_EXCEPTION, st)
  end.

(** [line[1:].split(" ", 1)]: the text before the first space and, when
    there is a space, the text after it. *)
Fixpoint split_first_space (s : string) : string * option string :=
  match s with
  | EmptyString => (EmptyString, None)
  | String c r =>
      if bool_decide (c = " "%char) then (EmptyString, Some r)
      else let '(a, b) := split_first_space r in (String c a, b)
  end.

(** A handler call inside [try: ... except Exception as e: add_message]:
    an [Exception] becomes an error line, anything else passes. *)
Definition guarded (what : string) (r : option (Outcome * State)) : option (Outcome * State) :=
  match r with
  | Some (EXCEPTION message, st) =>
      Some (RETURNED true, log (ADD_MESSAGE ("Error in " +:+ what +:+ ": " +:+ message)) st)
  | Some (RETURNED _, st) => Some (RETURNED true, st)
  | other => other
  end.

(** The body of the [try] block of [process_user_command]. *)
Definition dispatch_line (reenter : State -> string -> option (Outcome * State))
    (cmds : Commands) (st : State) (line : string) : option (Outcome * State) :=
  if negb (Py.startswith line "/") then
    if truthy (active_context_name st) then
      match run_steps reenter (handle_text_input cmds line) (log (TEXT_INPUT line) st) with
      | Some (RETURNED _, st) => Some (RETURNED true, st)
      | other => other
      end
    else Some (RETURNED false, log (ADD_MESSAGE "No active window to send message to.") st)
  else
    let '(c, a) := split_first_space (Py.tail line) in
    let cmd := Py.lower c in
    let args_str := default EmptyString a in
    match command_map cmds !! cmd with
    | Some handler_func =>
        guarded ("command /" +:+ cmd)
          (run_steps reenter (handler_func args_str) (log (DISPATCH_COMMAND cmd args_str) st))
    | None =>
        match script_commands cmds !! cmd with
        | Some script_handler =>
            guarded ("script command /" +:+ cmd)
              (run_steps reenter (script_handler args_str)
                 (log (DISPATCH_SCRIPT_COMMAND cmd args_str) st))
        | None => Some (RETURNED true, log (ADD_MESSAGE ("Unknown command: " +:+ cmd)) st)
        end
    end.

(** [CommandHandler.process_user_command]. The recursion of handlers
    calling back is bounded by [fuel]; [None] means the bound was hit. *)
Fixpoint process_user_command (fuel : nat) (cmds : Commands) (st : State) (line : string)
    : option (Outcome * State) :=
  match fuel with
  | O => None
  | S fuel =>
      let st := with_depth (_processing_depth st + 1) st in
      if (1 <? _processing_depth st)%Z
      then Some (RETURNED false, with_depth (_processing_depth st - 1) st)
      else
        match dispatch_line (process_user_command fuel cmds) cmds st line with
        | None => None
        | Some (out, st) =>
            (* finally: *)
            Some (out, with_depth (_processing_depth st - 1) st)
        end
  end.

(** The entries of a trace that are a dispatch of a command, of a script
    command or of text input. *)
Definition is_dispatch (t : Trace) : bool :=
  match t with
  | DISPATCH_COMMAND _ _ | DISPATCH_SCRIPT_COMMAND _ _ | TEXT_INPUT _ => true
  | _ => false
  end.

Definition dispatches (l : list Trace) : nat := length (filter (fun t => is_dispatch t = true) l).

(** Commands for the examples: [/again] calls the dispatcher on its
    argument and goes on, [/boom] raises [ValueError], [/stop] raises
    [SystemExit]; text input sends the line. *)
Definition example_commands : Commands :=
  mkCommands
    (<["again" := fun args => [WORK "before"; REENTER args; WORK "after"]]>
       (<["boom" := fun _ => [WORK "before"; RAISE_EXCEPTION "ValueError"]]>
          (<["stop" := fun _ => [RAISE_BASE]]> ∅)))
    ∅
    (fun line => [WORK ("PRIVMSG " +:+ line)]).

Definition idle : State := mkState 0 (Some "Status") [].

End CommandHandler.

(* ===================================================================== *)
(** ** An inbound line, from the client logic to its consumer *)
(* ===================================================================== *)

Module Inbound.
Import ClientLogic DCC.

(** Where an inbound line ends up. *)
Inductive Delivery (Parsed : Type) : Type :=
| ROUTED (line : string)
| CTCP_HANDLED (nick userhost : string) (parsed_dcc : Parsed)
| DROPPED_DCC_DISABLED
| DROPPED_MALFORMED
| DROPPED_UNPARSED.

Arguments ROUTED {Parsed} line.
Arguments CTCP_HANDLED {Parsed} nick userhost parsed_dcc.
Arguments DROPPED_DCC_DISABLED {Parsed}.
Arguments DROPPED_MALFORMED {Parsed}.
Arguments DROPPED_UNPARSED {Parsed}.

(** [handle_server_message] followed, for a diverted line, by
    [dcc_manager.handle_incoming_dcc_ctcp]; [dcc_manager] is the
    attribute of the client, [None] if it is not set. *)
Definition deliver {Parsed : Type} (parse_dcc_ctcp : string -> option Parsed)
    (dcc_manager : option DCCManager) (parsed_msg : option IRCMessage) (line : string)
    : Delivery Parsed :=
  match handle_server_message (bool_decide (is_Some dcc_manager)) parsed_msg line with
  | UNPARSED _ => DROPPED_UNPARSED
  | TO_ROUTER l => ROUTED l
  | TO_DCC_MANAGER nick userhost ctcp_payload =>
      match dcc_manager with
      | Some m =>
          match (handle_incoming_dcc_ctcp parse_dcc_ctcp m nick userhost ctcp_payload).2 with
          | IGNORED_DCC_DISABLED => DROPPED_DCC_DISABLED
          | MALFORMED_DCC_REQUEST => DROPPED_MALFORMED
          | PROCESS_CTCP n u p => CTCP_HANDLED n u p
          end
      | None => ROUTED line
      end
  end.

(** The destination as the specification words it: the DCC CTCP handler
    for a DCC payload while DCC is enabled, the router in every other
    case. *)
Definition spec_goes_to_router (dcc_enabled : bool) (ctcp_payload : string) : bool :=
  negb (Py.startswith (Py.upper ctcp_payload) "DCC " && dcc_enabled).

Definition is_routed {Parsed : Type} (d : Delivery Parsed) : bool :=
  match d with ROUTED _ => true | _ => false end.

(** A CTCP message: the payload between two [\x01]. *)
Definition ctcp (payload : string) : string :=
  String SOH (payload +:+ String SOH EmptyString).

(** A manager with DCC switched off, and one with DCC switched on. *)
Definition config_with (dcc_enabled : bool) : DCCConfig :=
  mkDCCConfig dcc_enabled true true 259200 1024 65535 120.

Definition manager_with (dcc_enabled : bool) : DCCManager :=
  mkDCCManager (config_with dcc_enabled) ∅ ∅ [].

(** [:alice!a@host PRIVMSG me :\x01DCC SEND file.txt 3232235777 5000 10\x01] *)
Definition dcc_send_offer : IRCMessage :=
  mkIRCMessage "PRIVMSG" ["me"] (Some (ctcp "DCC SEND file.txt 3232235777 5000 10"))
    (Some "alice!a@host") (Some "alice").

End Inbound.

(* ===================================================================== *)
(** ** Client logic: what goes out to the server *)
(* ===================================================================== *)

Module Outbound.
Import ClientLogic.

(** [s.lstrip(c)], [s.rstrip(c)] and [s.strip(c)] for a one-character
    set [c]. *)
Fixpoint lstrip_char (c : ascii) (s : string) : string :=
  match s with
  | EmptyString => EmptyString
  | String d r => if bool_decide (d = c) then lstrip_char c r else s
  end.

Fixpoint rstrip_char (c : ascii) (s : string) : string :=
  match s with
  | EmptyString => EmptyString
  | String d r =>
      match rstrip_char c r with
      | EmptyString => if bool_decide (d = c) then EmptyString else String d EmptyString
      | r' => String d r'
      end
  end.

Definition strip_char (c : ascii) (s : string) : string := rstrip_char c (lstrip_char c s).

(** [IRCClient_Logic.send_ctcp_privmsg]. *)
Definition send_ctcp_privmsg (client : Client) (target ctcp_message : string) : Client :=
  if negb (nonempty target) || negb (nonempty ctcp_message) then client
  else
    let payload := strip_char SOH ctcp_message in
    let full_ctcp_command := String SOH (payload +:+ String SOH EmptyString) in
    send_raw ("PRIVMSG " +:+ target +:+ " :" +:+ full_ctcp_command) client.

(** [IRCClient_Logic._add_status_message]. *)
Definition _add_status_message (client : Client) (text color_key : string) : Client :=
  match ui client with
  | Some u =>
      let color_attr := default (default 0 (colors u !! "system")) (colors u !! color_key) in
      add_message client text (ColorAttr color_attr) true (Some "Status") None false
  | None => client
  end.

(** [join_status.name] and the [type] string of a context. *)
Definition status_name (st : ChannelJoinStatus) : string :=
  match st with
  | NOT_JOINED => "NOT_JOINED"
  | PENDING_INITIAL_JOIN => "PENDING_INITIAL_JOIN"
  | JOIN_COMMAND_SENT => "JOIN_COMMAND_SENT"
  | SELF_JOIN_RECEIVED => "SELF_JOIN_RECEIVED"
  | FULLY_JOINED => "FULLY_JOINED"
  | PARTED => "PARTED"
  | JOIN_FAILED => "JOIN_FAILED"
  end.

Definition type_name (ty : ContextType) : string :=
  match ty with
  | status => "status"
  | channel => "channel"
  | query => "query"
  | dcc_transfers => "dcc_transfers"
  | list_results => "list_results"
  | generic => "generic"
  end.

(** [IRCClient_Logic.handle_text_input]: [enabled_caps] is what
    [get_enabled_caps()] returns, [echo_sent_to_status] the attribute of
    that name. *)
Definition handle_text_input (client : Client) (enabled_caps : gset string)
    (echo_sent_to_status : bool) (text : string) : Client :=
  let no_active_window :=
    _add_status_message client "No active window to send message to." "error" in
  match active_context_name (context_manager client) with
  | None => no_active_window
  | Some active_ctx_name =>
    if negb (nonempty active_ctx_name) then no_active_window
    else
      match get_context (context_manager client) active_ctx_name with
      | None =>
          _add_status_message client
            ("Error: Active context '" +:+ active_ctx_name +:+ "' not found.") "error"
      | Some active_ctx =>
          let send_and_echo :=
            let client := send_raw ("PRIVMSG " +:+ active_ctx_name +:+ " :" +:+ text) client in
            let current_nick :=
              match conn_info client with Some ci => nick ci | None => "unknown" end in
            if negb (bool_decide ("echo-message" ∈ enabled_caps)) then
              add_message client ("<" +:+ current_nick +:+ "> " +:+ text)
                (ColorKey "my_message") true (Some active_ctx_name) None false
            else if echo_sent_to_status then
              add_message client
                ("To " +:+ active_ctx_name +:+ ": <" +:+ current_nick +:+ "> " +:+ text)
                (ColorKey "my_message") true (Some "Status") None false
            else client in
          if bool_decide (type active_ctx = channel) then
            if bool_decide (join_status active_ctx = Some FULLY_JOINED) then send_and_echo
            else
              let join_status_name :=
                match join_status active_ctx with
                | Some st => status_name st
                | None => "N/A"
                end in
              add_message client
                ("Cannot send message: Channel " +:+ active_ctx_name
                   +:+ " not fully joined (Status: " +:+ join_status_name +:+ ").")
                (ColorKey "error") true (Some active_ctx_name) None false
          else if bool_decide (type active_ctx = query) then send_and_echo
          else
            _add_status_message client
              ("Cannot send messages to '" +:+ active_ctx_name +:+ "' (type: "
                 +:+ type_name (type active_ctx) +:+ "). Try a command like /msg.")
              "error"
      end
  end.

(** The active context is one that text can be sent to: a query, or a
    channel that is fully joined. *)
Definition can_send_to (client : Client) (active_ctx_name : string) : Prop :=
  active_context_name (context_manager client) = Some active_ctx_name
  /\ active_ctx_name <> EmptyString
  /\ exists active_ctx,
       get_context (context_manager client) active_ctx_name = Some active_ctx
       /\ (type active_ctx = query
           \/ (type active_ctx = channel /\ join_status active_ctx = Some FULLY_JOINED)).

(** [handle_cyclechannel_command] of the [/cyclechannel] command. *)
Definition handle_cyclechannel_command (client : Client) (args_str : string) : Client :=
  let current_active_context_name :=
    or_else (active_context_name (context_manager client)) "Status" in
  let not_in_channel :=
    add_message client "Not in a channel to cycle." (ColorKey "error") true
      (Some current_active_context_name) None false in
  match get_context (context_manager client) current_active_context_name with
  | Some current_context =>
      if bool_decide (type current_context = channel) then
        let channel := name current_context in
        let client := add_message client ("Cycling channel " +:+ channel +:+ "...")
                        (ColorKey "system") true (Some channel) None false in
        send_raw ("JOIN " +:+ channel) (send_raw ("PART " +:+ channel) client)
      else not_in_channel
  | None => not_in_channel
  end.

End Outbound.

(* ===================================================================== *)
(** ** Numeric replies: dispatch, nick errors, names and list replies *)
(* ===================================================================== *)

Module NumericReplies.
Import ClientLogic NumericHandlers.


(** The handler functions of the module. *)
Inductive Handler : Set :=
| HANDLE_RPL_WELCOME
| HANDLE_MOTD_AND_SERVER_INFO
| HANDLE_RPL_WHOISUSER
| HANDLE_RPL_ENDOFWHOIS
| HANDLE_RPL_NOTOPIC
| HANDLE_RPL_TOPIC
| HANDLE_RPL_NAMREPLY
| HANDLE_RPL_ENDOFNAMES
| HANDLE_ERR_NOSUCHNICK
| HANDLE_ERR_NOSUCHCHANNEL
| HANDLE_ERR_ERRONEUSNICKNAME
| HANDLE_ERR_NICKNAMEINUSE
| HANDLE_ERR_NICKCOLLISION
| HANDLE_ERR_CHANNEL_JOIN_GROUP
| HANDLE_SASL_LOGGEDIN_SUCCESS
| HANDLE_SASL_MECHANISMS
| HANDLE_SASL_FAIL_ERRORS
| HANDLE_ERR_SASLALREADY
| HANDLE_RPL_WHOWASUSER
| HANDLE_RPL_ENDOFWHO
| HANDLE_RPL_LISTSTART
| HANDLE_RPL_LIST
| HANDLE_RPL_LISTEND
| HANDLE_RPL_WHOREPLY
| HANDLE_RPL_ENDOFWHOWAS
| HANDLE_GENERIC_NUMERIC.

#[global] Instance Handler_eq_dec : EqDecision Handler.
Proof. solve_decision. Defined.





Definition _handle_motd_and_server_info (client : Client) (parsed_msg : IRCMessage)
    (generic_numeric_msg : string) : outcome :=
  match ui_colors client "system" with
  | None => Raised client
  | Some col =>
      Done (add_message_positional client
              ("[" +:+ command parsed_msg +:+ "] " +:+ generic_numeric_msg)
              (ColorAttr col) "Status")
  end.

(** [_handle_err_erroneusnickname], numeric 432. *)
Definition _handle_err_erroneusnickname (client : Client) (display_params : list string)
    (trailing : option string) : outcome :=
  let failed_nick := first_param display_params "nick" in
  let error_reason := or_else trailing "Erroneous nickname" in
  match ui_colors client "error" with
  | None => Raised client
  | Some col =>
      let client := add_message_positional client
                      ("Cannot change nick to " +:+ failed_nick +:+ ": " +:+ error_reason)
                      (ColorAttr col) "Status" in
      match conn_info client with
      | Some ci =>
          if match last_attempted_nick_change ci with
             | Some l => bool_decide (Py.lower l = Py.lower failed_nick)
             | None => false
             end
          then Done (state_manager_set_connection_info
                       (with_conn_info (Some (with_last_attempted None ci)) client))
          else Done client
      | None => Done client
      end
  end.

(** [s.split()]: cut at runs of blanks, no empty piece. *)
Fixpoint split_whitespace (s : string) : list string :=
  match s with
  | EmptyString => []
  | String c r =>
      if Py.is_space c then split_whitespace r
      else
        match r with
        | String d _ =>
            if Py.is_space d then String c EmptyString :: split_whitespace r
            else match split_whitespace r with
                 | w :: ws => String c w :: ws
                 | [] => [String c EmptyString]
                 end
        | EmptyString => [String c EmptyString]
        end
  end.

(** The status prefix and the nick of an entry of a names reply. *)
Definition split_nick_entry (nick_entry : string) : string * string :=
  if Py.startswith_any nick_entry ["@"; "+"; "%"; "&"; "~"]
  then (Py.take 1 nick_entry, Py.tail nick_entry)
  else (EmptyString, nick_entry).

(** Modelled from the spec: [ContextManager.add_user] is not among the
    sources. A context holds a user mapping whose keys, the nicks, are
    unique; the nick becomes a key of the mapping of the named context.
    The [users] of a context are the keys of its mapping. *)
Definition add_user (cm : ContextManager.t) (channel_name nick prefix : string)
    : ContextManager.t :=
  update_context cm channel_name
    (fun c => mkContext (name c) (type c) (join_status c)
                (if bool_decide (nick ∈ users c) then users c else (users c ++ [nick])%list)
                (scrollback c) (scrollback_offset c)).

(** [_handle_rpl_namreply], numeric 353. *)
Definition _handle_rpl_namreply (client : Client) (display_params : list string)
    (trailing : option string) : Client :=
  match display_params with
  | _ :: channel_in_reply :: _ =>
      if nonempty channel_in_reply then
        let cm := (create_context (context_manager client) channel_in_reply channel
                     (Some NOT_JOINED)).1 in
        match get_context cm channel_in_reply with
        | Some target_ctx_for_names =>
            let cm :=
              if bool_decide (join_status target_ctx_for_names = Some PENDING_INITIAL_JOIN)
                 || bool_decide (join_status target_ctx_for_names = Some JOIN_COMMAND_SENT)
              then update_context cm channel_in_reply (with_join_status (Some SELF_JOIN_RECEIVED))
              else cm in
            let nicks_on_list :=
              if truthy trailing then split_whitespace (default EmptyString trailing) else [] in
            with_context_manager
              (foldl (fun cm nick_entry =>
                        let '(prefix_char, actual_nick) := split_nick_entry nick_entry in
                        add_user cm channel_in_reply actual_nick prefix_char)
                 cm nicks_on_list)
              client
        | None => with_context_manager cm client
        end
      else client
  | _ => client
  end.




(** A channel context that is fully joined. *)
Definition is_fully_joined (c : Context) : bool :=
  bool_decide (type c = channel) && bool_decide (join_status c = Some FULLY_JOINED).

(** A client in [#foo] that has sent [JOIN #bar] and waits for the
    names. *)
Definition joining_bar : Client :=
  mkClient (Some ui0) (fun _ => false) "12:00:00 "
    (ContextManager.mk
       (<["#bar" := mkContext "#bar" channel (Some JOIN_COMMAND_SENT) [] [] 0]>
          (<["#foo" := mkContext "#foo" channel (Some FULLY_JOINED) ["me"] [] 0]>
             (<["Status" := mkContext "Status" status None [] [] 0]> ∅)))
       ["Status"; "#foo"; "#bar"] (Some "#foo") 500)
    (Some (mkConnectionInfo "me" None {["#foo"]} []))
    (mkNetworkHandler false []) (Some (mkRegistrationHandler "me" "me")) (Some "#bar") [] false.

End NumericReplies.

(* ===================================================================== *)
(** ** The command handler: arguments and completion *)
(* ===================================================================== *)

Module CommandArgs.
Import ClientLogic.

(** [s.split(" ", maxsplit)]: at most [maxsplit] cuts, from the left; a
    negative [maxsplit] puts no bound on the cuts. *)
Fixpoint split_max (maxsplit : nat) (s : string) : list string :=
  match maxsplit with
  | O => [s]
  | S k =>
      match CommandHandler.split_first_space s with
      | (a, Some b) => a :: split_max k b
      | (a, None) => [a]
      end
  end.

Definition split_space_max (s : string) (maxsplit : Z) : list string :=
  if maxsplit <? 0 then Py.split_space s else split_max (Z.to_nat maxsplit) s.

(** What [_ensure_args] ends with: the list it returns; [None], after
    the usage line was added; or the exception of [client.ui.colors]. *)
Inductive EnsureArgs : Type :=
| ARGS (parts : list string)
| NO_ARGS (client : Client)
| ENSURE_ARGS_RAISED.

(** [CommandHandler._ensure_args]. *)
Definition _ensure_args (client : Client) (args_str usage_message : string)
    (num_expected_parts : Z) : EnsureArgs :=
  let stripped_args_str := Py.strip args_str in
  let show_usage :=
    match NumericHandlers.ui_colors client "error" with
    | None => ENSURE_ARGS_RAISED
    | Some col =>
        NO_ARGS (add_message client usage_message (ColorAttr col) true
                   (Some (or_else (active_context_name (context_manager client)) "Status"))
                   None false)
    end in
  if num_expected_parts =? 0
  then ARGS (if negb (nonempty stripped_args_str) then [] else [stripped_args_str])
  else if negb (nonempty stripped_args_str) then show_usage
  else if num_expected_parts =? 1 then ARGS [stripped_args_str]
  else
    let parts := split_space_max stripped_args_str (num_expected_parts - 1) in
    if Z.of_nat (length parts) <? num_expected_parts then show_usage else ARGS parts.

(** [CommandHandler.get_available_commands_for_tab_complete]:
    [script_cmds_data] is what [get_all_script_commands_with_help()]
    returns, each script command with its aliases. *)
Definition get_available_commands_for_tab_complete (cmds : CommandHandler.Commands)
    (script_cmds_data : gmap string (list string)) : list string :=
  let core_cmds := (fun cmd => "/" +:+ cmd) <$> (map_to_list (CommandHandler.command_map cmds)).*1 in
  let script_cmds_and_aliases :=
    flat_map (fun kv => ("/" +:+ kv.1) :: ((fun alias => "/" +:+ alias) <$> kv.2))
      (map_to_list script_cmds_data) in
  Py.sort_strings
    (elements (list_to_set (core_cmds ++ script_cmds_and_aliases)%list : gset string)).

(** Commands whose text path raises. *)
Definition raising_text_commands : CommandHandler.Commands :=
  CommandHandler.mkCommands
    (<["boom" := fun _ => [CommandHandler.RAISE_EXCEPTION "ValueError"]]> ∅)
    ∅
    (fun _ => [CommandHandler.RAISE_EXCEPTION "OSError"]).

End CommandArgs.

(* ===================================================================== *)
(** ** Client logic: cycling through the channels *)
(* ===================================================================== *)

Module ChannelCycle.
Import ClientLogic.

(** The test of the loop that collects the channel contexts. *)
Definition is_channel_context (cm : ContextManager.t) (n : string) : bool :=
  match get_context cm n with
  | Some context_obj => bool_decide (type context_obj = channel)
  | None => false
  end.

(** The contexts [switch_active_channel] cycles through: the channel
    contexts by lower-cased name, then Status. *)
Definition cyclable_contexts (cm : ContextManager.t) : list string :=
  let all_context_names := get_all_context_names cm in
  let channel_names_only :=
    Py.sort_by_lower (filter (fun n => is_channel_context cm n = true) all_context_names) in
  if bool_decide ("Status" ∈ all_context_names)
     && negb (bool_decide ("Status" ∈ channel_names_only))
  then (channel_names_only ++ ["Status"])%list
  else channel_names_only.

(** [IRCClient_Logic.switch_active_channel]. The index [-1] of the
    source, for an active context that is not in the cycle, is [None]. *)
Definition switch_active_channel (client : Client) (direction : string) : Client :=
  let cm := context_manager client in
  let cyclable_contexts := cyclable_contexts cm in
  match cyclable_contexts with
  | [] =>
      add_message client "No channels or Status window to switch to." (ColorKey "system") true
        (Some (or_else (active_context_name cm) "Status")) None false
  | _ =>
      let current_active_name_str := active_context_name cm in
      let current_idx : option nat :=
        if truthy current_active_name_str
           && bool_decide (default EmptyString current_active_name_str ∈ cyclable_contexts)
        then index_of (default EmptyString current_active_name_str) cyclable_contexts
        else None in
      let num_cyclable := Z.of_nat (length cyclable_contexts) in
      let new_active_channel_name_to_set : option string :=
        match current_idx with
        | None => head cyclable_contexts
        | Some current_idx =>
            if bool_decide (direction = "next")
            then Some (item cyclable_contexts ((Z.of_nat current_idx + 1) `mod` num_cyclable))
            else if bool_decide (direction = "prev")
            then Some (item cyclable_contexts
                         ((Z.of_nat current_idx - 1 + num_cyclable) `mod` num_cyclable))
            else None
        end in
      if truthy new_active_channel_name_to_set then
        let name_to_set := default EmptyString new_active_channel_name_to_set in
        if (set_active_context cm name_to_set).2
        then set_ui_needs_update
               (with_context_manager (set_active_context cm name_to_set).1 client)
        else add_message client ("Error switching to '" +:+ name_to_set +:+ "'.")
               (ColorKey "error") true (Some (or_else current_active_name_str "Status"))
               None false
      else client
  end.

End ChannelCycle.

(* ===================================================================== *)
(** ** DCC manager: what a status report may add *)
(* ===================================================================== *)

Module TransferReports.
Import DCC.


End TransferReports.

(* ===================================================================== *)
(** * Properties *)
(* ===================================================================== *)

(** ** The join state machine and the tracked channels *)

Module JoinFacts.
Import ClientLogic NumericHandlers.

Lemma keeps_refl {A} (view : Context -> A) cm : keeps view cm cm.
Proof. intros k ctx H. eauto. Qed.

Lemma keeps_trans {A} (view : Context -> A) cm1 cm2 cm3 :
  keeps view cm1 cm2 -> keeps view cm2 cm3 -> keeps view cm1 cm3.
Proof.
  intros H12 H23 k ctx H.
  destruct (H12 k ctx H) as (c2 & H2 & Hv2).
  destruct (H23 k c2 H2) as (c3 & H3 & Hv3).
  exists c3. split; [done|]. congruence.
Qed.

Lemma keeps_create {A} (view : Context -> A) cm n ty js :
  keeps view cm (create_context cm n ty js).1.
Proof.
  unfold create_context.
  destruct (contexts cm !! _normalize_context_name n) eqn:E; simpl.
  - apply keeps_refl.
  - intros k ctx H. exists ctx. split; [|done]. simpl.
    rewrite lookup_insert_ne; [done|]. intros Heq. congruence.
Qed.

Lemma keeps_update {A} (view : Context -> A) cm n f :
  (forall c, view (f c) = view c) -> keeps view cm (update_context cm n f).
Proof.
  intros Hf k ctx H. unfold update_context. simpl.
  destruct (decide (k = _normalize_context_name n)) as [->|Hne].
  - rewrite lookup_alter_eq, H. simpl. eexists. split; [done|]. apply Hf.
  - rewrite lookup_alter_ne; [|done]. eauto.
Qed.

Lemma keeps_add_message_to_context {A} (view : Context -> A) cm n text color lc :
  (forall sb c, view (with_scrollback sb c) = view c) ->
  keeps view cm (add_message_to_context cm n text color lc).1.
Proof.
  intros Hv. unfold add_message_to_context.
  destruct (contexts cm !! _normalize_context_name n) as [c|] eqn:E; simpl.
  - intros k ctx H. simpl.
    destruct (decide (k = _normalize_context_name n)) as [->|Hne].
    + rewrite lookup_insert_eq. eexists. split; [done|].
      assert (ctx = c) as -> by congruence. apply Hv.
    + rewrite lookup_insert_ne; [|done]. eauto.
  - apply keeps_refl.
Qed.

Lemma keeps_set_active {A} (view : Context -> A) cm n :
  keeps view cm (set_active_context cm n).1.
Proof.
  unfold set_active_context.
  destruct (contexts cm !! _normalize_context_name n); simpl; [|apply keeps_refl].
  intros k ctx H. simpl. eauto.
Qed.

Lemma keeps_add_lines {A} (view : Context -> A) lines : forall cm target color,
  (forall sb c, view (with_scrollback sb c) = view c) ->
  keeps view cm (add_lines cm target color lines).
Proof.
  induction lines as [|l lines IH]; intros cm target color Hv.
  - apply keeps_refl.
  - unfold add_lines. simpl. eapply keeps_trans.
    + by apply (keeps_add_message_to_context view cm target l color 1).
    + by apply IH.
Qed.

Lemma keeps_pin cm target obj n : keeps join_view cm (pin_scrollback cm target obj n).
Proof.
  unfold pin_scrollback.
  destruct (_ && _); [|apply keeps_refl].
  apply keeps_update. intros c. done.
Qed.

(** [add_message] leaves the connection info alone and keeps the join
    state of every context. *)
Lemma add_message_conn_info client text color pt cn src pn :
  conn_info (add_message client text color pt cn src pn) = conn_info client.
Proof.
  unfold add_message.
  destruct (ui client); [|done].
  destruct (_ && _); [done|].
  destruct (get_context _ _) eqn:E; simpl.
  - rewrite E. done.
  - destruct (new_context_kind _) as [ty js].
    destruct (create_context _ _ _ _) as [cm1 ok] eqn:Ec. simpl.
    destruct ok; simpl; [|done].
    destruct (get_context cm1 _); done.
Qed.

Lemma add_message_keeps client text color pt cn src pn :
  keeps join_view (context_manager client)
    (context_manager (add_message client text color pt cn src pn)).
Proof.
  unfold add_message.
  destruct (ui client) as [u|]; [|apply keeps_refl].
  destruct (_ && _); [apply keeps_refl|].
  set (tn := target_name client cn).
  assert (Hpin : forall cm2,
    keeps join_view cm2
      match get_context cm2 tn with
      | Some obj => pin_scrollback cm2 tn obj
                      (length (lines_of_message client u text pt))
      | None => cm2
      end).
  { intros cm2. destruct (get_context cm2 tn); [apply keeps_pin|apply keeps_refl]. }
  destruct (get_context (context_manager client) tn) eqn:E; simpl.
  - rewrite E. simpl.
    eapply keeps_trans; [by apply keeps_add_lines|]. apply Hpin.
  - destruct (new_context_kind tn) as [ty js].
    pose proof (keeps_create join_view (context_manager client) tn ty js) as Hc.
    destruct (create_context _ _ _ _) as [cm1 ok] eqn:Ec. simpl in *.
    destruct ok; simpl.
    + destruct (get_context cm1 tn) eqn:E1; simpl; [|exact Hc].
      eapply keeps_trans; [exact Hc|].
      eapply keeps_trans; [by apply keeps_add_lines|]. apply Hpin.
    + eapply keeps_trans; [exact Hc|].
      eapply keeps_trans; [|by apply keeps_add_message_to_context].
      destruct (get_context cm1 "Status"); [apply keeps_refl|apply keeps_create].
Qed.

Lemma fully_joined_conn_info client n :
  conn_info (handle_channel_fully_joined client n) = conn_info client.
Proof.
  unfold handle_channel_fully_joined.
  destruct (_ && _); [done|].
  destruct (match get_active_context _ with Some _ => _ | None => _ end); [|done].
  simpl. destruct (conn_info client) eqn:E; [|done].
  destruct (_ && _); simpl; done.
Qed.

Lemma fully_joined_keeps client n :
  keeps join_view (context_manager client)
    (context_manager (handle_channel_fully_joined client n)).
Proof.
  unfold handle_channel_fully_joined.
  destruct (_ && _); simpl; [apply keeps_set_active|].
  destruct (match get_active_context _ with Some _ => _ | None => _ end);
    [|apply keeps_refl].
  simpl. destruct (conn_info client); [|apply keeps_refl].
  destruct (_ && _); simpl; [apply keeps_set_active|apply keeps_refl].
Qed.

(** The invariant passes along a step that keeps the join states and does
    not enlarge the tracked set. *)
Lemma invariant_transfer client client' :
  keeps join_view (context_manager client) (context_manager client') ->
  (forall ci', conn_info client' = Some ci' ->
     exists ci, conn_info client = Some ci
                /\ currently_joined_channels ci' ⊆ currently_joined_channels ci) ->
  joined_invariant client -> joined_invariant client'.
Proof.
  intros Hk Hci Hinv ci' Hci' c Hc.
  destruct (Hci ci' Hci') as (ci & Hcieq & Hsub).
  destruct (Hinv ci Hcieq c (Hsub c Hc)) as (ctx & Hg & Ht & Hj).
  destruct (Hk _ _ Hg) as (ctx' & Hg' & Hv).
  injection Hv as Ht' Hj'.
  exists ctx'. unfold get_context. split; [done|]. split; congruence.
Qed.

Lemma add_message_invariant client text color pt cn src pn :
  joined_invariant client ->
  joined_invariant (add_message client text color pt cn src pn).
Proof.
  apply invariant_transfer; [apply add_message_keeps|].
  intros ci' H. rewrite add_message_conn_info in H. eauto.
Qed.

(** Setting the join status of the context of [n] and what a lookup of
    another name then sees. *)
Lemma get_context_set_join_status client n st c :
  get_context (context_manager (set_join_status client n st)) c =
  if decide (_normalize_context_name c = _normalize_context_name n)
  then with_join_status (Some st) <$> get_context (context_manager client) c
  else get_context (context_manager client) c.
Proof.
  unfold get_context, set_join_status, update_context. simpl.
  case_decide as Hd.
  - rewrite Hd. apply lookup_alter_eq.
  - apply lookup_alter_ne. congruence.
Qed.

(** Numeric 366 keeps the invariant, from every state and for every
    parameter list, whether the handler returns or raises. *)
Lemma endofnames_preserves_invariant client display_params :
  joined_invariant client ->
  joined_invariant (final_state (_handle_rpl_endofnames client display_params)).
Proof.
  intros Hinv. unfold _handle_rpl_endofnames.
  set (n := first_param display_params "Unknown Channel").
  assert (Hnf : joined_invariant (final_state
            match ui_colors client "error" with
            | Some col => Done (add_message_positional client
                 ("End of names for " +:+ n +:+ " (context not found).")
                 (ColorAttr col) "Status")
            | None => Raised client
            end)).
  { destruct (ui_colors client "error"); simpl; [|done].
    by apply add_message_invariant. }
  destruct (get_context (context_manager client) n) as [ctx|] eqn:Hctx; [|exact Hnf].
  case_bool_decide as Hty; [|exact Hnf].
  case_bool_decide as Hpend.
  - simpl. eapply invariant_transfer;
      [apply fully_joined_keeps| |].
    { intros ci' H. rewrite fully_joined_conn_info in H. eexists. split; [exact H|done]. }
    intros ci' Hci' c Hc.
    replace (context_manager (track_joined (set_join_status client n FULLY_JOINED) n))
      with (context_manager (set_join_status client n FULLY_JOINED))
      by (unfold track_joined, state_manager_set_connection_info;
          destruct (conn_info (set_join_status client n FULLY_JOINED)); reflexivity).
    rewrite get_context_set_join_status.
    unfold track_joined, set_join_status, state_manager_set_connection_info in Hci'.
    simpl in Hci'.
    destruct (conn_info client) as [ci|] eqn:Hci; simpl in Hci'; [|congruence].
    injection Hci' as <-. simpl in Hc.
    case_decide as Hd.
    + unfold get_context in *. rewrite Hd, Hctx. simpl. eexists. split; [done|]. done.
    + apply elem_of_union in Hc as [Hc|Hc].
      * apply elem_of_singleton in Hc. subst c. done.
      * apply (Hinv ci Hci c Hc).
  - case_bool_decide; simpl; [|done]. by apply add_message_invariant.
Qed.

(** The 403 and 471-475 tail keeps the invariant when no other tracked
    name folds to the context of the failed channel. *)
Lemma fail_join_preserves_invariant client n :
  (forall ci c, conn_info client = Some ci -> c ∈ currently_joined_channels ci ->
     _normalize_context_name c = _normalize_context_name n -> c = n) ->
  joined_invariant client -> joined_invariant (fail_join client n).
Proof.
  intros Hal Hinv ci' Hci' c Hc.
  unfold fail_join, untrack_joined, state_manager_set_connection_info in *.
  set (client1 := match get_context (context_manager client) n with
                  | Some ctx => if bool_decide (type ctx = channel)
                                then set_join_status client n JOIN_FAILED else client
                  | None => client
                  end) in *.
  assert (Hci1 : conn_info client1 = conn_info client).
  { unfold client1. destruct (get_context _ _); [|done]. by case_bool_decide. }
  rewrite Hci1 in Hci' |- *.
  destruct (conn_info client) as [ci|] eqn:Hci; simpl in Hci'; [|congruence].
  injection Hci' as <-. simpl in *.
  apply elem_of_difference in Hc as [Hc Hne].
  rewrite elem_of_singleton in Hne.
  assert (Hnorm : _normalize_context_name c <> _normalize_context_name n).
  { intros Heq. apply Hne. by eapply Hal. }
  assert (Hg : get_context (context_manager client1) c = get_context (context_manager client) c).
  { unfold client1. destruct (get_context (context_manager client) n); [|done].
    case_bool_decide; [|done].
    rewrite get_context_set_join_status. by case_decide. }
  rewrite Hg. by apply (Hinv ci).
Qed.

Lemma invariant_tracked client c :
  joined_invariant client -> tracked client c = true ->
  join_status_of client c = Some FULLY_JOINED.
Proof.
  unfold tracked, join_status_of. intros Hinv Ht.
  destruct (conn_info client) as [ci|] eqn:Hci; [|done].
  apply bool_decide_eq_true in Ht.
  destruct (Hinv ci Hci c Ht) as (ctx & -> & _ & Hj). done.
Qed.

Lemma joined_foo_invariant : joined_invariant joined_foo.
Proof.
  intros ci Hci c Hc. injection Hci as <-. simpl in Hc.
  apply elem_of_singleton in Hc. subst c.
  eexists. split; [vm_compute; reflexivity|]. done.
Qed.

(** C1, at the failing input. The client sits in [#foo], the invariant
    holds; the server sends [403 me #FOO]. The handler marks the context
    of [#foo] as [JOIN_FAILED], for [get_context] folds the case of a
    channel name, and discards the name [#FOO] as it was sent, which is
    not in the set: [#foo] stays tracked with a join status that is not
    [FULLY_JOINED], and the invariant is broken. *)
Theorem nosuchchannel_case_variant_breaks_invariant :
  joined_invariant joined_foo
  /\ (exists client', _handle_err_nosuchchannel joined_foo ["#FOO"] = Done client'
        /\ tracked client' "#foo" = true
        /\ join_status_of client' "#foo" = Some JOIN_FAILED
        /\ ~ joined_invariant client').
Proof.
  split; [apply joined_foo_invariant|].
  exists (final_state (_handle_err_nosuchchannel joined_foo ["#FOO"])).
  assert (Ht : tracked (final_state (_handle_err_nosuchchannel joined_foo ["#FOO"])) "#foo"
               = true) by (vm_compute; reflexivity).
  assert (Hs : join_status_of (final_state (_handle_err_nosuchchannel joined_foo ["#FOO"]))
                 "#foo" = Some JOIN_FAILED) by (vm_compute; reflexivity).
  split; [|split; [exact Ht|split; [exact Hs|]]].
  - unfold _handle_err_nosuchchannel.
    replace (ui_colors joined_foo "error") with (Some 1) by (vm_compute; reflexivity).
    reflexivity.
  - intros Hinv. pose proof (invariant_tracked _ _ Hinv Ht) as H.
    rewrite Hs in H. discriminate.
Qed.

(** Each of the numerics 366, 403, 471, 473, 474 and 475 keeps the
    invariant, from every state, as long as no other tracked name folds to
    the context of the channel the numeric names. *)
Lemma join_numeric_preserves_invariant code client display_params trailing :
  code ∈ join_numerics ->
  (forall ci c, conn_info client = Some ci -> c ∈ currently_joined_channels ci ->
     _normalize_context_name c
     = _normalize_context_name (first_param display_params "channel") ->
     c = first_param display_params "channel") ->
  joined_invariant client ->
  joined_invariant (final_state (handle_join_numeric code client display_params trailing)).
Proof.
  intros _ Hal Hinv. unfold handle_join_numeric.
  destruct (code =? 366)%Z; [by apply endofnames_preserves_invariant|].
  assert (Htail : forall text col,
    joined_invariant
      (fail_join (add_message_positional client text (ColorAttr col) "Status")
         (first_param display_params "channel"))).
  { intros text col. apply fail_join_preserves_invariant.
    - intros ci c Hci. unfold add_message_positional in Hci.
      rewrite add_message_conn_info in Hci. by apply Hal.
    - by apply add_message_invariant. }
  destruct (code =? 403)%Z.
  - unfold _handle_err_nosuchchannel.
    destruct (ui_colors client "error"); simpl; [apply Htail|done].
  - unfold _handle_err_channel_join_group.
    destruct (ui_colors client "error"); simpl; [apply Htail|done].
Qed.

(** The handler of 471, 473, 474 and 475 shares the tail of the 403
    handler: [474 me #FOO] leaves [#foo] tracked and [JOIN_FAILED] too. *)
Example join_group_error_case_variant :
  tracked (final_state (_handle_err_channel_join_group joined_foo 474 ["#FOO"]
                          (Some "Cannot join channel (+b)"))) "#foo" = true
  /\ join_status_of
       (final_state (_handle_err_channel_join_group joined_foo 474 ["#FOO"]
                       (Some "Cannot join channel (+b)"))) "#foo"
     = Some JOIN_FAILED.
Proof. split; vm_compute; reflexivity. Qed.

(** With the name as the context manager stores it, the same numerics
    keep the invariant: [#foo] is untracked as its context fails. *)
Example nosuchchannel_same_case :
  tracked (final_state (_handle_err_nosuchchannel joined_foo ["#foo"])) "#foo" = false
  /\ join_status_of (final_state (_handle_err_nosuchchannel joined_foo ["#foo"])) "#foo"
     = Some JOIN_FAILED.
Proof. split; vm_compute; reflexivity. Qed.

End JoinFacts.

(** ** The nick collision retry *)

Module NickFacts.
Import ClientLogic NumericHandlers.

Lemma last_char_decompose s : forall c,
  Py.last_char s = Some c -> s = Py.drop_last s +:+ String c EmptyString.
Proof.
  induction s as [|a s IH]; intros c H; [done|].
  destruct s as [|b s].
  - simpl in *. by injection H as ->.
  - change (Py.last_char (String b s) = Some c) in H.
    change (String a (String b s)
            = String a (Py.drop_last (String b s) +:+ String c EmptyString)).
    f_equal. by apply IH.
Qed.

Lemma last_char_is_Some s : s <> EmptyString -> exists c, Py.last_char s = Some c.
Proof.
  induction s as [|a s IH]; [done|]. intros _.
  destruct s as [|b s]; [by eexists|].
  destruct IH as [c Hc]; [done|]. exists c.
  change (Py.last_char (String b s) = Some c). exact Hc.
Qed.

Lemma int_of_digit d : Py.is_digit d = true -> Py.int (String d EmptyString) = Some (Py.digit_value d).
Proof.
  destruct d as [[] [] [] [] [] [] [] []]; vm_compute; congruence.
Qed.

(** The slice of the clamp is the first nine characters in every case. *)
Lemma clamp_nick_take s : clamp_nick s = Py.take 9 s.
Proof.
  unfold clamp_nick. destruct (9 <? String.length s)%nat eqn:E; [done|].
  apply Nat.ltb_ge in E.
  do 10 (destruct s as [|? s]; [done|]). simpl in E. lia.
Qed.

Lemma take_nonempty n s : s <> EmptyString -> (0 < n)%nat -> Py.take n s <> EmptyString.
Proof. destruct s, n; simpl; intros; try done; lia. Qed.

Lemma append_nonempty a b : b <> EmptyString -> a +:+ b <> EmptyString.
Proof. destruct a; simpl; [done|]. intros _ H. discriminate H. Qed.

(** The candidate the handler computes is the one of the case-by-case
    rule, and there is one for every non-empty current nick. *)
Lemma next_try_nick_candidate current initial :
  current <> EmptyString ->
  exists candidate, next_try_nick current initial = Some candidate
                    /\ candidate_of current initial candidate
                    /\ candidate <> EmptyString.
Proof.
  intros Hne. unfold next_try_nick.
  case_bool_decide as Hsame.
  { eexists. split; [done|]. split; [by constructor|]. by apply append_nonempty. }
  destruct (last_char_is_Some current Hne) as [c Hc].
  pose proof (last_char_decompose current c Hc) as Hdec.
  unfold Py.endswith_char. rewrite Hc.
  case_bool_decide as Hu.
  { subst c. eexists. split; [done|]. split; [|by apply append_nonempty].
    by eapply candidate_underscore. }
  destruct (Py.is_digit c) eqn:Hd.
  - rewrite (int_of_digit c Hd). eexists. split; [done|]. split.
    + by eapply candidate_digit.
    + apply append_nonempty. unfold Py.str_of_Z.
      destruct c as [[] [] [] [] [] [] [] []]; vm_compute in Hd; try discriminate Hd;
        vm_compute; discriminate.
  - eexists. split; [done|]. split; [|by apply append_nonempty].
    by eapply candidate_other.
Qed.

(** [add_message] touches the contexts, the events and the refresh flag
    only. *)
Lemma add_message_frame client text color pt cn src pn :
  let client' := add_message client text color pt cn src pn in
  ui client' = ui client /\ conn_info client' = conn_info client
  /\ network_handler client' = network_handler client
  /\ registration_handler client' = registration_handler client.
Proof.
  unfold add_message.
  destruct (ui client) eqn:Eu; [|done].
  destruct (_ && _); [simpl; by rewrite Eu|].
  destruct (get_context _ _) eqn:E; simpl.
  - rewrite E. simpl. by rewrite Eu.
  - destruct (new_context_kind _) as [ty js].
    destruct (create_context _ _ _ _) as [cm1 ok] eqn:Ec. simpl.
    destruct ok; simpl; [|by rewrite Eu].
    destruct (get_context cm1 _); simpl; by rewrite Eu.
Qed.

Lemma ui_colors_add_message client text color pt cn src pn key :
  ui_colors (add_message client text color pt cn src pn) key = ui_colors client key.
Proof.
  unfold ui_colors.
  destruct (add_message_frame client text color pt cn src pn) as (-> & _). done.
Qed.

(** A 433 for our nick while a collision is being handled: nothing is
    sent, the user is told to pick a nick, the flag comes down. *)
Lemma nicknameinuse_while_handling client display_params ci col_e :
  ui_colors client "error" = Some col_e ->
  conn_info client = Some ci ->
  last_attempted_nick_change ci = None ->
  is_handling_nick_collision (network_handler client) = true ->
  nick ci <> EmptyString ->
  Py.lower (nick ci) = Py.lower (first_param display_params (nick ci)) ->
  exists client',
    _handle_err_nicknameinuse client display_params = Done client'
    /\ sent_raw (network_handler client') = sent_raw (network_handler client)
    /\ is_handling_nick_collision (network_handler client') = false.
Proof.
  intros He Hci Hl Hflag Hne Hsame.
  unfold _handle_err_nicknameinuse. rewrite He. cbv zeta.
  set (failed := match display_params with p :: _ => Some p | [] => nick <$> conn_info client end).
  assert (Hf : same_nick (nick ci) failed = true).
  { unfold failed, same_nick. destruct display_params as [|p ?]; simpl in *.
    - rewrite Hci. simpl. by apply bool_decide_eq_true.
    - by apply bool_decide_eq_true. }
  set (c1 := add_message_positional client _ _ _).
  destruct (add_message_frame client
              ("Nickname " +:+ fmt_opt failed +:+ " is already in use.")
              (ColorAttr col_e) (nonempty "Status") None None false) as (Hu1 & Hci1 & Hnh1 & Hrh1).
  fold (add_message_positional client ("Nickname " +:+ fmt_opt failed +:+ " is already in use.")
          (ColorAttr col_e) "Status") in Hu1, Hci1, Hnh1, Hrh1.
  fold c1 in Hu1, Hci1, Hnh1, Hrh1.
  rewrite Hci1, Hci, Hl, Hf, Hnh1, Hflag.
  assert (Hn : nonempty (nick ci) = true).
  { unfold nonempty. by rewrite bool_decide_eq_false_2. }
  rewrite Hn. simpl.
  assert (He1 : ui_colors c1 "error" = Some col_e).
  { unfold ui_colors. rewrite Hu1. exact He. }
  rewrite He1.
  eexists. split; [reflexivity|].
  set (c2 := add_message_positional c1 _ _ _).
  destruct (add_message_frame c1
    "Nickname collision handling failed. Please use /nick to choose a different nickname."
    (ColorAttr col_e) (nonempty "Status") None None false) as (_ & _ & Hnh2 & _).
  simpl. split; [|done].
  unfold c2, add_message_positional. rewrite Hnh2, Hnh1. done.
Qed.

(** C2, as amended. A 433 for our own nick (the nick the handler reads as
    failed equals the current nick up to the case of letters), with no
    nick change of the user pending, no collision being handled and the
    registration handler in place, computes one candidate: the initial
    nick with [_] appended when the current nick equals the initial nick
    up to case; else the current nick with its final [_] replaced by [1];
    else with its final digit [d] replaced by the decimal of [d + 1]; else
    with [_] appended. The first nine characters of the candidate are sent
    in one NICK command and become the current nick, and the collision
    flag goes up. A further 433 for that nick while the flag is up sends
    nothing and takes the flag down: one retry per collision. *)
Theorem nick_collision_one_retry client display_params ci rh col_e col_s :
  ui_colors client "error" = Some col_e ->
  ui_colors client "system" = Some col_s ->
  conn_info client = Some ci ->
  registration_handler client = Some rh ->
  last_attempted_nick_change ci = None ->
  is_handling_nick_collision (network_handler client) = false ->
  nick ci <> EmptyString ->
  Py.lower (nick ci) = Py.lower (first_param display_params (nick ci)) ->
  exists candidate client',
    candidate_of (nick ci) (initial_nick rh) candidate
    /\ _handle_err_nicknameinuse client display_params = Done client'
    /\ sent_raw (network_handler client')
       = (sent_raw (network_handler client) ++ ["NICK " +:+ Py.take 9 candidate])%list
    /\ is_handling_nick_collision (network_handler client') = true
    /\ nick <$> conn_info client' = Some (Py.take 9 candidate)
    /\ exists client'',
         _handle_err_nicknameinuse client' [Py.take 9 candidate] = Done client''
         /\ sent_raw (network_handler client'') = sent_raw (network_handler client')
         /\ is_handling_nick_collision (network_handler client'') = false.
Proof.
  intros He Hs Hci Hrh Hl Hflag Hne Hsame.
  destruct (next_try_nick_candidate (nick ci) (initial_nick rh) Hne)
    as (candidate & Hnext & Hcand & Hcne).
  exists candidate.
  unfold _handle_err_nicknameinuse. rewrite He. cbv zeta.
  set (failed := match display_params with p :: _ => Some p | [] => nick <$> conn_info client end).
  assert (Hf : same_nick (nick ci) failed = true).
  { unfold failed, same_nick. destruct display_params as [|p ?]; simpl in *.
    - rewrite Hci. simpl. by apply bool_decide_eq_true.
    - by apply bool_decide_eq_true. }
  set (c1 := add_message_positional client _ _ _).
  destruct (add_message_frame client
              ("Nickname " +:+ fmt_opt failed +:+ " is already in use.")
              (ColorAttr col_e) (nonempty "Status") None None false) as (Hu1 & Hci1 & Hnh1 & Hrh1).
  fold (add_message_positional client ("Nickname " +:+ fmt_opt failed +:+ " is already in use.")
          (ColorAttr col_e) "Status") in Hu1, Hci1, Hnh1, Hrh1.
  fold c1 in Hu1, Hci1, Hnh1, Hrh1.
  rewrite Hci1, Hci, Hl, Hf, Hnh1, Hflag, Hrh1, Hrh, Hnext.
  assert (Hn : nonempty (nick ci) = true).
  { unfold nonempty. by rewrite bool_decide_eq_false_2. }
  rewrite Hn. simpl.
  assert (Hs1 : ui_colors c1 "system" = Some col_s).
  { unfold ui_colors. rewrite Hu1. exact Hs. }
  rewrite Hs1, clamp_nick_take.
  set (new := Py.take 9 candidate).
  set (c2 := add_message_positional c1 ("Trying " +:+ new +:+ " instead.") (ColorAttr col_s) "Status").
  destruct (add_message_frame c1 ("Trying " +:+ new +:+ " instead.")
              (ColorAttr col_s) (nonempty "Status") None None false) as (Hu2 & Hci2 & Hnh2 & Hrh2).
  fold (add_message_positional c1 ("Trying " +:+ new +:+ " instead.") (ColorAttr col_s) "Status")
    in Hu2, Hci2, Hnh2, Hrh2.
  fold c2 in Hu2, Hci2, Hnh2, Hrh2.
  eexists. split; [exact Hcand|]. split; [reflexivity|].
  unfold state_manager_set_connection_info.
  split; [simpl; by rewrite Hnh2, Hnh1|].
  split; [done|]. split; [done|].
  apply (nicknameinuse_while_handling _ [new] (with_nick new ci) col_e).
  - unfold ui_colors. simpl. rewrite Hu2, Hu1. exact He.
  - done.
  - exact Hl.
  - done.
  - simpl. by apply take_nonempty; [|lia].
  - done.
Qed.

(** C2, witness: the client is [bob], as at registration; [433 bob]
    arrives, the dispatcher strips our nick from the parameters; the
    retry is for [bob_]. *)
Lemma nick_collision_one_retry_witness :
  exists candidate client',
    candidate_of "bob" "bob" candidate
    /\ _handle_err_nicknameinuse (client_with_nicks "bob" "bob")
         (display_params_of (client_with_nicks "bob" "bob") ["bob"]) = Done client'
    /\ sent_raw (network_handler client') = ([] ++ ["NICK " +:+ Py.take 9 candidate])%list
    /\ is_handling_nick_collision (network_handler client') = true
    /\ nick <$> conn_info client' = Some (Py.take 9 candidate)
    /\ exists client'',
         _handle_err_nicknameinuse client' [Py.take 9 candidate] = Done client''
         /\ sent_raw (network_handler client'') = sent_raw (network_handler client')
         /\ is_handling_nick_collision (network_handler client'') = false.
Proof.
  apply (nick_collision_one_retry (client_with_nicks "bob" "bob")
           (display_params_of (client_with_nicks "bob" "bob") ["bob"])
           (mkConnectionInfo "bob" None ∅ []) (mkRegistrationHandler "bob" "bob") 1 2);
    vm_compute; congruence.
Defined.

(** C2, counterexample. The current nick is [Bob], the initial nick is
    [bob]: the handler sends [NICK bob_], and that is not the command of
    the rule as the specification words it ([NICK Bob_]), whether "equals"
    is read exactly or up to case. *)
Lemma nick_collision_counterexample :
  nick_commands (final_state (_handle_err_nicknameinuse (client_with_nicks "Bob" "bob") ["Bob"]))
  = ["NICK bob_"]
  /\ nick_commands
       (final_state (_handle_err_nicknameinuse (client_with_nicks "Bob" "bob") ["Bob"]))
     <> ["NICK " +:+ Py.take 9 (spec_next_nick same_exactly "Bob" "bob")]
  /\ nick_commands
       (final_state (_handle_err_nicknameinuse (client_with_nicks "Bob" "bob") ["Bob"]))
     <> ["NICK " +:+ Py.take 9 (spec_next_nick same_ignoring_case "Bob" "bob")].
Proof.
  split; [vm_compute; reflexivity|].
  split; vm_compute; discriminate.
Qed.

(** The same 433 as a server words it during registration, [433 * bob]:
    [_handle_numeric_command] strips every parameter that equals our nick
    before the handler sees them, the handler reads [*] as the failed
    nick, and no retry is made. The retry needs a parameter list that
    holds nothing but our nick. *)
Example registration_433_is_read_as_star :
  display_params_of (client_with_nicks "bob" "bob") ["*"; "bob"] = ["*"]
  /\ nick_commands
       (final_state (_handle_err_nicknameinuse (client_with_nicks "bob" "bob")
                       (display_params_of (client_with_nicks "bob" "bob") ["*"; "bob"])))
     = [].
Proof. split; vm_compute; reflexivity. Qed.

End NickFacts.

(** ** The scrollback pin of [add_message] *)

Module ScrollbackFacts.
Import ClientLogic JoinFacts.

Lemma create_context_active cm n ty js :
  active_context_name (create_context cm n ty js).1 = active_context_name cm.
Proof. unfold create_context. by destruct (contexts cm !! _). Qed.

Lemma add_message_to_context_active cm n text color lc :
  active_context_name (add_message_to_context cm n text color lc).1 = active_context_name cm.
Proof. unfold add_message_to_context. by destruct (contexts cm !! _). Qed.

Lemma add_lines_active lines : forall cm target color,
  active_context_name (add_lines cm target color lines) = active_context_name cm.
Proof.
  induction lines as [|l lines IH]; intros cm target color; [done|].
  unfold add_lines. simpl. fold (add_lines (add_message_to_context cm target l color 1).1
                                   target color lines).
  rewrite IH. apply add_message_to_context_active.
Qed.

(** What a lookup sees after the pin. *)
Lemma pin_lookup cm target obj n k :
  contexts (pin_scrollback cm target obj n) !! k =
  if bool_decide (Some target = active_context_name cm) && (0 <? scrollback_offset obj)
     && bool_decide (k = _normalize_context_name target)
  then with_scrollback_offset (scrollback_offset obj + Z.of_nat n) <$> contexts cm !! k
  else contexts cm !! k.
Proof.
  unfold pin_scrollback.
  destruct (bool_decide (Some target = active_context_name cm) && (0 <? scrollback_offset obj));
    simpl; [|done].
  case_bool_decide as Hk.
  - subst k. apply lookup_alter_eq.
  - apply lookup_alter_ne. congruence.
Qed.

(** What the pin does. For every context that exists when [add_message]
    is called, the scrollback offset after the call is the offset before
    plus the number of wrapped lines of the message, if the context is
    the target, the target name is the active context name, string for
    string, and the offset is positive; and it is the offset before in
    every other case. *)
Theorem add_message_scrollback_offset client text color prefix_time context_name
    source_full_ident is_privmsg_or_notice k ctx :
  contexts (context_manager client) !! k = Some ctx ->
  exists ctx',
    contexts (context_manager
                (add_message client text color prefix_time context_name
                   source_full_ident is_privmsg_or_notice)) !! k = Some ctx'
    /\ scrollback_offset ctx' =
       if bool_decide (k = _normalize_context_name (target_name client context_name)
                       /\ active_context_name (context_manager client)
                          = Some (target_name client context_name)
                       /\ 0 < scrollback_offset ctx)
       then scrollback_offset ctx
            + Z.of_nat (length (lines_added client text prefix_time
                                  source_full_ident is_privmsg_or_notice))
       else scrollback_offset ctx.
Proof.
  intros Hk. unfold add_message, lines_added.
  set (tn := target_name client context_name).
  destruct (ui client) as [u|].
  2:{ exists ctx. split; [done|]. case_bool_decide; simpl; lia. }
  destruct (_ && _ && _).
  { exists ctx. split; [done|]. case_bool_decide; simpl; lia. }
  set (lines := lines_of_message client u text prefix_time).
  set (col := resolve_color u color).
  (* the part after the target context is known to exist in [cm1] *)
  assert (Hmain : forall cm1,
    keeps scrollback_offset (context_manager client) cm1 ->
    active_context_name cm1 = active_context_name (context_manager client) ->
    (contexts (context_manager client) !! _normalize_context_name tn = None ->
       k <> _normalize_context_name tn) ->
    forall obj0, get_context cm1 tn = Some obj0 ->
    exists ctx',
      contexts match get_context (add_lines cm1 tn col lines) tn with
               | Some obj => pin_scrollback (add_lines cm1 tn col lines) tn obj (length lines)
               | None => add_lines cm1 tn col lines
               end !! k = Some ctx'
      /\ scrollback_offset ctx' =
         if bool_decide (k = _normalize_context_name tn
                         /\ active_context_name (context_manager client) = Some tn
                         /\ 0 < scrollback_offset ctx)
         then scrollback_offset ctx + Z.of_nat (length lines)
         else scrollback_offset ctx).
  { intros cm1 Hkeep Hact Hnew obj0 Hobj0.
    pose proof (keeps_add_lines scrollback_offset lines cm1 tn col (fun _ _ => eq_refl)) as Hk2.
    pose proof (keeps_trans _ _ _ _ Hkeep Hk2) as Hk12.
    destruct (Hk12 k ctx Hk) as (c2 & Hc2 & Ho2).
    destruct (Hk2 _ _ Hobj0) as (obj & Hobj & Hoo).
    unfold get_context at 1. rewrite Hobj.
    rewrite pin_lookup, add_lines_active, Hact, Hc2. simpl.
    destruct (decide (k = _normalize_context_name tn)) as [Hkn|Hkn].
    - rewrite (bool_decide_eq_true_2 (k = _normalize_context_name tn) Hkn).
      subst k. assert (obj = c2) as -> by congruence.
      rewrite andb_true_r.
      destruct (bool_decide (Some tn = active_context_name (context_manager client))
                && (0 <? scrollback_offset c2)) eqn:Hcond; simpl.
      + eexists. split; [done|]. simpl.
        apply andb_true_iff in Hcond as [Ha Hp].
        apply bool_decide_eq_true in Ha. apply Z.ltb_lt in Hp.
        rewrite bool_decide_eq_true_2; [lia|]. split; [done|]. split; [done|lia].
      + eexists. split; [done|].
        rewrite bool_decide_eq_false_2; [done|].
        intros (_ & Ha & Hp). apply andb_false_iff in Hcond as [Hc|Hc].
        * apply bool_decide_eq_false in Hc. congruence.
        * apply Z.ltb_ge in Hc. lia.
    - rewrite (bool_decide_eq_false_2 (k = _normalize_context_name tn) Hkn).
      rewrite andb_false_r. eexists. split; [done|].
      rewrite bool_decide_eq_false_2; [done|]. by intros (? & _). }
  destruct (get_context (context_manager client) tn) as [c0|] eqn:E; simpl.
  - rewrite E. simpl.
    apply (Hmain (context_manager client) (keeps_refl _ _) eq_refl) with (obj0 := c0); [|done].
    intros Hnone. unfold get_context in E. congruence.
  - destruct (new_context_kind tn) as [ty js].
    pose proof (keeps_create scrollback_offset (context_manager client) tn ty js) as Hc.
    pose proof (create_context_active (context_manager client) tn ty js) as Ha.
    assert (Hok : (create_context (context_manager client) tn ty js).2 = true).
    { unfold create_context. unfold get_context in E. by rewrite E. }
    destruct (create_context _ _ _ _) as [cm1 ok]. simpl in *. subst ok. simpl.
    destruct (get_context cm1 tn) as [obj0|] eqn:E1; simpl.
    + apply (Hmain cm1 Hc Ha) with (obj0 := obj0); [|done].
      intros _ ->. unfold get_context in E. congruence.
    + destruct (Hc k ctx Hk) as (c1 & Hc1 & Ho1). exists c1. split; [done|].
      rewrite bool_decide_eq_false_2; [done|].
      intros (-> & _). unfold get_context in E. congruence.
Qed.

(** The active context [#foo] is scrolled up by three lines and a message
    of two wrapped lines arrives for [#foo]: the offset becomes 5. *)
Lemma add_message_scrollback_offset_witness :
  exists ctx',
    contexts (context_manager
                (add_message scrolled_up_client "hello there world" (ColorKey "system")
                   true (Some "#foo") None false)) !! "#foo" = Some ctx'
    /\ scrollback_offset ctx' = 3 + 2.
Proof.
  destruct (add_message_scrollback_offset scrolled_up_client "hello there world"
              (ColorKey "system") true (Some "#foo") None false "#foo"
              (mkContext "#foo" channel (Some FULLY_JOINED) ["me"] [] 3))
    as (ctx' & H1 & H2); [vm_compute; reflexivity|].
  exists ctx'. split; [exact H1|]. rewrite H2. vm_compute. reflexivity.
Defined.

End ScrollbackFacts.

(** ** The lines that [add_message] adds *)

Module ScrollbackLinesFacts.
Import ClientLogic JoinFacts ScrollbackFacts.

Lemma keep_last_app {A} (n : nat) (l r : list A) :
  keep_last n (keep_last n l ++ r) = keep_last n (l ++ r).
Proof.
  unfold keep_last. rewrite !length_app, length_drop.
  destruct (decide (length l <= n)%nat) as [Hle|Hgt].
  - replace (length l - n)%nat with 0%nat by lia. simpl.
    by rewrite Nat.sub_0_r.
  - replace (length l - (length l - n) + length r - n)%nat with (length r) by lia.
    replace (length l + length r - n)%nat with ((length l - n) + length r)%nat by lia.
    rewrite <- drop_drop. f_equal. rewrite drop_app_le by lia. done.
Qed.

Lemma keep_last_short {A} (n : nat) (l : list A) :
  (length l <= n)%nat -> keep_last n l = l.
Proof. intros H. unfold keep_last. by replace (length l - n)%nat with 0%nat by lia. Qed.

Lemma keep_last_length {A} (n : nat) (l : list A) : (length (keep_last n l) <= n)%nat.
Proof. unfold keep_last. rewrite length_drop. lia. Qed.

(** The lines handed to the context manager end up, in order, at the end
    of the scrollback of the target context, within the history bound. *)
Lemma add_lines_scrollback lines : forall cm target color c,
  contexts cm !! _normalize_context_name target = Some c ->
  (length (scrollback c) <= max_history cm)%nat ->
  contexts (add_lines cm target color lines) !! _normalize_context_name target
  = Some (with_scrollback
            (keep_last (max_history cm)
               (scrollback c ++ ((fun l => (l, color)) <$> lines))) c).
Proof.
  induction lines as [|l lines IH]; intros cm target color c Hc Hlen.
  - simpl. rewrite app_nil_r, keep_last_short by done. rewrite Hc. by destruct c.
  - unfold add_lines. cbn [foldl].
    fold (add_lines (add_message_to_context cm target l color 1).1 target color lines).
    unfold add_message_to_context. rewrite Hc. cbn [fst].
    set (c1 := with_scrollback (keep_last (max_history cm) (scrollback c ++ [(l, color)])) c).
    set (cm1 := with_contexts (<[_normalize_context_name target := c1]> (contexts cm)) cm).
    rewrite (IH cm1 target color c1).
    + unfold c1, cm1. simpl. f_equal. unfold with_scrollback. simpl. f_equal.
      rewrite keep_last_app. by rewrite <- app_assoc.
    + unfold cm1. simpl. apply lookup_insert_eq.
    + unfold c1, cm1. simpl. apply keep_last_length.
Qed.

(** A message for an existing context, on a client with a UI and from a
    source that is not ignored: the scrollback of the context is the old
    one followed by the wrapped lines of the message, cut to the history
    bound. *)
Lemma add_message_appends_lines client text color prefix_time context_name
    source_full_ident is_privmsg_or_notice u c :
  ui client = Some u ->
  is_privmsg_or_notice && truthy source_full_ident
    && is_source_ignored client (default EmptyString source_full_ident) = false ->
  get_context (context_manager client) (target_name client context_name) = Some c ->
  (length (scrollback c) <= max_history (context_manager client))%nat ->
  exists c',
    get_context (context_manager
                   (add_message client text color prefix_time context_name
                      source_full_ident is_privmsg_or_notice))
      (target_name client context_name) = Some c'
    /\ scrollback c'
       = keep_last (max_history (context_manager client))
           (scrollback c
            ++ ((fun l => (l, resolve_color u color))
                  <$> lines_added client text prefix_time source_full_ident
                        is_privmsg_or_notice)).
Proof.
  intros Hu Hig Hc Hlen.
  unfold add_message, lines_added. rewrite Hu, Hig, Hc. cbn [fst snd negb].
  rewrite Hc.
  set (tn := target_name client context_name) in *.
  set (lines := lines_of_message client u text prefix_time).
  set (col := resolve_color u color).
  pose proof (add_lines_scrollback lines (context_manager client) tn col c Hc Hlen) as Hsb.
  assert (Hsb' := Hsb).
  change (get_context (add_lines (context_manager client) tn col lines) tn = Some
            (with_scrollback
               (keep_last (max_history (context_manager client))
                  (scrollback c ++ ((fun l => (l, col)) <$> lines))) c)) in Hsb'.
  rewrite Hsb'. unfold get_context. simpl context_manager.
  rewrite pin_lookup, Hsb.
  match goal with |- context [if ?b then _ else _] => destruct b end;
    simpl; eexists; (split; [reflexivity|]); done.
Qed.

(** A message for the active context under another spelling of its name
    leaves the offset where it was: the target context is looked up with
    the case folded, the comparison with the active context name is made
    on the name as given. *)
Lemma pin_needs_same_spelling client text color prefix_time n source_full_ident
    is_privmsg_or_notice a c :
  active_context_name (context_manager client) = Some a ->
  n <> EmptyString -> n <> a ->
  contexts (context_manager client) !! _normalize_context_name n = Some c ->
  exists c',
    contexts (context_manager
                (add_message client text color prefix_time (Some n)
                   source_full_ident is_privmsg_or_notice))
      !! _normalize_context_name n = Some c'
    /\ scrollback_offset c' = scrollback_offset c.
Proof.
  intros Ha Hne Hna Hc.
  destruct (add_message_scrollback_offset client text color prefix_time (Some n)
              source_full_ident is_privmsg_or_notice _ c Hc) as (c' & Hc' & Ho).
  exists c'. split; [exact Hc'|]. rewrite Ho.
  rewrite bool_decide_eq_false_2; [done|].
  intros (_ & Hact & _). rewrite Ha in Hact. injection Hact as ->.
  apply Hna. unfold target_name, nonempty.
  by rewrite bool_decide_eq_false_2.
Qed.

(** C5. The active context [#foo] is scrolled up by three lines, and a
    message arrives for [#FOO], the same channel in the spelling of the
    server. The target context is the active context and its offset is
    positive; the two wrapped lines of the message are appended to its
    scrollback, and the offset is still 3, where the pinned view needs
    3 + 2. *)
Theorem scrollback_pin_misses_case_variant :
  let client := scrolled_up_client in
  let client' := add_message client "hello there world" (ColorKey "system") true
                   (Some "#FOO") None false in
  active_context_name (context_manager client) = Some "#foo"
  /\ get_context (context_manager client) "#FOO" = get_active_context (context_manager client)
  /\ scrollback <$> get_active_context (context_manager client) = Some []
  /\ scrollback_offset <$> get_active_context (context_manager client) = Some 3
  /\ scrollback <$> get_active_context (context_manager client')
     = Some [("12:00:00 hello", 2); ("there world", 2)]
  /\ scrollback_offset <$> get_active_context (context_manager client') = Some 3.
Proof. vm_compute. repeat split. Qed.

(** The same through a handler: the end of names (366) for [#FOO], with
    the context of [#foo] active, not joined and scrolled up by three
    lines. The line with the user count lands in the active context and
    the offset stays. *)
Example endofnames_line_is_not_pinned :
  let client :=
    mkClient (ui scrolled_up_client) (is_source_ignored scrolled_up_client)
      (clock scrolled_up_client)
      (ContextManager.mk
         (<["#foo" := mkContext "#foo" channel (Some NOT_JOINED) [] [] 3]>
            (<["Status" := mkContext "Status" status None [] [] 0]> ∅))
         ["Status"; "#foo"] (Some "#foo") 500)
      None (network_handler scrolled_up_client) None None [] false in
  let client' := NumericHandlers.final_state
                   (NumericHandlers._handle_rpl_endofnames client ["#FOO"]) in
  scrollback <$> get_active_context (context_manager client')
  = Some [("12:00:00 Users in", 2); ("#FOO: 0", 2)]
  /\ scrollback_offset <$> get_active_context (context_manager client') = Some 3.
Proof. vm_compute. repeat split. Qed.

End ScrollbackLinesFacts.

(** ** The CTCP DCC diversion *)

Module InboundFacts.
Import ClientLogic DCC Inbound.

Lemma last_char_ctcp payload :
  Py.last_char (payload +:+ String SOH EmptyString) = Some SOH.
Proof.
  induction payload as [|a p IH]; [done|].
  destruct p as [|b p]; [done|].
  change (Py.last_char (String b p +:+ String SOH EmptyString) = Some SOH). exact IH.
Qed.

Lemma drop_last_ctcp payload :
  Py.drop_last (payload +:+ String SOH EmptyString) = payload.
Proof.
  induction payload as [|a p IH]; [done|].
  destruct p as [|b p]; [done|].
  change (String a (Py.drop_last (String b p +:+ String SOH EmptyString))
          = String a (String b p)).
  by rewrite IH.
Qed.

(** The payload of a CTCP message is what lies between the delimiters. *)
Lemma ctcp_recognised payload :
  starts_with_soh (ctcp payload) = true
  /\ ends_with_soh (ctcp payload) = true
  /\ ctcp_payload_of (ctcp payload) = payload.
Proof.
  unfold ctcp, starts_with_soh, ends_with_soh, ctcp_payload_of, Py.endswith_char.
  split; [|split].
  - by destruct payload.
  - change (Py.last_char (String SOH (payload +:+ String SOH EmptyString)))
      with (Py.last_char (String SOH EmptyString +:+ (payload +:+ String SOH EmptyString))).
    destruct payload as [|a p]; [done|].
    change (match Py.last_char (String a p +:+ String SOH EmptyString) with
            | Some d => bool_decide (d = SOH) | None => false end = true).
    rewrite last_char_ctcp. by apply bool_decide_eq_true.
  - simpl. apply drop_last_ctcp.
Qed.

(** C3, as amended. For a PRIVMSG or NOTICE whose trailing is a CTCP
    message, the payload between the delimiters decides: a payload that
    starts with [DCC ] in any case, on a client that has a DCC manager,
    goes to the manager and never to the router; the manager hands the
    parsed request to the DCC CTCP handler when DCC is enabled (a request
    that does not parse is reported as malformed) and ignores it when DCC
    is disabled. In every other case the line goes to the router. *)
Theorem ctcp_dcc_diversion {Parsed : Type} (parse_dcc_ctcp : string -> option Parsed)
    (dcc_manager : option DCCManager) (msg : IRCMessage) (line payload : string) :
  command msg = "PRIVMSG" \/ command msg = "NOTICE" ->
  trailing msg = Some (ctcp payload) ->
  deliver parse_dcc_ctcp dcc_manager (Some msg) line =
    if Py.startswith (Py.upper payload) "DCC " then
      match dcc_manager with
      | Some m =>
          if enabled (dcc_config m) then
            match parse_dcc_ctcp payload with
            | Some parsed_dcc =>
                CTCP_HANDLED (or_else (source_nick msg) "UnknownNick")
                  (or_else (prefix msg)
                     (or_else (source_nick msg) "UnknownNick" +:+ "!UnknownUser@UnknownHost"))
                  parsed_dcc
            | None => DROPPED_MALFORMED
            end
          else DROPPED_DCC_DISABLED
      | None => ROUTED line
      end
    else ROUTED line.
Proof.
  intros Hcmd Htr.
  destruct (ctcp_recognised payload) as (Hs & He & Hp).
  unfold deliver, handle_server_message.
  assert (Hc : bool_decide (command msg = "PRIVMSG") || bool_decide (command msg = "NOTICE")
               = true).
  { destruct Hcmd as [-> | ->]; done. }
  rewrite Hc, Htr. simpl default. rewrite Hs, He, Hp. simpl andb at 1.
  destruct (Py.startswith (Py.upper payload) "DCC "); simpl; [|done].
  destruct dcc_manager as [m|]; simpl; [|done].
  unfold handle_incoming_dcc_ctcp.
  destruct (enabled (dcc_config m)); simpl; [|done].
  destruct (parse_dcc_ctcp payload); done.
Qed.

(** C3, witness: a DCC SEND offer in a PRIVMSG, DCC enabled, a parser that
    accepts: the request reaches the DCC CTCP handler. *)
Lemma ctcp_dcc_diversion_witness :
  deliver (fun p => Some p) (Some (manager_with true)) (Some dcc_send_offer) "raw line"
  = CTCP_HANDLED "alice" "alice!a@host" "DCC SEND file.txt 3232235777 5000 10".
Proof.
  rewrite (ctcp_dcc_diversion (fun p => Some p) (Some (manager_with true)) dcc_send_offer
             "raw line" "DCC SEND file.txt 3232235777 5000 10");
    [reflexivity | left; reflexivity | reflexivity].
Defined.

(** A line that is not a PRIVMSG or NOTICE, or whose trailing is not
    bracketed by the delimiters, goes to the router. *)
Lemma not_ctcp_routed {Parsed : Type} (parse_dcc_ctcp : string -> option Parsed)
    dcc_manager msg line :
  (command msg <> "PRIVMSG" /\ command msg <> "NOTICE")
  \/ starts_with_soh (default EmptyString (trailing msg)) && ends_with_soh (default EmptyString (trailing msg))
     = false ->
  deliver parse_dcc_ctcp dcc_manager (Some msg) line = ROUTED line.
Proof.
  intros H. unfold deliver, handle_server_message.
  destruct H as [[H1 H2]|H].
  - rewrite !bool_decide_eq_false_2 by done. done.
  - rewrite H. by destruct (_ || _).
Qed.

(** C3, counterexample. DCC is disabled and a DCC SEND offer arrives in a
    PRIVMSG: the specification sends the line to the router as normal
    text; the client hands it to the DCC manager, which ignores it, and
    the router never sees it. *)
Lemma dcc_disabled_offer_not_routed :
  spec_goes_to_router (enabled (dcc_config (manager_with false)))
    "DCC SEND file.txt 3232235777 5000 10" = true
  /\ deliver (fun p => Some p) (Some (manager_with false)) (Some dcc_send_offer) "raw line"
     = DROPPED_DCC_DISABLED
  /\ deliver (fun p => Some p) (Some (manager_with false)) (Some dcc_send_offer) "raw line"
     <> ROUTED "raw line".
Proof.
  split; [reflexivity|]. split; [reflexivity|]. vm_compute. discriminate.
Qed.

End InboundFacts.

(** ** Switching the active context *)

Module SwitchFacts.
Import ClientLogic.

Section SortFacts.
Context {A : Type} (leb : A -> A -> bool).
Hypothesis leb_total : forall a b, leb a b = true \/ leb b a = true.

Lemma insert_sorted_perm x l : Permutation (Py.insert_sorted leb x l) (x :: l).
Proof.
  induction l as [|y l IH]; simpl; [done|].
  destruct (leb x y); [done|].
  rewrite IH. apply perm_swap.
Qed.

Lemma sort_perm l : Permutation (Py.sort leb l) l.
Proof.
  induction l as [|x l IH]; simpl; [done|].
  unfold Py.sort in *. simpl. rewrite insert_sorted_perm. by constructor.
Qed.

Lemma insert_sorted_hdrel a x l :
  leb a x = true -> HdRel (fun u v => leb u v = true) a l ->
  HdRel (fun u v => leb u v = true) a (Py.insert_sorted leb x l).
Proof.
  intros Hax Hal. destruct l as [|y l]; simpl; [by constructor|].
  destruct (leb x y); constructor; [done|]. by inversion Hal.
Qed.

Lemma insert_sorted_sorted x l :
  Sorted (fun u v => leb u v = true) l ->
  Sorted (fun u v => leb u v = true) (Py.insert_sorted leb x l).
Proof.
  induction 1 as [|y l Hs IH Hhd]; simpl; [by repeat constructor|].
  destruct (leb x y) eqn:E.
  - constructor; [by constructor|]. by constructor.
  - constructor; [exact IH|].
    apply insert_sorted_hdrel; [|done].
    destruct (leb_total x y) as [H|H]; [congruence|done].
Qed.

Lemma sort_sorted l : Sorted (fun u v => leb u v = true) (Py.sort leb l).
Proof.
  induction l as [|x l IH]; [constructor|].
  unfold Py.sort in *. simpl. by apply insert_sorted_sorted.
Qed.

End SortFacts.

(** The cycle order: Status first if there is a Status context, DCC last
    if there is a DCC context, and the other contexts between them, in
    the order of their lower-cased names. *)
Lemma cycle_order context_names :
  sorted_context_names context_names
  = ((if bool_decide ("Status" ∈ context_names) then ["Status"] else [])
     ++ Py.sort_by_lower (regular_contexts context_names)
     ++ (if bool_decide ("DCC" ∈ context_names) then ["DCC"] else []))%list
  /\ Sorted lower_le (Py.sort_by_lower (regular_contexts context_names))
  /\ Permutation (Py.sort_by_lower (regular_contexts context_names))
       (regular_contexts context_names).
Proof.
  split; [|split].
  - unfold sorted_context_names. fold (regular_contexts context_names).
    set (reg := Py.sort_by_lower (regular_contexts context_names)).
    assert (Hnd : "DCC" ∉ ((if bool_decide ("Status" ∈ context_names)
                             then ["Status"] else []) ++ reg)%list).
    { intros Hin. apply elem_of_app in Hin as [Hin|Hin].
      - case_bool_decide; [|by apply elem_of_nil in Hin].
        apply list_elem_of_singleton in Hin. discriminate.
      - unfold reg, Py.sort_by_lower in Hin. rewrite sort_perm in Hin.
        apply list_elem_of_filter in Hin as [Hn _]. apply Hn.
        apply elem_of_cons. right. by apply list_elem_of_singleton. }
    rewrite (bool_decide_eq_false_2 _ Hnd). simpl negb. rewrite andb_true_r.
    destruct (bool_decide ("Status" ∈ context_names));
      destruct (bool_decide ("DCC" ∈ context_names));
      simpl; rewrite ?app_nil_r, <- ?app_assoc; done.
  - apply (sort_sorted (fun a b => String.leb (Py.lower a) (Py.lower b))).
    intros a b. apply String.leb_total.
  - apply sort_perm.
Qed.

Lemma prefix_refl s : String.prefix s s = true.
Proof. induction s as [|a s IH]; simpl; [done|]. by destruct (ascii_dec a a). Qed.

Lemma contains_refl s : Py.contains s s = true.
Proof. destruct s; simpl; [done|]. rewrite prefix_refl. by destruct (ascii_dec a a). Qed.

(** A case-insensitive exact match is a substring match: the branch of
    [switch_active_context] that looks for the former runs only when
    there is none of the latter, and so never finds one. *)
Lemma exact_match_among_substring_matches (sorted : list string) (direction n : string) :
  n ∈ filter (fun n => Py.lower direction = Py.lower n) sorted ->
  n ∈ filter (fun n => Py.contains (Py.lower n) (Py.lower direction) = true) sorted.
Proof.
  rewrite !list_elem_of_filter. intros [Heq Hin]. split; [|done].
  rewrite Heq. apply contains_refl.
Qed.

(** An argument that is not a number and has several substring matches
    is reported as ambiguous, whatever else it matches. *)
Lemma ambiguous_is_an_error (sorted : list string) direction current a b rest :
  Py.int direction = None ->
  filter (fun n => Py.contains (Py.lower n) (Py.lower direction) = true) sorted
    = a :: b :: rest ->
  exists message, resolve_name sorted direction current = SWITCH_ERROR message current.
Proof. intros Hi Hf. unfold resolve_name. rewrite Hi, Hf. eauto. Qed.

(** After the exact-name test, a number in range selects the context at
    that 1-based place of the cycle, whatever its name matches. *)
Lemma resolve_by_index (sorted : list string) direction current n :
  Py.int direction = Some n ->
  (1 <= n <= Z.of_nat (length sorted))%Z ->
  resolve_name sorted direction current = SWITCH_TO (item sorted (n - 1)).
Proof.
  intros Hi Hn. unfold resolve_name. rewrite Hi.
  destruct (0 <=? n - 1)%Z eqn:E1; [|apply Z.leb_gt in E1; lia].
  destruct (n - 1 <? Z.of_nat (length sorted))%Z eqn:E2; [done|].
  apply Z.ltb_ge in E2. lia.
Qed.

(** An argument that is not a number and is a substring, up to case, of
    exactly one context name selects that context. *)
Lemma resolve_by_unique_substring (sorted : list string) direction current one :
  Py.int direction = None ->
  filter (fun n => Py.contains (Py.lower n) (Py.lower direction) = true) sorted = [one] ->
  resolve_name sorted direction current = SWITCH_TO one.
Proof. intros Hi Hf. unfold resolve_name. by rewrite Hi, Hf. Qed.

(** An argument that is not a number and is a substring of no context
    name is not found: the case-insensitive exact match has nothing left
    to find. *)
Lemma resolve_without_substring_match (sorted : list string) direction current :
  Py.int direction = None ->
  filter (fun n => Py.contains (Py.lower n) (Py.lower direction) = true) sorted = [] ->
  resolve_name sorted direction current
  = SWITCH_ERROR ("Window '" +:+ direction +:+ "' not found.") current.
Proof.
  intros Hi Hf. unfold resolve_name. rewrite Hi, Hf.
  destruct (filter (fun n => Py.lower direction = Py.lower n) sorted) as [|a r] eqn:E;
    [done|].
  assert (Ha : a ∈ filter (fun n => Py.lower direction = Py.lower n) sorted)
    by (rewrite E; left).
  apply exact_match_among_substring_matches in Ha. rewrite Hf in Ha.
  by apply elem_of_nil in Ha.
Qed.

(** C4, at the failing input. The contexts are [Status], [#chan] and
    [#channel]; the argument [#CHAN] is not a context name, not a number,
    and equals exactly one context name, [#chan], up to case. It is a
    substring of two context names up to case, and the switch ends with
    the ambiguity error: the exact match does not win. *)
Theorem case_insensitive_exact_match_loses_to_ambiguity :
  filter (fun n => Py.lower "#CHAN" = Py.lower n)
    (sorted_context_names ["Status"; "#chan"; "#channel"]) = ["#chan"]
  /\ switch_active_context ["Status"; "#chan"; "#channel"] (Some "Status") "#CHAN"
     = SWITCH_ERROR "Ambiguous window name '#CHAN'. Matches: #chan, #channel" "Status".
Proof. split; vm_compute; reflexivity. Qed.

End SwitchFacts.

(** ** Cleanup of finished transfers *)

Module CleanupFacts.
Import DCC.

Lemma Qgtb_lt a b : Qgtb a b = true <-> (b < a)%Q.
Proof.
  unfold Qgtb. rewrite negb_true_iff. split.
  - intros H. apply Qnot_le_lt. intros Hle. apply Qle_bool_iff in Hle. congruence.
  - intros H. destruct (Qle_bool a b) eqn:E; [|done].
    apply Qle_bool_iff in E. exfalso. by apply (Qlt_not_le b a).
Qed.

(** The test of the source says what the specification says. *)
Lemma marked_iff_eligible now max_age t :
  marked_for_cleanup now max_age t = true <-> eligible_for_cleanup now max_age t.
Proof.
  unfold marked_for_cleanup, eligible_for_cleanup, end_time_older_than, old_enough,
    terminal_statuses.
  rewrite andb_true_iff, bool_decide_eq_true.
  split; intros [Hs He]; (split; [exact Hs|]).
  - destruct (end_time t) as [e|]; [|done].
    apply andb_true_iff in He as [Hz Ho]. exists e. split; [done|]. split.
    + intros Hq. apply Qeq_bool_iff in Hq. rewrite Hq in Hz. done.
    + by apply Qgtb_lt.
  - destruct He as (e & -> & Hz & Ho). apply andb_true_iff. split.
    + apply negb_true_iff. destruct (Qeq_bool e 0) eqn:E; [|done].
      apply Qeq_bool_iff in E. done.
    + by apply Qgtb_lt.
Qed.

(** The deleting loop: the marked ids are gone, the rest is as it was. *)
Lemma remove_marked_lookup ids : forall (acc : gmap string DCCTransfer * Z) k,
  (foldl (fun acc tid =>
            match acc.1 !! tid with
            | Some _ => (delete tid acc.1, acc.2 + 1)%Z
            | None => acc
            end) acc ids).1 !! k
  = if bool_decide (k ∈ ids) then None else acc.1 !! k.
Proof.
  induction ids as [|i ids IH]; intros acc k; cbn [foldl].
  - rewrite bool_decide_eq_false_2; [done|]. apply not_elem_of_nil.
  - rewrite IH.
    destruct (decide (k ∈ ids)) as [Hin|Hnin].
    + rewrite !bool_decide_eq_true_2; [done| |done]. by right.
    + rewrite (bool_decide_eq_false_2 _ Hnin).
      destruct (decide (k = i)) as [->|Hne].
      * rewrite bool_decide_eq_true_2 by left.
        destruct (acc.1 !! i) eqn:E; simpl; [apply lookup_delete_eq|done].
      * rewrite bool_decide_eq_false_2.
        2:{ intros H. apply elem_of_cons in H as [H|H]; done. }
        destruct (acc.1 !! i) eqn:E; simpl; [by apply lookup_delete_ne|done].
Qed.

Lemma marked_ids_spec (tr : gmap string DCCTransfer) now max_age k :
  k ∈ (filter (fun kv => marked_for_cleanup now max_age kv.2 = true) (map_to_list tr)).*1
  <-> exists t, tr !! k = Some t /\ marked_for_cleanup now max_age t = true.
Proof.
  rewrite list_elem_of_fmap. split.
  - intros ([k' t] & -> & Hin). apply list_elem_of_filter in Hin as [Hm Hin].
    apply elem_of_map_to_list in Hin. eauto.
  - intros (t & Hl & Hm). exists (k, t). split; [done|].
    apply list_elem_of_filter. split; [done|]. by apply elem_of_map_to_list.
Qed.

(** What a lookup in the transfer table sees after a cleanup pass. *)
Lemma cleanup_lookup m now k :
  cleanup_enabled (dcc_config m) = true ->
  transfers (_cleanup_finished_transfers m now) !! k
  = match transfers m !! k with
    | Some t =>
        if marked_for_cleanup now (transfer_max_age_seconds (dcc_config m)) t
        then None else Some t
    | None => None
    end.
Proof.
  intros Hen. unfold _cleanup_finished_transfers. rewrite Hen. simpl negb. cbv iota.
  set (ids := (filter _ (map_to_list (transfers m))).*1).
  pose proof (remove_marked_lookup ids (transfers m, 0%Z) k) as Hl.
  fold (remove_marked (transfers m) ids) in Hl.
  destruct (remove_marked (transfers m) ids) as [tr n] eqn:Er. simpl in Hl.
  assert (Ht : transfers (if (0 <? n)%Z
      then emit UI_NEEDS_UPDATE
             (emit (ADD_MESSAGE ("DCC: Cleaned up " +:+ Py.str_of_Z n +:+ " old transfer(s).")
                      "debug" "DCC") (with_transfers tr m))
      else with_transfers tr m) = tr) by (by destruct (0 <? n)%Z).
  rewrite Ht, Hl.
  destruct (decide (k ∈ ids)) as [Hin|Hnin].
  - rewrite bool_decide_eq_true_2 by done.
    apply marked_ids_spec in Hin as (t & -> & ->). done.
  - rewrite bool_decide_eq_false_2 by done.
    destruct (transfers m !! k) as [t|] eqn:E; [|done].
    destruct (marked_for_cleanup _ _ t) eqn:Em; [|done].
    exfalso. apply Hnin. apply marked_ids_spec. eauto.
Qed.

(** C6. A run of the cleanup pass (cleanup is enabled) at clock reading
    [now] removes from the transfer table exactly the transfers that are
    in a terminal state with an end time that is set and older than
    [transfer_max_age_seconds]; every other transfer stays in the table
    as it was, and nothing is added. *)
Theorem cleanup_removes_exactly_the_eligible m now :
  cleanup_enabled (dcc_config m) = true ->
  (forall tid t, transfers m !! tid = Some t ->
     eligible_for_cleanup now (transfer_max_age_seconds (dcc_config m)) t ->
     transfers (_cleanup_finished_transfers m now) !! tid = None)
  /\ (forall tid t, transfers m !! tid = Some t ->
        ~ eligible_for_cleanup now (transfer_max_age_seconds (dcc_config m)) t ->
        transfers (_cleanup_finished_transfers m now) !! tid = Some t)
  /\ (forall tid, transfers m !! tid = None ->
        transfers (_cleanup_finished_transfers m now) !! tid = None).
Proof.
  intros Hen. split; [|split]; intros tid.
  - intros t Ht He. rewrite cleanup_lookup, Ht by done.
    apply marked_iff_eligible in He. by rewrite He.
  - intros t Ht He. rewrite cleanup_lookup, Ht by done.
    destruct (marked_for_cleanup _ _ t) eqn:Em; [|done].
    exfalso. apply He. by apply marked_iff_eligible.
  - intros Ht. by rewrite cleanup_lookup, Ht.
Qed.

(** With cleanup disabled the pass is skipped: nothing changes. *)
Lemma cleanup_disabled_is_skipped m now :
  cleanup_enabled (dcc_config m) = false -> _cleanup_finished_transfers m now = m.
Proof. intros H. unfold _cleanup_finished_transfers. by rewrite H. Qed.

(** C6, witness: of the four example transfers, the pass at clock reading
    1000 removes the failed one that ended at 500 and keeps the other
    three as they were. *)
Lemma cleanup_removes_exactly_the_eligible_witness :
  transfers (_cleanup_finished_transfers example_manager (1000 # 1)) !! "a1" = None
  /\ transfers (_cleanup_finished_transfers example_manager (1000 # 1)) !! "b2"
     = example_transfers !! "b2"
  /\ transfers (_cleanup_finished_transfers example_manager (1000 # 1)) !! "c3"
     = example_transfers !! "c3"
  /\ transfers (_cleanup_finished_transfers example_manager (1000 # 1)) !! "d4"
     = example_transfers !! "d4".
Proof.
  destruct (cleanup_removes_exactly_the_eligible example_manager (1000 # 1) eq_refl)
    as (Hrm & Hkeep & _).
  split; [|split; [|split]].
  - eapply Hrm; [reflexivity|]. apply marked_iff_eligible. reflexivity.
  - erewrite Hkeep; [reflexivity|reflexivity|].
    intros H. apply marked_iff_eligible in H. discriminate H.
  - erewrite Hkeep; [reflexivity|reflexivity|].
    intros H. apply marked_iff_eligible in H. discriminate H.
  - erewrite Hkeep; [reflexivity|reflexivity|].
    intros H. apply marked_iff_eligible in H. discriminate H.
Defined.

End CleanupFacts.

(** ** Resuming a failed send *)

Module ResumeFacts.
Import DCC.

(** A filter that keeps one element, on a list without duplicates. *)
Lemma filter_singleton {A} (P : A -> Prop) `{!forall x, Decision (P x)} (l : list A) x :
  NoDup l ->
  filter P l = [x] <-> x ∈ l /\ P x /\ forall y, y ∈ l -> P y -> y = x.
Proof.
  intros Hnd. split.
  - intros Hf.
    assert (Hx : x ∈ filter P l) by (rewrite Hf; left).
    apply list_elem_of_filter in Hx as [HP Hin]. split; [done|]. split; [done|].
    intros y Hy HPy.
    assert (Hyf : y ∈ filter P l) by (apply list_elem_of_filter; done).
    rewrite Hf in Hyf. by apply list_elem_of_singleton in Hyf.
  - intros (Hin & HP & Huniq).
    pose proof (NoDup_filter P l Hnd) as Hndf.
    assert (Hall : forall y, y ∈ filter P l -> y = x).
    { intros y Hy. apply list_elem_of_filter in Hy as [? ?]. by apply Huniq. }
    assert (Hx : x ∈ filter P l) by (apply list_elem_of_filter; done).
    destruct (filter P l) as [|a [|b r]].
    + by apply elem_of_nil in Hx.
    + f_equal. apply Hall. left.
    + exfalso. assert (a = x) by (apply Hall; left).
      assert (b = x) by (apply Hall; right; left). subst.
      apply NoDup_cons in Hndf as [Hn _]. apply Hn. left.
Qed.

Lemma filter_nil_iff {A} (P : A -> Prop) `{!forall x, Decision (P x)} (l : list A) :
  filter P l = [] <-> forall y, y ∈ l -> ~ P y.
Proof.
  split.
  - intros Hf y Hy HP.
    assert (Hyf : y ∈ filter P l) by (apply list_elem_of_filter; done).
    rewrite Hf in Hyf. by apply elem_of_nil in Hyf.
  - intros Hno. destruct (filter P l) as [|a r] eqn:E; [done|].
    assert (Ha : a ∈ filter P l) by (rewrite E; left).
    apply list_elem_of_filter in Ha as [HP Hin]. by destruct (Hno a Hin).
Qed.

Lemma matches_by_id_iff identifier tid t :
  matches_by_id identifier (tid, t) = true <-> id_match identifier tid t.
Proof.
  unfold matches_by_id, id_match, is_send. simpl.
  rewrite andb_true_iff, bool_decide_eq_true. done.
Qed.

Lemma matches_by_filename_iff identifier tid t :
  matches_by_filename identifier (tid, t) = true <-> filename_match identifier t.
Proof.
  unfold matches_by_filename, filename_match, is_send. simpl.
  rewrite andb_true_iff, !bool_decide_eq_true. done.
Qed.

(** The checks on the transfer found. *)
Lemma resume_found_iff t p l f s pass :
  resume_found t = EXECUTE_SEND_OPERATION p l f s pass
  <-> status t ∈ [FAILED; CANCELLED; TIMED_OUT]
      /\ (0 < bytes_transferred t)%Z /\ (bytes_transferred t < filesize t)%Z
      /\ p = peer_nick t /\ l = local_filepath t /\ f = original_filename t
      /\ s = filesize t /\ pass = false.
Proof.
  unfold resume_found, resumable_statuses.
  case_bool_decide as Hs; simpl.
  - destruct (0 <? bytes_transferred t)%Z eqn:E1; simpl.
    + destruct (bytes_transferred t <? filesize t)%Z eqn:E2; simpl.
      * apply Z.ltb_lt in E1, E2. split.
        -- intros H. injection H as <- <- <- <- <-. done.
        -- intros (_ & _ & _ & -> & -> & -> & -> & ->). done.
      * apply Z.ltb_ge in E2. split; [done|]. intros (_ & _ & ? & _). lia.
    + apply Z.ltb_ge in E1. split; [done|]. intros (_ & ? & _). lia.
  - split; [done|]. intros (? & _). done.
Qed.

(** The lookup by id prefix and then by file name finds [t] exactly when
    the identifier resolves to [t]. *)
Lemma lookup_resolves m identifier t :
  resolves_to m identifier t <->
  (exists tid, filter (fun kv => matches_by_id identifier kv = true)
                 (map_to_list (transfers m)) = [(tid, t)])
  \/ (filter (fun kv => matches_by_id identifier kv = true) (map_to_list (transfers m)) = []
      /\ exists tid, filter (fun kv => matches_by_filename identifier kv = true)
                       (map_to_list (transfers m)) = [(tid, t)]).
Proof.
  pose proof (NoDup_map_to_list (transfers m)) as Hnd.
  assert (Hid : forall tid,
    (transfers m !! tid = Some t /\ id_match identifier tid t
     /\ forall tid' t', transfers m !! tid' = Some t' -> id_match identifier tid' t' ->
                        tid' = tid)
    <-> filter (fun kv => matches_by_id identifier kv = true)
          (map_to_list (transfers m)) = [(tid, t)]).
  { intros tid. rewrite (filter_singleton _ _ _ Hnd).
    rewrite elem_of_map_to_list, matches_by_id_iff.
    split; intros (H1 & H2 & H3); (split; [done|]); (split; [done|]).
    - intros [tid' t'] Hin Hm. apply elem_of_map_to_list in Hin.
      apply matches_by_id_iff in Hm. assert (tid' = tid) as -> by eauto.
      f_equal. congruence.
    - intros tid' t' Hl Hm.
      assert ((tid', t') = (tid, t)) as Heq; [|by injection Heq].
      apply H3; [by apply elem_of_map_to_list|by apply matches_by_id_iff]. }
  assert (Hnone :
    (forall tid' t', transfers m !! tid' = Some t' -> ~ id_match identifier tid' t')
    <-> filter (fun kv => matches_by_id identifier kv = true)
          (map_to_list (transfers m)) = []).
  { rewrite filter_nil_iff. split.
    - intros Hno [tid' t'] Hin Hm. apply elem_of_map_to_list in Hin.
      apply matches_by_id_iff in Hm. by eapply Hno.
    - intros Hno tid' t' Hl Hm. apply (Hno (tid', t')).
      + by apply elem_of_map_to_list.
      + by apply matches_by_id_iff. }
  assert (Hname : forall tid,
    (transfers m !! tid = Some t /\ filename_match identifier t
     /\ forall tid' t', transfers m !! tid' = Some t' -> filename_match identifier t' ->
                        tid' = tid)
    <-> filter (fun kv => matches_by_filename identifier kv = true)
          (map_to_list (transfers m)) = [(tid, t)]).
  { intros tid. rewrite (filter_singleton _ _ _ Hnd).
    rewrite elem_of_map_to_list, matches_by_filename_iff.
    split; intros (H1 & H2 & H3); (split; [done|]); (split; [done|]).
    - intros [tid' t'] Hin Hm. apply elem_of_map_to_list in Hin.
      apply matches_by_filename_iff in Hm. assert (tid' = tid) as -> by eauto.
      f_equal. congruence.
    - intros tid' t' Hl Hm.
      assert ((tid', t') = (tid, t)) as Heq; [|by injection Heq].
      apply H3; [by apply elem_of_map_to_list|by eapply matches_by_filename_iff]. }
  unfold resolves_to. rewrite Hnone.
  split.
  - intros [(tid & H)|(H0 & tid & H)].
    + left. exists tid. by apply Hid.
    + right. split; [done|]. exists tid. by apply Hname.
  - intros [(tid & H)|(H0 & tid & H)].
    + left. exists tid. by apply Hid.
    + right. split; [done|]. exists tid. by apply Hname.
Qed.

(** The result is the call that starts a new send exactly under the
    conditions of a resume. *)
Lemma attempt_user_resume_iff m identifier p l f s pass :
  attempt_user_resume m identifier = EXECUTE_SEND_OPERATION p l f s pass
  <-> exists t, resumable m identifier t
                /\ p = peer_nick t /\ l = local_filepath t /\ f = original_filename t
                /\ s = filesize t /\ pass = false.
Proof.
  unfold attempt_user_resume, resumable.
  destruct (enabled (dcc_config m)); simpl.
  2:{ split; [done|]. intros (t & (? & _) & _). done. }
  destruct (resume_enabled (dcc_config m)); simpl.
  2:{ split; [done|]. intros (t & (_ & ? & _) & _). done. }
  split.
  - intros H.
    destruct (filter (fun kv => matches_by_id identifier kv = true)
                (map_to_list (transfers m))) as [|[tid t] [|? ?]] eqn:Eid; [| |done].
    + destruct (filter (fun kv => matches_by_filename identifier kv = true)
                  (map_to_list (transfers m))) as [|[tid t] [|? ?]] eqn:En; [done| |done].
      simpl in H. apply resume_found_iff in H as (Hs & H1 & H2 & Hrest).
      exists t. split; [|done]. do 2 (split; [done|]). split; [|done].
      apply lookup_resolves. right. split; [done|]. by exists tid.
    + simpl in H. apply resume_found_iff in H as (Hs & H1 & H2 & Hrest).
      exists t. split; [|done]. do 2 (split; [done|]). split; [|done].
      apply lookup_resolves. left. by exists tid.
  - intros (t & (_ & _ & Hres & Hs & H1 & H2) & Hrest).
    apply lookup_resolves in Hres as [(tid & ->)|(-> & tid & ->)]; simpl;
      by apply resume_found_iff.
Qed.

(** C7. [attempt_user_resume] returns an error, and starts no send,
    unless DCC and resume are enabled, the identifier matches exactly one
    outgoing SEND transfer (by id prefix, or by file name up to case when
    no id matches; several matches in the lookup that decides are an
    error), the status of that transfer is FAILED, CANCELLED or TIMED_OUT
    and its [bytes_transferred] lies strictly between 0 and its file
    size. When all of that holds for a transfer, the result is the call
    that starts a new active send of the file of that transfer to its
    peer. *)
Theorem attempt_user_resume_requires_resumable m identifier :
  (forall t, resumable m identifier t ->
     attempt_user_resume m identifier
     = EXECUTE_SEND_OPERATION (peer_nick t) (local_filepath t) (original_filename t)
         (filesize t) false)
  /\ ((forall t, ~ resumable m identifier t) ->
        exists error, attempt_user_resume m identifier = RESUME_ERROR error)
  /\ (forall p l f s pass,
        attempt_user_resume m identifier = EXECUTE_SEND_OPERATION p l f s pass ->
        exists t, resumable m identifier t
                  /\ p = peer_nick t /\ l = local_filepath t /\ f = original_filename t
                  /\ s = filesize t /\ pass = false).
Proof.
  split; [|split].
  - intros t Hr. apply attempt_user_resume_iff. exists t. done.
  - intros Hno.
    destruct (attempt_user_resume m identifier) as [e|p l f s pass] eqn:E; [by exists e|].
    apply attempt_user_resume_iff in E as (t & Hr & _). by destruct (Hno t).
  - intros p l f s pass H. by apply attempt_user_resume_iff.
Qed.

(** C7, witness: the send that was cut at 500000 of 1000000 bytes is
    found by its file name, in any case, and started again. *)
Lemma attempt_user_resume_requires_resumable_witness :
  attempt_user_resume example_manager "MOVIE.mkv"
  = EXECUTE_SEND_OPERATION "alice" "/up/movie.mkv" "movie.mkv" 1000000 false.
Proof.
  destruct (attempt_user_resume_requires_resumable example_manager "MOVIE.mkv")
    as (Hgo & _ & _).
  apply (Hgo (example_transfer "a1" SEND "movie.mkv" 1000000 500000 FAILED (Some (500 # 1)))).
  split; [reflexivity|]. split; [reflexivity|]. split.
  - apply lookup_resolves. right. split; [vm_compute; reflexivity|].
    exists "a1". vm_compute. reflexivity.
  - split; [|done]. apply elem_of_cons. by left.
Defined.

Example resume_by_id_prefix :
  attempt_user_resume example_manager "a"
  = EXECUTE_SEND_OPERATION "alice" "/up/movie.mkv" "movie.mkv" 1000000 false.
Proof. vm_compute. reflexivity. Qed.

(** The empty identifier is a prefix of every id: ambiguous. *)
Example resume_ambiguous_prefix :
  attempt_user_resume example_manager EmptyString
  = RESUME_ERROR "Ambiguous transfer ID prefix ''. Be more specific.".
Proof. vm_compute. reflexivity. Qed.

End ResumeFacts.

(** ** The listening socket and the configured port range *)

Module PortFacts.
Import DCC.

(** The search over the ports [start, start + n): what each result says
    about the attempts. *)
Lemma try_ports_seqZ bind (n : nat) : forall start s_assigned,
  match try_ports bind s_assigned (seqZ start (Z.of_nat n)) with
  | LISTENING p =>
      (start <= p < start + Z.of_nat n)%Z /\ bind p = BOUND
      /\ forall q, (start <= q < p)%Z -> bind q <> BOUND
  | NO_PORT => forall q, (start <= q < start + Z.of_nat n)%Z -> bind q <> BOUND
  | UNBOUND_LOCAL_ERROR =>
      s_assigned = false
      /\ exists p, (start <= p < start + Z.of_nat n)%Z
           /\ ((exists e, bind p = SOCKET_ERROR false e) \/ bind p = OTHER_EXCEPTION false)
  end.
Proof.
  induction n as [|n IH]; intros start s_assigned.
  - simpl. intros q Hq. lia.
  - rewrite seqZ_cons by lia.
    replace (Z.pred (Z.of_nat (S n))) with (Z.of_nat n) by lia.
    cbn [try_ports].
    assert (Hstep : forall s',
      match try_ports bind s' (seqZ (Z.succ start) (Z.of_nat n)) with
      | LISTENING p =>
          (start <= p < start + Z.of_nat (S n))%Z /\ bind p = BOUND
          /\ forall q, (start <= q < p)%Z -> bind start <> BOUND -> bind q <> BOUND
      | NO_PORT => forall q, (start <= q < start + Z.of_nat (S n))%Z ->
                             bind start <> BOUND -> bind q <> BOUND
      | UNBOUND_LOCAL_ERROR =>
          s' = false
          /\ exists p, (start <= p < start + Z.of_nat (S n))%Z
               /\ ((exists e, bind p = SOCKET_ERROR false e) \/ bind p = OTHER_EXCEPTION false)
      end).
    { intros s'. specialize (IH (Z.succ start) s').
      destruct (try_ports bind s' (seqZ (Z.succ start) (Z.of_nat n))) as [p| |].
      - destruct IH as (Hr & Hb & Hfirst). split; [lia|]. split; [done|].
        intros q Hq Hs. destruct (decide (q = start)) as [->|Hne]; [done|].
        apply Hfirst. lia.
      - intros q Hq Hs. destruct (decide (q = start)) as [->|Hne]; [done|].
        apply IH. lia.
      - destruct IH as (Hs & p & Hp & Hb). split; [done|]. exists p. split; [lia|done]. }
    destruct (bind start) as [|created e|created] eqn:Eb.
    + split; [lia|]. split; [done|]. intros q Hq. lia.
    + destruct (s_assigned || created) eqn:Es.
      * specialize (Hstep true).
        destruct (try_ports bind true _) as [p| |].
        -- destruct Hstep as (H1 & H2 & H3). split; [done|]. split; [done|].
           intros q Hq. by apply H3.
        -- intros q Hq. by apply Hstep.
        -- by destruct Hstep.
      * apply orb_false_iff in Es as [-> ->]. split; [done|].
        exists start. split; [lia|]. left. by exists e.
    + destruct (s_assigned || created) eqn:Es.
      * specialize (Hstep true).
        destruct (try_ports bind true _) as [p| |].
        -- destruct Hstep as (H1 & H2 & H3). split; [done|]. split; [done|].
           intros q Hq. by apply H3.
        -- intros q Hq. by apply Hstep.
        -- by destruct Hstep.
      * apply orb_false_iff in Es as [-> ->]. split; [done|].
        exists start. split; [lia|]. by right.
Qed.

(** Attempts that all fail after the socket was made exhaust the list. *)
Lemma try_ports_exhausted bind ports : forall s_assigned,
  (forall p, p ∈ ports -> exists e, bind p = SOCKET_ERROR true e) ->
  try_ports bind s_assigned ports = NO_PORT.
Proof.
  induction ports as [|p ports IH]; intros s_assigned Hall; [done|].
  simpl. destruct (Hall p) as [e ->]; [left|].
  rewrite orb_true_r. apply IH. intros q Hq. apply Hall. by right.
Qed.

(** C10. With [port_range_start] greater than [port_range_end], the
    search for a listening socket runs over the ports 1024 to 65535 in
    order: it returns the first port that binds; it returns [None], with
    the one message that no port in 1024-65535 is available, only when no
    port of that range binds, and it does so whenever every attempt in
    that range fails at [bind] or [listen]; nothing about the
    configuration is reported, and the only exception that can leave the
    search is the one of a port whose [socket()] call itself failed. *)
Theorem inverted_port_range_searches_default_range m bind :
  (port_range_end (dcc_config m) < port_range_start (dcc_config m))%Z ->
  (_get_listening_socket m bind).2 = try_ports bind false (ports_to_try 1024 65535)
  /\ (forall p, (_get_listening_socket m bind).2 = LISTENING p ->
        (1024 <= p <= 65535)%Z /\ bind p = BOUND
        /\ (forall q, (1024 <= q < p)%Z -> bind q <> BOUND)
        /\ (_get_listening_socket m bind).1 = m)
  /\ ((_get_listening_socket m bind).2 = NO_PORT ->
        (forall p, (1024 <= p <= 65535)%Z -> bind p <> BOUND)
        /\ (_get_listening_socket m bind).1
           = emit (ADD_MESSAGE "Error: No available DCC ports in range 1024-65535."
                     "error" "DCC") m)
  /\ ((forall p, (1024 <= p <= 65535)%Z -> exists e, bind p = SOCKET_ERROR true e) ->
        (_get_listening_socket m bind).2 = NO_PORT)
  /\ ((_get_listening_socket m bind).2 = UNBOUND_LOCAL_ERROR ->
        (_get_listening_socket m bind).1 = m
        /\ exists p, (1024 <= p <= 65535)%Z
             /\ ((exists e, bind p = SOCKET_ERROR false e) \/ bind p = OTHER_EXCEPTION false)).
Proof.
  intros Hinv.
  pose proof (try_ports_seqZ bind (Z.to_nat 64512) 1024 false) as Hs.
  assert (Hlen : Z.of_nat (Z.to_nat 64512) = 64512%Z) by (apply Z2Nat.id; lia).
  rewrite Hlen in Hs.
  assert (Hports : seqZ 1024 64512 = ports_to_try 1024 65535) by reflexivity.
  rewrite Hports in Hs.
  assert (Hall : (forall p, (1024 <= p <= 65535)%Z -> exists e, bind p = SOCKET_ERROR true e) ->
                 try_ports bind false (ports_to_try 1024 65535) = NO_PORT).
  { intros H. apply try_ports_exhausted. intros p Hp. apply H.
    rewrite <- Hports in Hp. apply elem_of_seqZ in Hp. lia. }
  assert (Hmsg : "Error: No available DCC ports in range " +:+ Py.str_of_Z 1024 +:+ "-"
                   +:+ Py.str_of_Z 65535 +:+ "."
                 = "Error: No available DCC ports in range 1024-65535.")
    by (vm_compute; reflexivity).
  unfold _get_listening_socket, effective_port_range.
  apply Z.ltb_lt in Hinv. rewrite Hinv. cbv beta iota zeta. rewrite Hmsg.
  clear Hports Hlen Hmsg.
  generalize dependent (try_ports bind false (ports_to_try 1024 65535)).
  intros r Hs Hall. destruct r as [p| |]; cbn [fst snd].
  - destruct Hs as (Hr & Hb & Hfirst).
    split; [reflexivity|]. split.
    { intros p' Hp'. injection Hp' as <-. split; [lia|]. split; [exact Hb|].
      split; [exact Hfirst|reflexivity]. }
    split; [discriminate|]. split; [|discriminate].
    intros H. specialize (Hall H). discriminate Hall.
  - split; [reflexivity|]. split; [discriminate|]. split; [|split; [reflexivity|discriminate]].
    intros _. split; [|reflexivity]. intros q Hq. apply Hs. lia.
  - destruct Hs as (_ & p & Hp & Hb).
    split; [reflexivity|]. split; [discriminate|]. split; [discriminate|]. split.
    { intros H. specialize (Hall H). discriminate Hall. }
    intros _. split; [reflexivity|]. exists p. split; [lia|exact Hb].
Qed.

(** C10, witness: the configured range is 6000-5000; the ports 1024 and
    1025 are in use, 1026 binds. *)
Lemma inverted_port_range_searches_default_range_witness :
  (_get_listening_socket
     (mkDCCManager (mkDCCConfig true true true (100 # 1) 6000 5000 (120 # 1)) ∅ ∅ [])
     (fun p => if (p <? 1026)%Z then SOCKET_ERROR true 98 else BOUND)).2
  = LISTENING 1026.
Proof.
  destruct (inverted_port_range_searches_default_range
              (mkDCCManager (mkDCCConfig true true true (100 # 1) 6000 5000 (120 # 1)) ∅ ∅ [])
              (fun p => if (p <? 1026)%Z then SOCKET_ERROR true 98 else BOUND))
    as (Heq & _); [reflexivity|].
  rewrite Heq. lazy. reflexivity.
Defined.

End PortFacts.

(** ** Accepting a passive offer by its token *)

Module PassiveOfferFacts.
Import DCC.

Lemma listening_socket_frame m bind :
  pending_passive_offers (_get_listening_socket m bind).1 = pending_passive_offers m
  /\ transfers (_get_listening_socket m bind).1 = transfers m
  /\ dcc_config (_get_listening_socket m bind).1 = dcc_config m.
Proof.
  unfold _get_listening_socket.
  destruct (effective_port_range (dcc_config m)) as [a b].
  by destruct (try_ports bind false (ports_to_try a b)).
Qed.

(** A status report changes the status of the transfer it is for, and
    nothing else in the tables. *)
Lemma update_transfer_status_frame m tid st msg :
  pending_passive_offers (update_transfer_status m tid st msg) = pending_passive_offers m
  /\ dcc_config (update_transfer_status m tid st msg) = dcc_config m
  /\ forall k, transfers (update_transfer_status m tid st msg) !! k
               = if bool_decide (k = tid) then with_status st <$> transfers m !! k
                 else transfers m !! k.
Proof.
  unfold update_transfer_status.
  destruct (transfers m !! tid) as [t|] eqn:Et.
  - destruct (nonempty (status_event_name st));
      destruct (bool_decide (st ∈ terminal_statuses) && is_send t); cbn;
      (split; [done|]; split; [done|]; intros k; case_bool_decide as Hk;
       [subst k; by rewrite lookup_insert_eq, Et|by rewrite lookup_insert_ne]).
  - split; [done|]. split; [done|]. intros k. case_bool_decide as Hk; [|done].
    subst k. by rewrite Et.
Qed.

(** A passive receive leaves the offer table alone, and a successful one
    has put a receive of the offered file into the transfer table. *)
Lemma initiate_passive_receive_result env m peer fname size token ip :
  pending_passive_offers (initiate_passive_receive env m peer fname size token ip).1
  = pending_passive_offers m
  /\ forall tid,
       (initiate_passive_receive env m peer fname size token ip).2 = OP_SUCCESS tid ->
       exists t, transfers (initiate_passive_receive env m peer fname size token ip).1 !! tid
                 = Some t
                 /\ transfer_type t = RECEIVE /\ original_filename t = fname
                 /\ filesize t = size /\ peer_nick t = peer /\ peer_ip t = ip.
Proof.
  unfold initiate_passive_receive.
  destruct (enabled (dcc_config m)); simpl; [|done].
  destruct (validate_download_path env fname size) as [path|[err san]]; [|done].
  destruct (listening_socket_frame m (bind_port env)) as (Ho & _ & _).
  destruct (_get_listening_socket m (bind_port env)) as [m1 [port| |]]; simpl in Ho;
    [|done|done].
  destruct (format_dcc_accept_ctcp env fname (local_ip_for_ctcp env) port 0 (Some token));
    simpl; [|done].
  unfold _report_status.
  match goal with
  | |- context [update_transfer_status ?m0 ?tid ?st ?msg] =>
      destruct (update_transfer_status_frame m0 tid st msg) as (Hoffers & _ & Hlookup)
  end.
  split; [by rewrite Hoffers|]. intros tid Htid. injection Htid as <-.
  rewrite Hlookup, bool_decide_eq_true_2 by done. cbn.
  rewrite lookup_insert_eq. cbn. eexists. split; [done|]. done.
Qed.



End PassiveOfferFacts.

(** ** The dispatch depth counter *)

Module DepthFacts.
Import CommandHandler.

Lemma dispatches_log t st :
  dispatches (trace (log t st))
  = (dispatches (trace st) + (if is_dispatch t then 1 else 0))%nat.
Proof.
  unfold dispatches, log. simpl. rewrite filter_app, length_app. f_equal.
  rewrite filter_cons, filter_nil.
  destruct (is_dispatch t) eqn:E; case_decide; simpl; congruence.
Qed.

Lemma process_user_command_step fuel cmds st line :
  process_user_command (S fuel) cmds st line
  = if (1 <? _processing_depth st + 1)%Z
    then Some (RETURNED false, with_depth (_processing_depth st + 1 - 1)
                                 (with_depth (_processing_depth st + 1) st))
    else match dispatch_line (process_user_command fuel cmds) cmds
                 (with_depth (_processing_depth st + 1) st) line with
         | None => None
         | Some (out, st') => Some (out, with_depth (_processing_depth st' - 1) st')
         end.
Proof. reflexivity. Qed.

(** A call made while another one is running comes back with [False]
    at once and leaves the state as it was. *)
Lemma nested_call_returns_false fuel cmds st line :
  (1 <= _processing_depth st)%Z ->
  process_user_command (S fuel) cmds st line = Some (RETURNED false, st).
Proof.
  intros Hd. rewrite process_user_command_step.
  destruct (1 <? _processing_depth st + 1)%Z eqn:E.
  - destruct st as [d a tr]. unfold with_depth. simpl in *. do 3 f_equal. lia.
  - apply Z.ltb_ge in E. lia.
Qed.

(** The steps of a handler that runs at depth 1 or more: they end, the
    depth and the active context are as before, and no dispatch is added
    to the trace. *)
Lemma run_steps_at_depth fuel cmds steps : forall st,
  (1 <= _processing_depth st)%Z ->
  exists out st',
    run_steps (process_user_command (S fuel) cmds) steps st = Some (out, st')
    /\ _processing_depth st' = _processing_depth st
    /\ dispatches (trace st') = dispatches (trace st).
Proof.
  induction steps as [|step steps IH]; intros st Hd.
  - simpl. eauto.
  - destruct step as [label|line|message|]; cbn [run_steps].
    + destruct (IH (log (DID label) st)) as (out & st' & -> & H1 & H2); [done|].
      exists out, st'. split; [done|]. split; [done|].
      rewrite H2, dispatches_log. simpl. lia.
    + rewrite nested_call_returns_false by done.
      destruct (IH (log (NESTED_RETURNED false) st)) as (out & st' & -> & H1 & H2); [done|].
      exists out, st'. split; [done|]. split; [done|].
      rewrite H2, dispatches_log. simpl. lia.
    + eauto.
    + eauto.
Qed.

(** The body of the [try] block, entered at depth 1: it ends, at depth 1,
    with at most one dispatch added. *)
Lemma dispatch_line_at_depth fuel cmds st line :
  (1 <= _processing_depth st)%Z ->
  exists out st',
    dispatch_line (process_user_command (S fuel) cmds) cmds st line = Some (out, st')
    /\ _processing_depth st' = _processing_depth st
    /\ (dispatches (trace st') <= dispatches (trace st) + 1)%nat.
Proof.
  intros Hd. unfold dispatch_line.
  destruct (negb (Py.startswith line "/")).
  - destruct (truthy (active_context_name st)).
    + destruct (run_steps_at_depth fuel cmds (handle_text_input cmds line)
                  (log (TEXT_INPUT line) st)) as (out & st' & -> & H1 & H2); [done|].
      rewrite dispatches_log in H2. simpl in H2.
      destruct out; eexists _, _; (split; [done|]); split; simpl in *; try done; lia.
    + eexists _, _. split; [done|]. split; [done|]. rewrite dispatches_log. simpl. lia.
  - destruct (split_first_space (Py.tail line)) as [c a].
    destruct (command_map cmds !! Py.lower c) as [handler_func|].
    + destruct (run_steps_at_depth fuel cmds (handler_func (default EmptyString a))
                  (log (DISPATCH_COMMAND (Py.lower c) (default EmptyString a)) st))
        as (out & st' & -> & H1 & H2); [done|].
      rewrite dispatches_log in H2. simpl in H2.
      destruct out; cbn [guarded]; eexists _, _; (split; [done|]);
        rewrite ?dispatches_log; split; simpl in *; try done; lia.
    + destruct (script_commands cmds !! Py.lower c) as [script_handler|].
      * destruct (run_steps_at_depth fuel cmds (script_handler (default EmptyString a))
                    (log (DISPATCH_SCRIPT_COMMAND (Py.lower c) (default EmptyString a)) st))
          as (out & st' & -> & H1 & H2); [done|].
        rewrite dispatches_log in H2. simpl in H2.
        destruct out; cbn [guarded]; eexists _, _; (split; [done|]);
          rewrite ?dispatches_log; split; simpl in *; try done; lia.
      * eexists _, _. split; [done|]. split; [done|]. rewrite dispatches_log. simpl. lia.
Qed.

(** C8. A call of [process_user_command] made with the counter at 0 or
    above ends (two levels of recursion are enough), whether by a return
    or by an exception, with the counter at the value it had before the
    call. A nested call, one made while the counter is 1 or above,
    returns [False] and leaves the whole state, the trace of dispatches
    included, as it was; so a call adds at most one dispatch of a
    command, a script command or text input. *)
Theorem process_user_command_restores_depth fuel cmds st line :
  (0 <= _processing_depth st)%Z ->
  exists out st',
    process_user_command (S (S fuel)) cmds st line = Some (out, st')
    /\ _processing_depth st' = _processing_depth st
    /\ ((1 <= _processing_depth st)%Z -> out = RETURNED false /\ st' = st)
    /\ (dispatches (trace st') <= dispatches (trace st) + 1)%nat.
Proof.
  intros Hd.
  destruct (decide (1 <= _processing_depth st)%Z) as [Hn|Htop].
  - rewrite nested_call_returns_false by done.
    exists (RETURNED false), st. split; [done|]. split; [done|]. split; [done|]. lia.
  - assert (Hz : _processing_depth st = 0%Z) by lia.
    rewrite process_user_command_step, Hz.
    change (1 <? 0 + 1)%Z with false. cbv iota.
    destruct (dispatch_line_at_depth fuel cmds (with_depth (0 + 1) st) line)
      as (out & st' & -> & H1 & H2); [simpl; lia|].
    exists out, (with_depth (_processing_depth st' - 1) st').
    split; [done|]. simpl in *. split; [lia|]. split; [lia|]. done.
Qed.

(** C8, witness: [/again /boom] at top level. The handler of [/again]
    calls the dispatcher on [/boom]; the nested call returns [False] and
    [/boom] is never dispatched; the counter is back at 0. *)
Lemma process_user_command_restores_depth_witness :
  exists out st',
    process_user_command 2 example_commands idle "/again /boom" = Some (out, st')
    /\ _processing_depth st' = 0%Z
    /\ ((1 <= 0)%Z -> out = RETURNED false /\ st' = idle)
    /\ (dispatches (trace st') <= 0 + 1)%nat.
Proof.
  apply (process_user_command_restores_depth 0 example_commands idle "/again /boom").
  simpl. lia.
Defined.

(** The trace of that call. *)
Example nested_dispatch_is_refused :
  process_user_command 2 example_commands idle "/again /boom"
  = Some (RETURNED true,
          mkState 0 (Some "Status")
            [DISPATCH_COMMAND "again" "/boom"; DID "before"; NESTED_RETURNED false;
             DID "after"]).
Proof. vm_compute. reflexivity. Qed.

(** A handler that raises: an [Exception] is reported and the call
    returns [True]; a [SystemExit] leaves the call; the counter is back
    at 0 both times. *)
Example raising_handlers_restore_depth :
  process_user_command 2 example_commands idle "/boom"
  = Some (RETURNED true,
          mkState 0 (Some "Status")
            [DISPATCH_COMMAND "boom" EmptyString; DID "before";
             ADD_MESSAGE "Error in command /boom: ValueError"])
  /\ process_user_command 2 example_commands idle "/stop now"
     = Some (BASE_EXCEPTION, mkState 0 (Some "Status") [DISPATCH_COMMAND "stop" "now"]).
Proof. split; vm_compute; reflexivity. Qed.

End DepthFacts.

(** ** Wrapping a message into lines *)

Module WrapFacts.
Import ClientLogic.

Lemma split_space_nonempty s : Py.split_space s <> [].
Proof.
  destruct s as [|c r]; simpl; [done|].
  case_bool_decide; [done|]. by destruct (Py.split_space r).
Qed.

(** [" ".join(s.split(" ")) == s]. *)
Lemma join_split_space s : Py.join " " (Py.split_space s) = s.
Proof.
  unfold Py.join. induction s as [|c r IH]; [reflexivity|].
  simpl. case_bool_decide as Hc.
  - subst c. pose proof (split_space_nonempty r) as Hne.
    destruct (Py.split_space r) as [|w ws] eqn:E; [done|].
    change (String.concat " " (EmptyString :: w :: ws))
      with (EmptyString +:+ " " +:+ String.concat " " (w :: ws)).
    rewrite IH. reflexivity.
  - pose proof (split_space_nonempty r) as Hne.
    destruct (Py.split_space r) as [|w ws] eqn:E; [done|].
    destruct ws as [|w' ws'].
    + simpl in *. by rewrite IH.
    + change (String.concat " " (String c w :: w' :: ws'))
        with (String c (w +:+ " " +:+ String.concat " " (w' :: ws'))).
      change (String.concat " " (w :: w' :: ws'))
        with (w +:+ " " +:+ String.concat " " (w' :: ws')) in IH.
      by rewrite IH.
Qed.

Lemma append_String c (a b : string) : String c a +:+ b = String c (a +:+ b).
Proof. reflexivity. Qed.

Lemma append_assoc (a b c : string) : (a +:+ b) +:+ c = a +:+ (b +:+ c).
Proof. induction a as [|x a IH]; [reflexivity|]. rewrite !append_String. by rewrite IH. Qed.

Lemma append_empty_r (a : string) : a +:+ EmptyString = a.
Proof. induction a as [|x a IH]; [reflexivity|]. rewrite append_String. by rewrite IH. Qed.

Lemma length_append (a b : string) :
  String.length (a +:+ b) = (String.length a + String.length b)%nat.
Proof. induction a as [|x a IH]; [reflexivity|]. rewrite append_String. simpl. by rewrite IH. Qed.

Lemma concat_cons sep (x : string) (l : list string) :
  l <> [] -> String.concat sep (x :: l) = x +:+ sep +:+ String.concat sep l.
Proof. by destruct l. Qed.

(** Two neighbours of a list joined by the separator, or kept apart:
    the joined text is the same. *)
Lemma concat_merge sep (l1 l2 : list string) (a b : string) :
  String.concat sep (l1 ++ (a +:+ sep +:+ b) :: l2)%list
  = String.concat sep (l1 ++ a :: b :: l2)%list.
Proof.
  induction l1 as [|x l1 IH].
  - simpl app. rewrite (concat_cons sep a (b :: l2)) by done.
    destruct l2 as [|y l2].
    + reflexivity.
    + rewrite !concat_cons by done. by rewrite !append_assoc.
  - change ((x :: l1) ++ ?r)%list with (x :: (l1 ++ r))%list.
    rewrite !concat_cons by (by destruct l1). by rewrite IH.
Qed.

Lemma nonempty_true s : nonempty s = true <-> s <> EmptyString.
Proof. unfold nonempty. case_bool_decide; naive_solver. Qed.

Lemma nonempty_false s : nonempty s = false <-> s = EmptyString.
Proof. unfold nonempty. case_bool_decide; naive_solver. Qed.

Lemma wrap_step_nonempty w lines current_line word :
  current_line <> EmptyString ->
  wrap_step w (lines, current_line) word
  = if w <? Z.of_nat (String.length current_line) + Z.of_nat (String.length word) + 1
    then ((lines ++ [current_line])%list, word)
    else (lines, current_line +:+ " " +:+ word).
Proof. intros H%nonempty_true. unfold wrap_step. by rewrite H. Qed.

Lemma wrap_step_empty w lines word :
  wrap_step w (lines, EmptyString) word = (lines, word).
Proof. reflexivity. Qed.

(** The loop from a line in progress: what is joined in the end is what
    was there joined with the words. *)
Lemma wrap_fold_join w words : forall lines current_line,
  current_line <> EmptyString ->
  Forall (fun word => word <> EmptyString) words ->
  (foldl (wrap_step w) (lines, current_line) words).2 <> EmptyString
  /\ String.concat " "
       ((foldl (wrap_step w) (lines, current_line) words).1
        ++ [(foldl (wrap_step w) (lines, current_line) words).2])%list
     = String.concat " " (lines ++ current_line :: words)%list.
Proof.
  induction words as [|word words IH]; intros lines cur Hcur Hall.
  - done.
  - apply Forall_cons in Hall as [Hword Hall].
    cbn [foldl]. rewrite (wrap_step_nonempty w lines cur word Hcur).
    destruct (w <? _).
    + destruct (IH (lines ++ [cur])%list word Hword Hall) as [H1 H2].
      split; [done|]. rewrite H2. by rewrite <- app_assoc.
    + destruct (IH lines (cur +:+ " " +:+ word)) as [H1 H2]; [|done|].
      { by destruct cur. }
      split; [done|]. rewrite H2. apply concat_merge.
Qed.

(** X1. A message without empty words (no leading, trailing or doubled
    space) is only cut at spaces: joining the wrapped lines with single
    spaces gives the message back, whatever the width. *)
Theorem wrapped_lines_rejoin w msg :
  Forall (fun word => word <> EmptyString) (Py.split_space msg) ->
  Py.join " " (wrap_lines w msg) = msg.
Proof.
  intros Hall. unfold wrap_lines.
  pose proof (join_split_space msg) as Hjoin.
  destruct (Py.split_space msg) as [|word words] eqn:E.
  { by apply split_space_nonempty in E. }
  apply Forall_cons in Hall as [Hword Hall].
  cbn [foldl]. rewrite wrap_step_empty.
  destruct (wrap_fold_join w words [] word Hword Hall) as [H1 H2].
  destruct (foldl (wrap_step w) ([], word) words) as [lines current_line].
  simpl in H1, H2. apply nonempty_true in H1. rewrite H1.
  replace (bool_decide ((lines ++ [current_line])%list = [])) with false
    by (symmetry; apply bool_decide_eq_false; by destruct lines).
  cbn [andb]. unfold Py.join in *. by rewrite H2.
Qed.

(** X1, witness: a stamped channel line of five words at width 20 is wrapped
    into two lines, which joined by a space give the line back. *)
Lemma wrapped_lines_rejoin_witness :
  Forall (fun word => word <> EmptyString) (Py.split_space "12:00:00 <bob> hello there world")
  /\ wrap_lines 20 "12:00:00 <bob> hello there world" = ["12:00:00 <bob> hello"; "there world"]
  /\ Py.join " " (wrap_lines 20 "12:00:00 <bob> hello there world")
     = "12:00:00 <bob> hello there world".
Proof.
  assert (H : Forall (fun word => word <> EmptyString)
                (Py.split_space "12:00:00 <bob> hello there world")).
  { vm_compute. repeat constructor; discriminate. }
  split; [exact H|]. split; [vm_compute; reflexivity|].
  exact (wrapped_lines_rejoin 20 "12:00:00 <bob> hello there world" H).
Defined.

(** The invariant of the loop for the width: a finished line fits or is
    a single word, the line in progress is empty, fits or is a word. *)
Lemma wrap_fold_width w (all_words words : list string) : forall lines current_line,
  Forall (fun line => Z.of_nat (String.length line) <= w \/ line ∈ all_words) lines ->
  current_line = EmptyString \/ Z.of_nat (String.length current_line) <= w
    \/ current_line ∈ all_words ->
  Forall (fun word => word ∈ all_words) words ->
  Forall (fun line => Z.of_nat (String.length line) <= w \/ line ∈ all_words)
    (foldl (wrap_step w) (lines, current_line) words).1
  /\ ((foldl (wrap_step w) (lines, current_line) words).2 = EmptyString
      \/ Z.of_nat (String.length (foldl (wrap_step w) (lines, current_line) words).2) <= w
      \/ (foldl (wrap_step w) (lines, current_line) words).2 ∈ all_words).
Proof.
  induction words as [|word words IH]; intros lines cur Hlines Hcur Hwords.
  - done.
  - apply Forall_cons in Hwords as [Hword Hwords]. cbn [foldl].
    destruct (decide (cur = EmptyString)) as [->|Hne].
    + rewrite wrap_step_empty. apply IH; auto.
    + rewrite (wrap_step_nonempty w lines cur word Hne).
      destruct (w <? _) eqn:Hlt.
      * apply IH; [|auto|done].
        apply Forall_app. split; [done|]. constructor; [|done].
        destruct Hcur as [?|Hcur]; [done|exact Hcur].
      * apply IH; [done| |done]. right. left.
        apply Z.ltb_ge in Hlt. rewrite !length_append. simpl String.length. lia.
Qed.

(** The loop never leaves an empty line behind. *)
Lemma wrap_fold_lines_nonempty w words : forall lines current_line,
  Forall (fun line => line <> EmptyString) lines ->
  Forall (fun line => line <> EmptyString)
    (foldl (wrap_step w) (lines, current_line) words).1.
Proof.
  induction words as [|word words IH]; intros lines cur Hlines; [done|].
  cbn [foldl]. destruct (decide (cur = EmptyString)) as [->|Hne].
  - rewrite wrap_step_empty. by apply IH.
  - rewrite (wrap_step_nonempty w lines cur word Hne).
    destruct (w <? _); apply IH; [|done].
    apply Forall_app. split; [done|]. by constructor.
Qed.

(** Once a line is finished or in progress, the loop does not end with
    nothing. *)
Lemma wrap_fold_started w words : forall lines current_line,
  lines <> [] \/ current_line <> EmptyString ->
  (foldl (wrap_step w) (lines, current_line) words).1 <> []
  \/ (foldl (wrap_step w) (lines, current_line) words).2 <> EmptyString.
Proof.
  induction words as [|word words IH]; intros lines cur H; [done|].
  cbn [foldl]. destruct (decide (cur = EmptyString)) as [->|Hne].
  - rewrite wrap_step_empty. apply IH. destruct H as [H|H]; [by left|done].
  - rewrite (wrap_step_nonempty w lines cur word Hne).
    destruct (w <? _); apply IH.
    + left. by destruct lines.
    + right. by destruct cur.
Qed.

(** The loop ends with nothing only if every word is empty. *)
Lemma wrap_fold_blank w words :
  foldl (wrap_step w) ([], EmptyString) words = ([], EmptyString) ->
  Forall (fun word => word = EmptyString) words.
Proof.
  induction words as [|word words IH]; intros H; [done|].
  cbn [foldl] in H. rewrite wrap_step_empty in H.
  destruct (decide (word = EmptyString)) as [->|Hne].
  - constructor; [done|]. by apply IH.
  - exfalso. destruct (wrap_fold_started w words [] word) as [H'|H']; [by right| |];
      rewrite H in H'; done.
Qed.

(** X2. No wrapped line is longer than the width, unless it is a single
    word of the message (a word is never broken), or the message is made
    of spaces only and is kept as one line. *)
Theorem wrapped_lines_width w msg :
  Forall (fun line =>
            Z.of_nat (String.length line) <= w
            \/ line ∈ Py.split_space msg
            \/ (line = msg /\ Forall (fun word => word = EmptyString) (Py.split_space msg)))
    (wrap_lines w msg).
Proof.
  unfold wrap_lines.
  destruct (wrap_fold_width w (Py.split_space msg) (Py.split_space msg) [] EmptyString)
    as [Hlines Hcur]; [done|by left|by apply Forall_forall|].
  pose proof (wrap_fold_blank w (Py.split_space msg)) as Hblank.
  destruct (foldl (wrap_step w) ([], EmptyString) (Py.split_space msg))
    as [lines current_line].
  simpl in Hlines, Hcur.
  assert (Hweak : forall l : list string,
            Forall (fun line => Z.of_nat (String.length line) <= w
                                \/ line ∈ Py.split_space msg) l ->
            Forall (fun line =>
                      Z.of_nat (String.length line) <= w
                      \/ line ∈ Py.split_space msg
                      \/ (line = msg
                          /\ Forall (fun word => word = EmptyString) (Py.split_space msg))) l).
  { intros l Hl. eapply Forall_impl; [exact Hl|]. simpl. tauto. }
  destruct (nonempty current_line) eqn:Hne.
  - apply nonempty_true in Hne.
    replace (bool_decide ((lines ++ [current_line])%list = [])) with false
      by (symmetry; apply bool_decide_eq_false; by destruct lines).
    cbn [andb]. apply Hweak, Forall_app. split; [done|].
    constructor; [|done]. destruct Hcur as [?|Hcur]; [done|exact Hcur].
  - apply nonempty_false in Hne. subst current_line.
    case_bool_decide as Hl; cbn [andb].
    + subst lines. destruct (nonempty msg); [|done].
      constructor; [|done]. right. right. split; [done|]. by apply Hblank.
    + by apply Hweak.
Qed.

(** X3. Wrapping never yields an empty line, and it yields no line at all
    only for the empty message: a message that is not empty always puts
    at least one line into the scrollback. *)
Theorem wrapped_lines_nonempty w msg :
  Forall (fun line => line <> EmptyString) (wrap_lines w msg)
  /\ (wrap_lines w msg = [] <-> msg = EmptyString).
Proof.
  destruct (decide (msg = EmptyString)) as [->|Hmsg].
  { split; [by constructor|done]. }
  unfold wrap_lines.
  pose proof (wrap_fold_lines_nonempty w (Py.split_space msg) [] EmptyString) as Hlines.
  destruct (foldl (wrap_step w) ([], EmptyString) (Py.split_space msg))
    as [lines current_line].
  simpl in Hlines. specialize (Hlines (Forall_nil_2 _)).
  apply nonempty_true in Hmsg as Hmsg'. rewrite Hmsg'.
  destruct (nonempty current_line) eqn:Hne.
  - apply nonempty_true in Hne.
    replace (bool_decide ((lines ++ [current_line])%list = [])) with false
      by (symmetry; apply bool_decide_eq_false; by destruct lines).
    cbn [andb]. split.
    + apply Forall_app. split; [done|]. by constructor.
    + split; [by destruct lines|done].
  - case_bool_decide as Hl; cbn [andb].
    + subst lines. split; [by repeat constructor|done].
    + done.
Qed.

End WrapFacts.

(** ** What goes out to the server *)

Module OutboundFacts.
Import ClientLogic NumericHandlers NumericReplies Outbound Inbound.

Lemma rstrip_char_snoc c x :
  rstrip_char c (x +:+ String c EmptyString) = rstrip_char c x.
Proof.
  induction x as [|d r IH].
  - simpl. by rewrite bool_decide_eq_true_2.
  - change (String d r +:+ String c EmptyString)
      with (String d (r +:+ String c EmptyString)).
    simpl. by rewrite IH.
Qed.

Lemma strip_char_snoc c m :
  strip_char c (m +:+ String c EmptyString) = strip_char c m.
Proof.
  unfold strip_char. induction m as [|d r IH].
  - simpl. by rewrite bool_decide_eq_true_2.
  - change (String d r +:+ String c EmptyString)
      with (String d (r +:+ String c EmptyString)).
    cbn [lstrip_char]. case_bool_decide; [exact IH|].
    exact (rstrip_char_snoc c (String d r)).
Qed.

(** Stripping the delimiter from a message that carries its delimiters
    gives what stripping the bare message gives. *)
Lemma strip_char_ctcp m : strip_char SOH (ctcp m) = strip_char SOH m.
Proof.
  unfold ctcp. unfold strip_char at 1. cbn [lstrip_char].
  rewrite bool_decide_eq_true_2 by done. apply strip_char_snoc.
Qed.

Lemma lstrip_char_id c s : Py.startswith s (String c EmptyString) = false -> lstrip_char c s = s.
Proof.
  destruct s as [|d r]; [done|]. unfold Py.startswith. simpl.
  case_bool_decide as Hd; [|done].
  subst d. destruct (Ascii.ascii_dec c c); [|done]. by destruct r.
Qed.

Lemma rstrip_char_id c s : Py.endswith_char s c = false -> rstrip_char c s = s.
Proof.
  unfold Py.endswith_char. induction s as [|d r IH]; [done|].
  destruct r as [|e r].
  - simpl. by destruct (bool_decide (d = c)).
  - intros H. change (Py.last_char (String d (String e r))) with (Py.last_char (String e r)) in H.
    specialize (IH H). cbn [rstrip_char] in *. by rewrite IH.
Qed.

Lemma send_ctcp_privmsg_sends client target ctcp_message :
  target <> EmptyString -> ctcp_message <> EmptyString ->
  send_ctcp_privmsg client target ctcp_message
  = send_raw ("PRIVMSG " +:+ target +:+ " :" +:+ ctcp (strip_char SOH ctcp_message)) client.
Proof.
  intros Ht%WrapFacts.nonempty_true Hm%WrapFacts.nonempty_true.
  unfold send_ctcp_privmsg. by rewrite Ht, Hm.
Qed.

(** X4. A CTCP message handed over with its [\x01] delimiters already in
    place is sent exactly as the bare message is: the delimiters are not
    doubled. *)
Theorem ctcp_is_not_wrapped_twice client target ctcp_message :
  ctcp_message <> EmptyString ->
  send_ctcp_privmsg client target (ctcp ctcp_message)
  = send_ctcp_privmsg client target ctcp_message.
Proof.
  intros Hm. destruct (decide (target = EmptyString)) as [->|Ht]; [done|].
  rewrite !send_ctcp_privmsg_sends by done. by rewrite strip_char_ctcp.
Qed.

(** X4, witness: [VERSION] sent to [alice] with and without its delimiters. *)
Lemma ctcp_is_not_wrapped_twice_witness :
  sent_raw (network_handler
              (send_ctcp_privmsg NumericHandlers.joined_foo "alice" (ctcp "VERSION")))
  = sent_raw (network_handler (send_ctcp_privmsg NumericHandlers.joined_foo "alice" "VERSION")).
Proof.
  rewrite (ctcp_is_not_wrapped_twice NumericHandlers.joined_foo "alice" "VERSION");
    [reflexivity|discriminate].
Defined.

(** X5. What [send_ctcp_privmsg] sends is one PRIVMSG whose trailing is
    recognised as CTCP on the way in ([\x01] first and last), and the
    payload read back from it ([trailing[1:-1]], as [handle_server_message]
    does) is the message without the delimiters at its ends: the message
    itself if it had none. *)
Theorem sent_ctcp_round_trip client target ctcp_message :
  target <> EmptyString -> ctcp_message <> EmptyString ->
  exists trailing,
    sent_raw (network_handler (send_ctcp_privmsg client target ctcp_message))
    = (sent_raw (network_handler client) ++ ["PRIVMSG " +:+ target +:+ " :" +:+ trailing])%list
    /\ starts_with_soh trailing = true
    /\ ends_with_soh trailing = true
    /\ ctcp_payload_of trailing = strip_char SOH ctcp_message
    /\ (starts_with_soh ctcp_message = false -> ends_with_soh ctcp_message = false ->
        ctcp_payload_of trailing = ctcp_message).
Proof.
  intros Ht Hm. exists (ctcp (strip_char SOH ctcp_message)).
  rewrite send_ctcp_privmsg_sends by done.
  destruct (InboundFacts.ctcp_recognised (strip_char SOH ctcp_message)) as (Hs & He & Hp).
  split; [done|]. split; [done|]. split; [done|]. split; [done|].
  intros Hs' He'. rewrite Hp. unfold strip_char.
  rewrite lstrip_char_id by exact Hs'. by apply rstrip_char_id.
Qed.

(** X5, witness: a DCC SEND offer sent to [alice] and read back. *)
Lemma sent_ctcp_round_trip_witness :
  exists trailing,
    sent_raw (network_handler
                (send_ctcp_privmsg NumericHandlers.joined_foo "alice"
                   "DCC SEND file.txt 3232235777 5000 10"))
    = ([] ++ ["PRIVMSG " +:+ "alice" +:+ " :" +:+ trailing])%list
    /\ starts_with_soh trailing = true
    /\ ends_with_soh trailing = true
    /\ ctcp_payload_of trailing = strip_char SOH "DCC SEND file.txt 3232235777 5000 10"
    /\ (starts_with_soh "DCC SEND file.txt 3232235777 5000 10" = false ->
        ends_with_soh "DCC SEND file.txt 3232235777 5000 10" = false ->
        ctcp_payload_of trailing = "DCC SEND file.txt 3232235777 5000 10").
Proof.
  apply (sent_ctcp_round_trip NumericHandlers.joined_foo "alice"
           "DCC SEND file.txt 3232235777 5000 10"); discriminate.
Defined.

Lemma add_message_network client text color pt cn src pn :
  network_handler (add_message client text color pt cn src pn) = network_handler client.
Proof. apply (NickFacts.add_message_frame client text color pt cn src pn). Qed.

Lemma add_status_message_network client text color_key :
  network_handler (_add_status_message client text color_key) = network_handler client.
Proof.
  unfold _add_status_message. destruct (ui client); [|done]. apply add_message_network.
Qed.

(** The lines sent after [send_and_echo]. *)
Lemma echo_keeps_sent client line (echo : Client -> Client) :
  (forall c, network_handler (echo c) = network_handler c) ->
  sent_raw (network_handler (echo (send_raw line client)))
  = (sent_raw (network_handler client) ++ [line])%list.
Proof. intros H. by rewrite H. Qed.

(** X6. Text typed into a window goes to the server, as one PRIVMSG to
    the active context with the text as typed, exactly when the active
    context is a query or a channel that is fully joined. In every other
    case (no active context, a channel still being joined or failed, the
    Status or DCC window) nothing is sent. *)
Theorem text_input_needs_query_or_joined_channel client enabled_caps echo_sent_to_status text :
  (forall active_ctx_name, can_send_to client active_ctx_name ->
     sent_raw (network_handler
                 (handle_text_input client enabled_caps echo_sent_to_status text))
     = (sent_raw (network_handler client)
        ++ ["PRIVMSG " +:+ active_ctx_name +:+ " :" +:+ text])%list)
  /\ ((forall active_ctx_name, ~ can_send_to client active_ctx_name) ->
      network_handler (handle_text_input client enabled_caps echo_sent_to_status text)
      = network_handler client).
Proof.
  split.
  - intros a (Hact & Hne & ctx & Hctx & Hty).
    apply WrapFacts.nonempty_true in Hne.
    unfold handle_text_input. rewrite Hact, Hne, Hctx. cbn [negb].
    assert (Hsend :
      sent_raw (network_handler
        (if negb (bool_decide ("echo-message" ∈ enabled_caps))
         then add_message (send_raw ("PRIVMSG " +:+ a +:+ " :" +:+ text) client)
                ("<" +:+ match conn_info (send_raw ("PRIVMSG " +:+ a +:+ " :" +:+ text) client)
                         with Some ci => nick ci | None => "unknown" end +:+ "> " +:+ text)
                (ColorKey "my_message") true (Some a) None false
         else if echo_sent_to_status
              then add_message (send_raw ("PRIVMSG " +:+ a +:+ " :" +:+ text) client)
                     ("To " +:+ a +:+ ": <"
                        +:+ match conn_info (send_raw ("PRIVMSG " +:+ a +:+ " :" +:+ text) client)
                            with Some ci => nick ci | None => "unknown" end
                        +:+ "> " +:+ text)
                     (ColorKey "my_message") true (Some "Status") None false
              else send_raw ("PRIVMSG " +:+ a +:+ " :" +:+ text) client))
      = (sent_raw (network_handler client) ++ ["PRIVMSG " +:+ a +:+ " :" +:+ text])%list).
    { destruct (negb _); [by rewrite add_message_network|].
      destruct echo_sent_to_status; [by rewrite add_message_network|done]. }
    destruct Hty as [Hq|[Hc Hj]].
    + rewrite Hq. rewrite (bool_decide_eq_false_2 (query = channel)) by done.
      rewrite (bool_decide_eq_true_2 (query = query)) by done. exact Hsend.
    + rewrite Hc, Hj. rewrite !bool_decide_eq_true_2 by done. exact Hsend.
  - intros Hno. unfold handle_text_input.
    destruct (active_context_name (context_manager client)) as [a|] eqn:Hact;
      [|apply add_status_message_network].
    destruct (nonempty a) eqn:Hne; cbn [negb]; [|apply add_status_message_network].
    apply WrapFacts.nonempty_true in Hne.
    destruct (get_context (context_manager client) a) as [ctx|] eqn:Hctx;
      [|apply add_status_message_network].
    case_bool_decide as Hc.
    + case_bool_decide as Hj; [|apply add_message_network].
      exfalso. apply (Hno a). repeat split; [done..|]. exists ctx. auto.
    + case_bool_decide as Hq; [|apply add_status_message_network].
      exfalso. apply (Hno a). repeat split; [done..|]. exists ctx. auto.
Qed.

(** Both cases occur. In [#foo], fully joined, a line typed is sent to
    the channel. *)
Example typed_line_reaches_joined_channel :
  can_send_to joined_foo "#foo"
  /\ sent_raw (network_handler (handle_text_input joined_foo ∅ false "hi"))
     = ["PRIVMSG #foo :hi"].
Proof.
  split; [|vm_compute; reflexivity].
  split; [reflexivity|]. split; [discriminate|].
  eexists. split; [vm_compute; reflexivity|]. right. by split.
Qed.

(** With the window of [#bar] active while its join is pending, nothing
    is sent. *)
Example typed_line_is_held_while_joining :
  let client :=
    with_context_manager (set_active_context (context_manager joining_bar) "#bar").1
      joining_bar in
  (forall active_ctx_name, ~ can_send_to client active_ctx_name)
  /\ sent_raw (network_handler (handle_text_input client ∅ false "hi")) = [].
Proof.
  split; [|vm_compute; reflexivity].
  intros n (Ha & _ & ctx & Hg & Hty).
  vm_compute in Ha. injection Ha as <-.
  vm_compute in Hg. injection Hg as <-.
  destruct Hty as [Hty|[_ Hty]]; discriminate.
Qed.

(** X7. [/cyclechannel] sends [PART] and then [JOIN] for the active
    context when that is a channel context, under the name the context
    carries, and sends nothing otherwise; the join status of no context
    is touched, so the channel stays as it was until the server answers. *)
Theorem cyclechannel_parts_and_rejoins client args_str :
  sent_raw (network_handler (handle_cyclechannel_command client args_str))
  = (sent_raw (network_handler client)
     ++ match get_context (context_manager client)
                (or_else (active_context_name (context_manager client)) "Status") with
        | Some current_context =>
            if bool_decide (type current_context = channel)
            then ["PART " +:+ name current_context; "JOIN " +:+ name current_context]
            else []
        | None => []
        end)%list
  /\ keeps join_view (context_manager client)
       (context_manager (handle_cyclechannel_command client args_str)).
Proof.
  unfold handle_cyclechannel_command.
  destruct (get_context _ _) as [ctx|] eqn:Hctx.
  - case_bool_decide.
    + split.
      * cbn [send_raw with_network_handler network_handler sent_raw].
        rewrite add_message_network. by rewrite <- app_assoc.
      * apply JoinFacts.add_message_keeps.
    + rewrite add_message_network, app_nil_r. split; [done|].
      apply JoinFacts.add_message_keeps.
  - rewrite add_message_network, app_nil_r. split; [done|].
    apply JoinFacts.add_message_keeps.
Qed.

End OutboundFacts.

(** ** Cycling through the contexts *)

Module CycleFacts.
Import ClientLogic.

Lemma index_of_lookup x (l : list string) : forall i,
  index_of x l = Some i -> l !! i = Some x.
Proof.
  induction l as [|y r IH]; intros i H; [done|].
  simpl in H. case_bool_decide as Hxy.
  - injection H as <-. by subst y.
  - destruct (index_of x r) as [j|]; [|done]. injection H as <-. by apply IH.
Qed.

Lemma index_of_elem x (l : list string) : x ∈ l -> exists i, index_of x l = Some i.
Proof.
  induction l as [|y r IH]; intros H; [by apply elem_of_nil in H|].
  simpl. case_bool_decide as Hxy; [by eexists|].
  apply elem_of_cons in H as [H|H]; [done|].
  destruct (IH H) as [i ->]. by eexists.
Qed.

Lemma index_of_NoDup (l : list string) : forall i x,
  NoDup l -> l !! i = Some x -> index_of x l = Some i.
Proof.
  induction l as [|y r IH]; intros i x Hnd H; [done|].
  apply NoDup_cons in Hnd as [Hy Hnd].
  destruct i as [|i]; simpl in *.
  - injection H as ->. by rewrite bool_decide_eq_true_2.
  - rewrite bool_decide_eq_false_2.
    + by rewrite (IH i x Hnd H).
    + intros ->. apply Hy. by eapply list_elem_of_lookup_2.
Qed.

Lemma item_lookup (l : list string) (i : Z) :
  0 <= i < Z.of_nat (length l) -> l !! Z.to_nat i = Some (item l i).
Proof.
  intros Hi. unfold item.
  destruct (lookup_lt_is_Some_2 l (Z.to_nat i)) as [x Hx]; [lia|]. by rewrite Hx.
Qed.

(** The names in the cycle are the context names. *)
Lemma elem_of_sorted_context_names context_names x :
  x ∈ sorted_context_names context_names <-> x ∈ context_names.
Proof.
  destruct (SwitchFacts.cycle_order context_names) as (-> & _ & Hperm).
  rewrite !elem_of_app, Hperm. unfold regular_contexts.
  rewrite list_elem_of_filter.
  split.
  - intros [H|[[_ H]|H]]; [|done|].
    + case_bool_decide; [|by apply elem_of_nil in H].
      apply list_elem_of_singleton in H. by subst.
    + case_bool_decide; [|by apply elem_of_nil in H].
      apply list_elem_of_singleton in H. by subst.
  - intros H.
    destruct (decide (x = "Status")) as [->|Hs].
    { left. rewrite bool_decide_eq_true_2 by done. by apply list_elem_of_singleton. }
    destruct (decide (x = "DCC")) as [->|Hd].
    { right. right. rewrite bool_decide_eq_true_2 by done. by apply list_elem_of_singleton. }
    right. left. split; [|done].
    intros Hx. apply elem_of_cons in Hx as [?|Hx]; [done|].
    by apply list_elem_of_singleton in Hx.
Qed.

Lemma NoDup_sorted_context_names context_names :
  NoDup context_names -> NoDup (sorted_context_names context_names).
Proof.
  intros Hnd.
  destruct (SwitchFacts.cycle_order context_names) as (-> & _ & Hperm).
  assert (Hreg : forall x, x ∈ Py.sort_by_lower (regular_contexts context_names) ->
                 x <> "Status" /\ x <> "DCC").
  { intros x Hx. rewrite Hperm in Hx. unfold regular_contexts in Hx.
    apply list_elem_of_filter in Hx as [Hx _].
    split; intros ->; apply Hx.
    - by apply elem_of_cons; left.
    - apply elem_of_cons; right. by apply list_elem_of_singleton. }
  apply NoDup_app. split; [|split].
  - case_bool_decide; [apply NoDup_singleton|apply NoDup_nil_2].
  - intros x Hx. case_bool_decide as Hs; [|by apply elem_of_nil in Hx].
    apply list_elem_of_singleton in Hx. subst x.
    intros Hin. apply elem_of_app in Hin as [Hin|Hin].
    + by apply Hreg in Hin as [? _].
    + case_bool_decide as Hd; [|by apply elem_of_nil in Hin].
      by apply list_elem_of_singleton in Hin.
  - apply NoDup_app. split; [|split].
    + rewrite Hperm. unfold regular_contexts. by apply NoDup_filter.
    + intros x Hx Hin. case_bool_decide as Hd; [|by apply elem_of_nil in Hin].
      apply list_elem_of_singleton in Hin. subst x. by apply Hreg in Hx as [_ ?].
    + case_bool_decide; [apply NoDup_singleton|apply NoDup_nil_2].
Qed.

Lemma next_prev_index n i : 0 <= i < n -> ((i + 1) `mod` n - 1 + n) `mod` n = i.
Proof.
  intros Hi. destruct (decide (i + 1 = n)) as [Heq|Hneq].
  - rewrite Heq, Z.mod_same by lia. replace (0 - 1 + n) with i by lia.
    apply Z.mod_small. lia.
  - rewrite (Z.mod_small (i + 1)) by lia.
    replace (i + 1 - 1 + n) with (i + 1 * n) by lia.
    rewrite Z.mod_add by lia. apply Z.mod_small. lia.
Qed.

Lemma prev_next_index n i : 0 <= i < n -> ((i - 1 + n) `mod` n + 1) `mod` n = i.
Proof.
  intros Hi. destruct (decide (i = 0)) as [->|Hneq].
  - replace (0 - 1 + n) with (n - 1) by lia.
    rewrite (Z.mod_small (n - 1)) by lia.
    replace (n - 1 + 1) with n by lia. apply Z.mod_same. lia.
  - replace (i - 1 + n) with (i - 1 + 1 * n) by lia.
    rewrite Z.mod_add by lia. rewrite (Z.mod_small (i - 1)) by lia.
    replace (i - 1 + 1) with i by lia. apply Z.mod_small. lia.
Qed.

(** [next] and [prev] from a context of the cycle. *)
Lemma switch_step context_names a i :
  a <> EmptyString ->
  index_of a (sorted_context_names context_names) = Some i ->
  switch_active_context context_names (Some a) "next"
  = (let t := item (sorted_context_names context_names)
                ((Z.of_nat i + 1) `mod` Z.of_nat (length (sorted_context_names context_names))) in
     if nonempty t then SWITCH_TO t else NO_SWITCH)
  /\ switch_active_context context_names (Some a) "prev"
     = (let t := item (sorted_context_names context_names)
                   ((Z.of_nat i - 1 + Z.of_nat (length (sorted_context_names context_names)))
                    `mod` Z.of_nat (length (sorted_context_names context_names))) in
        if nonempty t then SWITCH_TO t else NO_SWITCH).
Proof.
  intros Hne%WrapFacts.nonempty_true Hi.
  unfold switch_active_context.
  destruct context_names as [|n0 rest]; [done|].
  revert Hi. generalize (sorted_context_names (n0 :: rest)). intros sorted Hi.
  cbn [truthy]. rewrite Hne, Hi, Hne. cbn [negb]. done.
Qed.

Lemma item_elem_of (l : list string) (i : Z) :
  0 <= i < Z.of_nat (length l) -> item l i ∈ l.
Proof. intros Hi. eapply list_elem_of_lookup_2. by apply item_lookup. Qed.

Lemma item_index (l : list string) (i : nat) x : l !! i = Some x -> item l (Z.of_nat i) = x.
Proof. intros H. unfold item. by rewrite Nat2Z.id, H. Qed.

(** X8. In a context table without duplicate names, [next] and [prev]
    undo each other: from a context of the table, the context that
    [next] switches to is one from which [prev] switches back, and the
    other way round. *)
Theorem next_and_prev_undo_each_other context_names a b :
  NoDup context_names -> a ∈ context_names -> a <> EmptyString ->
  (switch_active_context context_names (Some a) "next" = SWITCH_TO b ->
   switch_active_context context_names (Some b) "prev" = SWITCH_TO a)
  /\ (switch_active_context context_names (Some a) "prev" = SWITCH_TO b ->
      switch_active_context context_names (Some b) "next" = SWITCH_TO a).
Proof.
  intros Hnd Ha Hne.
  pose proof (NoDup_sorted_context_names _ Hnd) as Hs.
  apply elem_of_sorted_context_names in Ha.
  destruct (index_of_elem _ _ Ha) as [i Hi].
  pose proof (index_of_lookup _ _ _ Hi) as Hlook.
  pose proof (lookup_lt_Some _ _ _ Hlook) as Hlt.
  destruct (switch_step context_names a i Hne Hi) as [Hnext Hprev].
  rewrite Hnext, Hprev. clear Hnext Hprev.
  set (sorted := sorted_context_names context_names) in *.
  set (n := Z.of_nat (length sorted)).
  assert (Hn : 0 <= Z.of_nat i < n) by (unfold n; lia).
  assert (Hback : forall j : Z, 0 <= j < n -> nonempty (item sorted j) = true ->
            index_of (item sorted j) sorted = Some (Z.to_nat j)
            /\ item sorted j <> EmptyString).
  { intros j Hj Hnej. split; [|by apply WrapFacts.nonempty_true].
    apply index_of_NoDup; [done|]. by apply item_lookup. }
  split; cbv zeta; intros H.
  - assert (Hj : 0 <= (Z.of_nat i + 1) `mod` n < n) by (apply Z.mod_pos_bound; lia).
    destruct (nonempty (item sorted ((Z.of_nat i + 1) `mod` n))) eqn:Hb; [|done].
    injection H as <-. destruct (Hback _ Hj Hb) as [Hidx Hbne].
    rewrite (proj2 (switch_step context_names _ _ Hbne Hidx)). cbv zeta.
    fold sorted. fold n. rewrite Z2Nat.id by lia.
    rewrite next_prev_index by done. rewrite (item_index _ _ _ Hlook).
    by apply WrapFacts.nonempty_true in Hne as ->.
  - assert (Hj : 0 <= (Z.of_nat i - 1 + n) `mod` n < n) by (apply Z.mod_pos_bound; lia).
    destruct (nonempty (item sorted ((Z.of_nat i - 1 + n) `mod` n))) eqn:Hb; [|done].
    injection H as <-. destruct (Hback _ Hj Hb) as [Hidx Hbne].
    rewrite (proj1 (switch_step context_names _ _ Hbne Hidx)). cbv zeta.
    fold sorted. fold n. rewrite Z2Nat.id by lia.
    rewrite prev_next_index by done. rewrite (item_index _ _ _ Hlook).
    by apply WrapFacts.nonempty_true in Hne as ->.
Qed.

(** X8, witness: four contexts, cycled in the order [#Ada], [#rocq], [DCC],
    [Status]; from [#rocq], [next] and back, [prev] and back. *)
Lemma next_and_prev_undo_each_other_witness :
  switch_active_context ["Status"; "#rocq"; "#Ada"; "DCC"] (Some "#rocq") "next"
  = SWITCH_TO "DCC"
  /\ switch_active_context ["Status"; "#rocq"; "#Ada"; "DCC"] (Some "DCC") "prev"
     = SWITCH_TO "#rocq"
  /\ switch_active_context ["Status"; "#rocq"; "#Ada"; "DCC"] (Some "#rocq") "prev"
     = SWITCH_TO "#Ada"
  /\ switch_active_context ["Status"; "#rocq"; "#Ada"; "DCC"] (Some "#Ada") "next"
     = SWITCH_TO "#rocq".
Proof.
  assert (Hnext : switch_active_context ["Status"; "#rocq"; "#Ada"; "DCC"] (Some "#rocq") "next"
                  = SWITCH_TO "DCC") by (vm_compute; reflexivity).
  assert (Hprev : switch_active_context ["Status"; "#rocq"; "#Ada"; "DCC"] (Some "#rocq") "prev"
                  = SWITCH_TO "#Ada") by (vm_compute; reflexivity).
  split; [exact Hnext|]. split; [|split; [exact Hprev|]].
  - refine (proj1 (next_and_prev_undo_each_other
                     ["Status"; "#rocq"; "#Ada"; "DCC"] "#rocq" "DCC" _ _ _) Hnext);
      [compute_done|compute_done|discriminate].
  - refine (proj2 (next_and_prev_undo_each_other
                     ["Status"; "#rocq"; "#Ada"; "DCC"] "#rocq" "#Ada" _ _ _) Hprev);
      [compute_done|compute_done|discriminate].
Defined.

(** X9. With at least one context and no context named by the empty
    string, [next] and [prev] always switch, and always to a context of
    the table, whatever the active context name is (also a stale or a
    missing one). *)
Theorem cycling_stays_among_contexts context_names active direction :
  context_names <> [] ->
  (forall n, n ∈ context_names -> n <> EmptyString) ->
  direction = "next" \/ direction = "prev" ->
  exists b, b ∈ context_names
            /\ switch_active_context context_names active direction = SWITCH_TO b.
Proof.
  intros Hnames Hall Hdir.
  assert (Hsorted : forall x, x ∈ sorted_context_names context_names ->
                      x ∈ context_names /\ nonempty x = true).
  { intros x Hx. apply (proj1 (elem_of_sorted_context_names context_names x)) in Hx.
    split; [exact Hx|].
    by apply WrapFacts.nonempty_true, Hall. }
  assert (Hne : sorted_context_names context_names <> []).
  { destruct context_names as [|n0 rest]; [done|].
    intros Heq. assert (Hin : n0 ∈ sorted_context_names (n0 :: rest)).
    { apply elem_of_sorted_context_names. by left. }
    rewrite Heq in Hin. by apply elem_of_nil in Hin. }
  unfold switch_active_context.
  destruct context_names as [|n0 rest]; [done|].
  revert Hsorted Hne. generalize (sorted_context_names (n0 :: rest)).
  intros sorted Hsorted Hne.
  destruct sorted as [|h t] eqn:Es; [done|]. rewrite <- Es in *.
  assert (Hlen : 0 < Z.of_nat (length sorted)) by (rewrite Es; simpl; lia).
  assert (Hh : h ∈ sorted) by (rewrite Es; by left).
  assert (Hhead : head sorted = Some h) by (by rewrite Es).
  rewrite Hhead.
  assert (Hcur : exists c, (if truthy active then active else Some h) = Some c
                           /\ nonempty c = true
                           /\ (index_of c sorted = None -> True)).
  { destruct active as [a|]; simpl.
    - destruct (nonempty a) eqn:Ha; eexists; split; try reflexivity; split; try done.
      by apply Hsorted.
    - eexists; split; [reflexivity|]. split; [by apply Hsorted|done]. }
  destruct Hcur as (c & -> & Hc & _).
  assert (Hpick : forall idx : Z, 0 <= idx < Z.of_nat (length sorted) ->
            exists b, b ∈ n0 :: rest
              /\ (if nonempty (item sorted idx) then SWITCH_TO (item sorted idx) else NO_SWITCH)
                 = SWITCH_TO b).
  { intros idx Hidx. destruct (Hsorted _ (item_elem_of sorted idx Hidx)) as [Hin Hn].
    rewrite Hn. by eexists. }
  destruct (index_of c sorted) as [i|] eqn:Hi; cbv beta iota zeta delta [default from_option id].
  - rewrite Hc. cbn [negb].
    destruct Hdir as [-> | ->].
    + rewrite (bool_decide_eq_true_2 ("next" = "next")) by done.
      apply Hpick. apply Z.mod_pos_bound. lia.
    + rewrite (bool_decide_eq_false_2 ("prev" = "next")) by done.
      rewrite (bool_decide_eq_true_2 ("prev" = "prev")) by done.
      apply Hpick. apply Z.mod_pos_bound. lia.
  - destruct (Hsorted h Hh) as [_ Hhn]. rewrite Hhn. cbn [negb].
    destruct Hdir as [-> | ->].
    + rewrite (bool_decide_eq_true_2 ("next" = "next")) by done.
      apply Hpick. apply Z.mod_pos_bound. lia.
    + rewrite (bool_decide_eq_false_2 ("prev" = "next")) by done.
      rewrite (bool_decide_eq_true_2 ("prev" = "prev")) by done.
      apply Hpick. apply Z.mod_pos_bound. lia.
Qed.

(** X9, witness: the active context name is stale, [#gone]; [next] still
    switches to a context of the table. *)
Lemma cycling_stays_among_contexts_witness :
  exists b, b ∈ ["Status"; "#rocq"; "#Ada"]
            /\ switch_active_context ["Status"; "#rocq"; "#Ada"] (Some "#gone") "next"
               = SWITCH_TO b.
Proof.
  apply (cycling_stays_among_contexts ["Status"; "#rocq"; "#Ada"] (Some "#gone") "next");
    [discriminate| |by left].
  intros n Hn.
  repeat (apply elem_of_cons in Hn as [->|Hn]; [discriminate|]).
  by apply elem_of_nil in Hn.
Defined.

End CycleFacts.

(** ** Where a message goes, and the replies that only show a line *)

Module MessageTargetFacts.
Import ClientLogic NumericHandlers NumericReplies.

Lemma add_message_to_context_other cm n text color lc k :
  k <> _normalize_context_name n ->
  contexts (add_message_to_context cm n text color lc).1 !! k = contexts cm !! k.
Proof.
  intros Hk. unfold add_message_to_context.
  destruct (contexts cm !! _normalize_context_name n); [|done].
  simpl. by apply lookup_insert_ne.
Qed.

Lemma add_lines_other lines : forall cm target color k,
  k <> _normalize_context_name target ->
  contexts (add_lines cm target color lines) !! k = contexts cm !! k.
Proof.
  induction lines as [|l lines IH]; intros cm target color k Hk; [done|].
  unfold add_lines. cbn [foldl].
  fold (add_lines (add_message_to_context cm target l color 1).1 target color lines).
  rewrite IH by done. by apply add_message_to_context_other.
Qed.

Lemma create_context_other cm n ty js k :
  k <> _normalize_context_name n ->
  contexts (create_context cm n ty js).1 !! k = contexts cm !! k.
Proof.
  intros Hk. unfold create_context.
  destruct (contexts cm !! _normalize_context_name n); [done|].
  simpl. by apply lookup_insert_ne.
Qed.

(** A context made on the fly has the type and the join status that its
    name decides. *)
Lemma create_new_context_kind cm n :
  get_context cm n = None ->
  (create_context cm n (new_context_kind n).1 (new_context_kind n).2).2 = true
  /\ exists c, get_context (create_context cm n (new_context_kind n).1 (new_context_kind n).2).1 n
               = Some c
               /\ join_view c = new_context_kind n.
Proof.
  unfold get_context. intros Hc. unfold create_context. rewrite Hc.
  split; [done|]. cbn [fst contexts]. rewrite lookup_insert_eq.
  eexists. split; [reflexivity|].
  unfold join_view, new_context_kind. cbn [type join_status].
  destruct (Py.startswith_any n channel_prefixes); [done|].
  by destruct (_ && _).
Qed.

(** The target of a message that is shown: the event names it, every
    other context is left as it was, and the target context exists
    afterwards with the type and join status it had, or those of a
    context made on the fly. *)
Lemma add_message_target client text color pt cn src pn u :
  ui client = Some u ->
  pn && truthy src && is_source_ignored client (default EmptyString src) = false ->
  events (add_message client text color pt cn src pn)
  = (events client
     ++ [MESSAGE_ADDED_TO_CONTEXT (target_name client cn) text (event_color_key color) src pn])%list
  /\ (forall k, k <> _normalize_context_name (target_name client cn) ->
        contexts (context_manager (add_message client text color pt cn src pn)) !! k
        = contexts (context_manager client) !! k)
  /\ exists c',
       get_context (context_manager (add_message client text color pt cn src pn))
         (target_name client cn) = Some c'
       /\ join_view c'
          = match get_context (context_manager client) (target_name client cn) with
            | Some c => join_view c
            | None => new_context_kind (target_name client cn)
            end.
Proof.
  intros Hu Hig. unfold add_message. rewrite Hu, Hig.
  set (tn := target_name client cn).
  set (lines := lines_of_message client u text pt).
  set (col := resolve_color u color).
  assert (Htail : forall cm1 c1,
    get_context cm1 tn = Some c1 ->
    (forall k, k <> _normalize_context_name tn ->
       contexts match get_context (add_lines cm1 tn col lines) tn with
                | Some obj => pin_scrollback (add_lines cm1 tn col lines) tn obj (length lines)
                | None => add_lines cm1 tn col lines
                end !! k = contexts cm1 !! k)
    /\ exists c',
         get_context match get_context (add_lines cm1 tn col lines) tn with
                     | Some obj => pin_scrollback (add_lines cm1 tn col lines) tn obj
                                     (length lines)
                     | None => add_lines cm1 tn col lines
                     end tn = Some c'
         /\ join_view c' = join_view c1).
  { intros cm1 c1 Hc1. split.
    - intros k Hk. destruct (get_context (add_lines cm1 tn col lines) tn).
      + rewrite ScrollbackFacts.pin_lookup.
        rewrite (bool_decide_eq_false_2 (k = _)) by done.
        rewrite andb_false_r. by apply add_lines_other.
      + by apply add_lines_other.
    - assert (Hk : keeps join_view cm1
                     match get_context (add_lines cm1 tn col lines) tn with
                     | Some obj => pin_scrollback (add_lines cm1 tn col lines) tn obj
                                     (length lines)
                     | None => add_lines cm1 tn col lines
                     end).
      { eapply JoinFacts.keeps_trans; [by apply JoinFacts.keeps_add_lines|].
        destruct (get_context (add_lines cm1 tn col lines) tn);
          [apply JoinFacts.keeps_pin|apply JoinFacts.keeps_refl]. }
      exact (Hk _ _ Hc1). }
  destruct (get_context (context_manager client) tn) as [c|] eqn:Hc.
  - cbn [fst snd negb]. rewrite Hc. cbn [events dispatch set_ui_needs_update
      context_manager with_context_manager].
    destruct (Htail _ _ Hc) as [Hother Hex]. done.
  - destruct (create_new_context_kind _ _ Hc) as (Hok & c1 & Hc1 & Hkind).
    destruct (new_context_kind tn) as [ty js] eqn:Ekind. cbn [fst snd] in Hok, Hc1.
    rewrite Hok. cbn [negb]. rewrite Hc1.
    cbn [events dispatch set_ui_needs_update context_manager with_context_manager].
    destruct (Htail _ _ Hc1) as [Hother (c' & Hc' & Hv)].
    split; [done|]. split.
    + intros k Hk. rewrite Hother by done. by apply create_context_other.
    + exists c'. split; [done|]. by rewrite Hv.
Qed.

Lemma add_message_active client text color pt cn src pn :
  active_context_name (context_manager (add_message client text color pt cn src pn))
  = active_context_name (context_manager client).
Proof.
  unfold add_message.
  destruct (ui client) as [u|]; [|done].
  destruct (_ && _); [done|].
  set (tn := target_name client cn).
  assert (Hpin : forall cm2 n,
    active_context_name
      match get_context cm2 tn with
      | Some obj => pin_scrollback cm2 tn obj n
      | None => cm2
      end = active_context_name cm2).
  { intros cm2 n. destruct (get_context cm2 tn); [|done].
    unfold pin_scrollback. by destruct (_ && _). }
  destruct (get_context (context_manager client) tn) eqn:E; cbn [fst snd negb].
  - rewrite E. cbn [context_manager set_ui_needs_update dispatch with_context_manager].
    rewrite Hpin. apply ScrollbackFacts.add_lines_active.
  - destruct (new_context_kind tn) as [ty js].
    pose proof (ScrollbackFacts.create_context_active (context_manager client) tn ty js) as Hc.
    destruct (create_context _ _ _ _) as [cm1 ok]. cbn [fst snd] in *.
    destruct ok; cbn [negb].
    + destruct (get_context cm1 tn) eqn:E1;
        cbn [context_manager set_ui_needs_update dispatch with_context_manager]; [|done].
      by rewrite Hpin, ScrollbackFacts.add_lines_active.
    + cbn [context_manager set_ui_needs_update with_context_manager].
      rewrite ScrollbackFacts.add_message_to_context_active.
      destruct (get_context cm1 "Status"); [done|].
      by rewrite ScrollbackFacts.create_context_active.
Qed.

(** X10. A message changes one context only, its target: the context
    named in the call, else the active context, else Status. Every other
    context of the table stays exactly as it was, and so does the name of
    the active context. When the message is shown (there is a UI and the
    source is not ignored) the target exists afterwards, made on the fly
    if need be, with the type and join status it had or that its name
    decides. *)
Theorem message_changes_only_its_target client text color prefix_time context_name
    source_full_ident is_privmsg_or_notice :
  (forall k, k <> _normalize_context_name (target_name client context_name) ->
     contexts (context_manager
                 (add_message client text color prefix_time context_name
                    source_full_ident is_privmsg_or_notice)) !! k
     = contexts (context_manager client) !! k)
  /\ active_context_name
       (context_manager (add_message client text color prefix_time context_name
                           source_full_ident is_privmsg_or_notice))
     = active_context_name (context_manager client)
  /\ (is_Some (ui client) ->
      is_privmsg_or_notice && truthy source_full_ident
        && is_source_ignored client (default EmptyString source_full_ident) = false ->
      exists c',
        get_context (context_manager
                       (add_message client text color prefix_time context_name
                          source_full_ident is_privmsg_or_notice))
          (target_name client context_name) = Some c'
        /\ join_view c'
           = match get_context (context_manager client) (target_name client context_name) with
             | Some c => join_view c
             | None => new_context_kind (target_name client context_name)
             end).
Proof.
  split; [|split].
  - intros k Hk.
    destruct (ui client) as [u|] eqn:Hu;
      [|by unfold add_message; rewrite Hu].
    destruct (is_privmsg_or_notice && truthy source_full_ident
              && is_source_ignored client (default EmptyString source_full_ident)) eqn:Hig;
      [by unfold add_message; rewrite Hu, Hig|].
    by apply (add_message_target client text color prefix_time context_name
                source_full_ident is_privmsg_or_notice u Hu Hig).
  - apply add_message_active.
  - intros [u Hu] Hig.
    by apply (add_message_target client text color prefix_time context_name
                source_full_ident is_privmsg_or_notice u Hu Hig).
Qed.



(** A message for a channel that has no context yet makes the context,
    as a channel that is not joined. *)
Example message_to_unknown_channel_makes_context :
  get_context (context_manager joined_foo) "#new" = None
  /\ join_view <$> get_context
                     (context_manager
                        (add_message joined_foo "hello" (ColorKey "system") true
                           (Some "#new") None false)) "#new"
     = Some (new_context_kind "#new").
Proof. vm_compute. auto. Qed.





End MessageTargetFacts.

(** ** A rejected nick change, and the names reply *)

Module NamesFacts.
Import ClientLogic NumericHandlers NumericReplies.

(** X13. A nick refused as erroneous (432) is never retried: the handler
    sends nothing and leaves the current nick, the tracked channels and
    the collision flag alone. It forgets the nick change the user had
    asked for when that is the refused nick, in any case of letters, and
    only then. *)
Theorem erroneous_nickname_is_never_retried client display_params trailing col :
  ui_colors client "error" = Some col ->
  exists client',
    _handle_err_erroneusnickname client display_params trailing = Done client'
    /\ network_handler client' = network_handler client
    /\ (forall ci, conn_info client = Some ci ->
          conn_info client'
          = Some (mkConnectionInfo (nick ci)
                    (match last_attempted_nick_change ci with
                     | Some l =>
                         if bool_decide (Py.lower l
                                         = Py.lower (first_param display_params "nick"))
                         then None else Some l
                     | None => None
                     end)
                    (currently_joined_channels ci) (initial_channels ci)))
    /\ (conn_info client = None -> conn_info client' = None).
Proof.
  intros Hcol. unfold _handle_err_erroneusnickname. rewrite Hcol.
  set (client1 := add_message_positional client _ _ _).
  assert (Hci : conn_info client1 = conn_info client)
    by apply JoinFacts.add_message_conn_info.
  assert (Hnh : network_handler client1 = network_handler client)
    by apply OutboundFacts.add_message_network.
  destruct (conn_info client) as [ci|] eqn:E; rewrite Hci.
  - destruct (last_attempted_nick_change ci) as [l|] eqn:El.
    + case_bool_decide.
      * eexists. split; [reflexivity|]. split; [exact Hnh|]. split; [|done].
        intros ? [= <-]. rewrite El. by rewrite bool_decide_eq_true_2 by done.
      * eexists. split; [reflexivity|]. split; [exact Hnh|]. split; [|done].
        intros ? [= <-]. rewrite Hci, El. rewrite bool_decide_eq_false_2 by done.
        destruct ci as [n la j ic]. cbn [last_attempted_nick_change] in El. by subst la.
    + eexists. split; [reflexivity|]. split; [exact Hnh|]. split; [|done].
      intros ? [= <-]. rewrite Hci, El.
      destruct ci as [n la j ic]. cbn [last_attempted_nick_change] in El. by subst la.
  - eexists. split; [reflexivity|]. split; [exact Hnh|]. split; [done|].
    intros _. exact Hci.
Qed.

(** X13, witness: the user asked for [Bad^Nick], the server refuses
    [bad^nick]; the pending change is forgotten and nothing is sent. *)
Lemma erroneous_nickname_is_never_retried_witness :
  exists client',
    _handle_err_erroneusnickname
      (with_conn_info (Some (mkConnectionInfo "me" (Some "Bad^Nick") {["#foo"]} [])) joined_foo)
      ["bad^nick"] None = Done client'
    /\ network_handler client' = network_handler joined_foo
    /\ conn_info client' = Some (mkConnectionInfo "me" None {["#foo"]} []).
Proof.
  destruct (erroneous_nickname_is_never_retried
              (with_conn_info (Some (mkConnectionInfo "me" (Some "Bad^Nick") {["#foo"]} []))
                 joined_foo)
              ["bad^nick"] None 1 eq_refl) as (client' & H1 & H2 & H3 & _).
  exists client'. split; [exact H1|]. split; [exact H2|].
  exact (H3 _ eq_refl).
Defined.

Lemma keeps_update_at {A} (view : Context -> A) cm n f :
  (forall c, contexts cm !! _normalize_context_name n = Some c -> view (f c) = view c) ->
  keeps view cm (update_context cm n f).
Proof.
  intros Hf k ctx Hk. unfold update_context. cbn [contexts with_contexts].
  destruct (decide (k = _normalize_context_name n)) as [->|Hne].
  - rewrite lookup_alter_eq, Hk. simpl. eexists. split; [reflexivity|]. by apply Hf.
  - rewrite lookup_alter_ne by congruence. eauto.
Qed.

Lemma keeps_add_users {A} (view : Context -> A) channel_name nicks : forall cm,
  (forall c us, view (mkContext (name c) (type c) (join_status c) us (scrollback c)
                        (scrollback_offset c)) = view c) ->
  keeps view cm
    (foldl (fun cm nick_entry =>
              let '(prefix_char, actual_nick) := split_nick_entry nick_entry in
              add_user cm channel_name actual_nick prefix_char) cm nicks).
Proof.
  induction nicks as [|e nicks IH]; intros cm Hv; [apply JoinFacts.keeps_refl|].
  cbn [foldl]. eapply JoinFacts.keeps_trans; [|by apply IH].
  destruct (split_nick_entry e) as [p n]. unfold add_user.
  apply JoinFacts.keeps_update. intros c. apply Hv.
Qed.

Lemma get_context_create cm n ty js :
  get_context (create_context cm n ty js).1 n
  = Some match get_context cm n with
         | Some c => c
         | None =>
             mkContext (_normalize_context_name n) ty
               (if bool_decide (ty = channel) then Some (default NOT_JOINED js) else None)
               [] [] 0
         end.
Proof.
  unfold get_context, create_context.
  destruct (contexts cm !! _normalize_context_name n) as [c|] eqn:E; cbn [fst contexts].
  - exact E.
  - apply lookup_insert_eq.
Qed.

(** The tracked channels stay fully joined when the connection info is
    kept and no fully joined channel context is lost. *)
Lemma invariant_kept client client' :
  keeps is_fully_joined (context_manager client) (context_manager client') ->
  conn_info client' = conn_info client ->
  joined_invariant client -> joined_invariant client'.
Proof.
  intros Hk Hci Hinv ci Hci' c Hc. rewrite Hci in Hci'.
  destruct (Hinv ci Hci' c Hc) as (ctx & Hctx & Hty & Hjs).
  destruct (Hk _ _ Hctx) as (ctx' & Hctx' & Hv).
  exists ctx'. split; [exact Hctx'|].
  unfold is_fully_joined in Hv. rewrite Hty, Hjs in Hv.
  rewrite (bool_decide_eq_true_2 (channel = channel)) in Hv by done.
  rewrite (bool_decide_eq_true_2 (Some FULLY_JOINED = Some FULLY_JOINED)) in Hv by done.
  apply andb_true_iff in Hv as [H1 H2].
  by apply bool_decide_eq_true in H1, H2.
Qed.

(** X14. A names reply (353) for a channel moves its context from
    [PENDING_INITIAL_JOIN] or [JOIN_COMMAND_SENT] to [SELF_JOIN_RECEIVED]
    and leaves any other join status as it is; a context it has to make
    starts as [NOT_JOINED]. It never marks a channel as joined: nothing
    is sent, the connection info with the tracked channels is untouched,
    and channels that are tracked and fully joined stay so. *)
Theorem names_reply_join_status client first channel_in_reply rest trailing :
  channel_in_reply <> EmptyString ->
  join_status_of (_handle_rpl_namreply client (first :: channel_in_reply :: rest) trailing)
    channel_in_reply
  = match get_context (context_manager client) channel_in_reply with
    | Some ctx =>
        if bool_decide (join_status ctx = Some PENDING_INITIAL_JOIN
                        \/ join_status ctx = Some JOIN_COMMAND_SENT)
        then Some SELF_JOIN_RECEIVED else join_status ctx
    | None => Some NOT_JOINED
    end
  /\ conn_info (_handle_rpl_namreply client (first :: channel_in_reply :: rest) trailing)
     = conn_info client
  /\ network_handler (_handle_rpl_namreply client (first :: channel_in_reply :: rest) trailing)
     = network_handler client
  /\ (joined_invariant client ->
      joined_invariant
        (_handle_rpl_namreply client (first :: channel_in_reply :: rest) trailing)).
Proof.
  intros Hne%WrapFacts.nonempty_true.
  unfold _handle_rpl_namreply. rewrite Hne.
  set (cm0 := (create_context (context_manager client) channel_in_reply channel
                 (Some NOT_JOINED)).1).
  pose proof (get_context_create (context_manager client) channel_in_reply channel
                (Some NOT_JOINED)) as Hget.
  fold cm0 in Hget. rewrite Hget.
  set (t := match get_context (context_manager client) channel_in_reply with
            | Some c => c
            | None => mkContext (_normalize_context_name channel_in_reply) channel
                        (if bool_decide (channel = channel)
                         then Some (default NOT_JOINED (Some NOT_JOINED)) else None) [] [] 0
            end) in *.
  set (pending := bool_decide (join_status t = Some PENDING_INITIAL_JOIN)
                  || bool_decide (join_status t = Some JOIN_COMMAND_SENT)).
  set (cm1 := if pending
              then update_context cm0 channel_in_reply (with_join_status (Some SELF_JOIN_RECEIVED))
              else cm0).
  set (nicks := if truthy trailing then split_whitespace (default EmptyString trailing) else []).
  assert (Hcm1 : exists t1, get_context cm1 channel_in_reply = Some t1
                   /\ join_status t1 = if pending then Some SELF_JOIN_RECEIVED
                                       else join_status t).
  { unfold cm1. destruct pending.
    - unfold get_context, update_context. cbn [contexts with_contexts].
      rewrite lookup_alter_eq. unfold get_context in Hget. rewrite Hget. simpl. eauto.
    - eauto. }
  destruct Hcm1 as (t1 & Ht1 & Hjs1).
  assert (Hfold : forall (A : Type) (view : Context -> A),
            (forall c us, view (mkContext (name c) (type c) (join_status c) us (scrollback c)
                                  (scrollback_offset c)) = view c) ->
            keeps view cm1
              (foldl (fun cm nick_entry =>
                        let '(prefix_char, actual_nick) := split_nick_entry nick_entry in
                        add_user cm channel_in_reply actual_nick prefix_char) cm1 nicks)).
  { intros A view Hv. by apply keeps_add_users. }
  split; [|split; [done|split; [done|]]].
  - unfold join_status_of. cbn [context_manager with_context_manager].
    destruct (Hfold _ join_status (fun _ _ => eq_refl) _ _ Ht1) as (t2 & Ht2 & Hjs2).
    match type of Ht2 with
    | contexts ?m !! _ = _ => change (get_context m channel_in_reply = Some t2) in Ht2
    end.
    rewrite Ht2, Hjs2, Hjs1.
    unfold pending, t.
    destruct (get_context (context_manager client) channel_in_reply) as [c|] eqn:Hc.
    + destruct (join_status c) as [[]|]; reflexivity.
    + reflexivity.
  - apply invariant_kept; [|done].
    cbn [context_manager with_context_manager].
    eapply JoinFacts.keeps_trans; [apply JoinFacts.keeps_create|]. fold cm0.
    eapply JoinFacts.keeps_trans; [|by apply Hfold].
    unfold cm1. destruct pending eqn:Hp; [|apply JoinFacts.keeps_refl].
    apply keeps_update_at. intros c Hc.
    unfold get_context in Hget. rewrite Hget in Hc. injection Hc as <-.
    unfold is_fully_joined. cbn [type join_status with_join_status].
    unfold pending in Hp.
    destruct (join_status t) as [[]|]; try discriminate Hp; by rewrite !andb_false_r.
Qed.

(** X14, witness: [JOIN #bar] has been sent; the names of [#bar] arrive. *)
Lemma names_reply_join_status_witness :
  join_status_of (_handle_rpl_namreply joining_bar ["="; "#bar"] (Some "@alice +bob me"))
    "#bar" = Some SELF_JOIN_RECEIVED
  /\ conn_info (_handle_rpl_namreply joining_bar ["="; "#bar"] (Some "@alice +bob me"))
     = conn_info joining_bar.
Proof.
  destruct (names_reply_join_status joining_bar "=" "#bar" [] (Some "@alice +bob me"))
    as (H1 & H2 & _); [discriminate|].
  split; [|exact H2]. rewrite H1. vm_compute. reflexivity.
Defined.

End NamesFacts.

(** ** The command handler: arguments, errors and completion *)

Module CommandFacts.
Import ClientLogic CommandArgs.

Lemma split_first_space_spec s :
  Py.contains (CommandHandler.split_first_space s).1 " " = false
  /\ s = match (CommandHandler.split_first_space s).2 with
         | Some b => (CommandHandler.split_first_space s).1 +:+ " " +:+ b
         | None => (CommandHandler.split_first_space s).1
         end.
Proof.
  induction s as [|c r [IH1 IH2]]; [done|].
  cbn [CommandHandler.split_first_space]. case_bool_decide as Hc.
  - subst c. done.
  - destruct (CommandHandler.split_first_space r) as [a b]. cbn [fst snd] in *.
    split.
    + cbn [Py.contains String.prefix]. destruct (Ascii.ascii_dec " " c) as [<-|_]; [done|].
      exact IH1.
    + destruct b as [b|]; by rewrite IH2 at 1.
Qed.

Lemma split_max_nonempty k s : split_max k s <> [].
Proof.
  destruct k; [done|]. simpl.
  by destruct (CommandHandler.split_first_space s) as [a [b|]].
Qed.

(** [" ".join(s.split(" ", k)) == s]. *)
Lemma join_split_max k : forall s, Py.join " " (split_max k s) = s.
Proof.
  unfold Py.join. induction k as [|k IH]; intros s; [done|].
  cbn [split_max]. destruct (split_first_space_spec s) as [_ Hs].
  destruct (CommandHandler.split_first_space s) as [a [b|]]; cbn [fst snd] in Hs.
  - rewrite WrapFacts.concat_cons by apply split_max_nonempty. by rewrite IH.
  - done.
Qed.

Lemma length_split_max k : forall s, (1 <= length (split_max k s) <= S k)%nat.
Proof.
  induction k as [|k IH]; intros s; [simpl; lia|].
  cbn [split_max]. destruct (CommandHandler.split_first_space s) as [a [b|]].
  - specialize (IH b). simpl. lia.
  - simpl. lia.
Qed.

Lemma split_max_words k : forall s i p,
  split_max k s !! i = Some p -> (S i < length (split_max k s))%nat ->
  Py.contains p " " = false.
Proof.
  induction k as [|k IH]; intros s i p Hp Hi.
  - simpl in Hi. lia.
  - cbn [split_max] in *. destruct (split_first_space_spec s) as [Ha _].
    destruct (CommandHandler.split_first_space s) as [a [b|]]; cbn [fst] in Ha.
    + destruct i as [|i].
      * injection Hp as <-. exact Ha.
      * simpl in Hp, Hi. apply (IH b i p Hp). lia.
    + simpl in Hi. lia.
Qed.

(** X15. When [_ensure_args] returns a list, the parts joined by single
    spaces are the argument string without its surrounding blanks; when
    at least one part is expected there are exactly as many parts as
    expected, and every part but the last is free of spaces: the last
    part takes the rest of the line. *)
Theorem ensure_args_parts client args_str usage_message num_expected_parts parts :
  _ensure_args client args_str usage_message num_expected_parts = ARGS parts ->
  Py.join " " parts = Py.strip args_str
  /\ (1 <= num_expected_parts -> Z.of_nat (length parts) = num_expected_parts)
  /\ (0 <= num_expected_parts ->
      forall i p, parts !! i = Some p -> (S i < length parts)%nat ->
                  Py.contains p " " = false).
Proof.
  unfold _ensure_args. intros H.
  destruct (num_expected_parts =? 0) eqn:E0.
  { apply Z.eqb_eq in E0. subst num_expected_parts. injection H as <-.
    destruct (nonempty (Py.strip args_str)) eqn:En; cbn [negb].
    - split; [done|]. split; [lia|]. intros _ i p _ Hi. simpl in Hi. lia.
    - apply WrapFacts.nonempty_false in En. rewrite En.
      split; [done|]. split; [lia|]. intros _ i p Hp. done. }
  destruct (nonempty (Py.strip args_str)) eqn:En; cbn [negb] in H;
    [|by destruct (NumericHandlers.ui_colors client "error")].
  destruct (num_expected_parts =? 1) eqn:E1.
  { apply Z.eqb_eq in E1. subst num_expected_parts. injection H as <-.
    split; [done|]. split; [done|]. intros _ i p _ Hi. simpl in Hi. lia. }
  destruct (Z.of_nat (length (split_space_max (Py.strip args_str) (num_expected_parts - 1)))
            <? num_expected_parts) eqn:El;
    [by destruct (NumericHandlers.ui_colors client "error")|].
  injection H as <-. apply Z.ltb_ge in El. apply Z.eqb_neq in E0, E1.
  unfold split_space_max in *.
  destruct (num_expected_parts - 1 <? 0) eqn:Eneg.
  - apply Z.ltb_lt in Eneg. split; [apply WrapFacts.join_split_space|]. split; lia.
  - apply Z.ltb_ge in Eneg. split; [apply join_split_max|]. split.
    + intros _. pose proof (length_split_max (Z.to_nat (num_expected_parts - 1))
                              (Py.strip args_str)). lia.
    + intros _ i p. apply split_max_words.
Qed.

(** X15, witness: the arguments of [/msg], two parts expected; the second
    part keeps the blank that follows the first. *)
Lemma ensure_args_parts_witness :
  _ensure_args NumericHandlers.joined_foo "  alice  hello there " "Usage: /msg <nick> <text>" 2
  = ARGS ["alice"; " hello there"]
  /\ Py.join " " ["alice"; " hello there"] = Py.strip "  alice  hello there "
  /\ Z.of_nat (length ["alice"; " hello there"]) = 2.
Proof.
  assert (H : _ensure_args NumericHandlers.joined_foo "  alice  hello there "
                "Usage: /msg <nick> <text>" 2 = ARGS ["alice"; " hello there"])
    by (vm_compute; reflexivity).
  split; [exact H|].
  destruct (ensure_args_parts _ _ _ _ _ H) as (H1 & H2 & _).
  split; [exact H1|]. apply H2. lia.
Defined.

(** X16. An exception below [Exception] raised by a command handler or a
    script command handler does not leave [process_user_command]: a line
    that starts with [/], handed over with the counter at 0, ends with
    the return value [True], or with an exception that is not below
    [Exception] (a [SystemExit], a [KeyboardInterrupt]). *)
Theorem command_errors_are_contained fuel cmds st line :
  Py.startswith line "/" = true ->
  CommandHandler._processing_depth st = 0 ->
  exists out st',
    CommandHandler.process_user_command (S (S fuel)) cmds st line = Some (out, st')
    /\ (out = CommandHandler.RETURNED true \/ out = CommandHandler.BASE_EXCEPTION).
Proof.
  intros Hslash Hd. rewrite DepthFacts.process_user_command_step, Hd.
  change (1 <? 0 + 1) with false. cbv iota.
  set (st1 := CommandHandler.with_depth (0 + 1) st).
  assert (Hd1 : 1 <= CommandHandler._processing_depth st1) by (simpl; lia).
  unfold CommandHandler.dispatch_line. rewrite Hslash. cbn [negb].
  destruct (CommandHandler.split_first_space (Py.tail line)) as [c a].
  destruct (CommandHandler.command_map cmds !! Py.lower c) as [handler_func|].
  - destruct (DepthFacts.run_steps_at_depth fuel cmds (handler_func (default EmptyString a))
                (CommandHandler.log
                   (CommandHandler.DISPATCH_COMMAND (Py.lower c) (default EmptyString a)) st1))
      as (out & st' & -> & _); [done|].
    destruct out; cbn [CommandHandler.guarded]; eexists _, _; split; eauto.
  - destruct (CommandHandler.script_commands cmds !! Py.lower c) as [script_handler|].
    + destruct (DepthFacts.run_steps_at_depth fuel cmds
                  (script_handler (default EmptyString a))
                  (CommandHandler.log
                     (CommandHandler.DISPATCH_SCRIPT_COMMAND (Py.lower c)
                        (default EmptyString a)) st1))
        as (out & st' & -> & _); [done|].
      destruct out; cbn [CommandHandler.guarded]; eexists _, _; split; eauto.
    + eexists _, _. split; eauto.
Qed.

(** X16, witness: the command [/boom], whose handler raises. *)
Lemma command_errors_are_contained_witness :
  exists out st',
    CommandHandler.process_user_command 2 raising_text_commands CommandHandler.idle "/boom"
    = Some (out, st')
    /\ (out = CommandHandler.RETURNED true \/ out = CommandHandler.BASE_EXCEPTION).
Proof.
  apply (command_errors_are_contained 0 raising_text_commands CommandHandler.idle "/boom");
    reflexivity.
Defined.

(** The text path has no such guard: an exception raised while text is
    sent leaves [process_user_command]. *)
Example text_input_errors_escape :
  CommandHandler.process_user_command 2 raising_text_commands CommandHandler.idle "hello"
  = Some (CommandHandler.EXCEPTION "OSError",
          CommandHandler.mkState 0 (Some "Status") [CommandHandler.TEXT_INPUT "hello"]).
Proof. vm_compute. reflexivity. Qed.

(** X17. The commands offered for completion: every core command and
    every script command or alias, each once, with a leading [/], in
    ascending order. *)
Theorem tab_completion_is_sorted_and_unique cmds script_cmds_data :
  Sorted (fun a b => String.leb a b = true)
    (get_available_commands_for_tab_complete cmds script_cmds_data)
  /\ NoDup (get_available_commands_for_tab_complete cmds script_cmds_data)
  /\ forall x,
       x ∈ get_available_commands_for_tab_complete cmds script_cmds_data
       <-> (exists cmd, x = "/" +:+ cmd
                        /\ is_Some (CommandHandler.command_map cmds !! cmd))
           \/ (exists cmd_name aliases,
                 script_cmds_data !! cmd_name = Some aliases
                 /\ (x = "/" +:+ cmd_name
                     \/ exists alias, alias ∈ aliases /\ x = "/" +:+ alias)).
Proof.
  unfold get_available_commands_for_tab_complete, Py.sort_strings.
  split; [|split].
  - apply (SwitchFacts.sort_sorted String.leb). intros a b. apply String.leb_total.
  - rewrite (SwitchFacts.sort_perm String.leb). apply NoDup_elements.
  - intros x. rewrite (SwitchFacts.sort_perm String.leb).
    rewrite elem_of_elements, elem_of_list_to_set, elem_of_app.
    assert (Hcore :
      x ∈ (fun cmd => "/" +:+ cmd) <$> (map_to_list (CommandHandler.command_map cmds)).*1
      <-> exists cmd, x = "/" +:+ cmd /\ is_Some (CommandHandler.command_map cmds !! cmd)).
    { rewrite list_elem_of_fmap. split.
      - intros (cmd & -> & Hin). exists cmd. split; [done|].
        apply list_elem_of_fmap in Hin as ([k v] & -> & Hkv).
        apply elem_of_map_to_list in Hkv. by eexists.
      - intros (cmd & -> & [v Hv]). exists cmd. split; [done|].
        apply list_elem_of_fmap. exists (cmd, v). split; [done|].
        by apply elem_of_map_to_list. }
    assert (Hscript :
      x ∈ flat_map (fun kv : string * list string =>
                      ("/" +:+ kv.1) :: ((fun alias => "/" +:+ alias) <$> kv.2))
            (map_to_list script_cmds_data)
      <-> exists cmd_name aliases,
            script_cmds_data !! cmd_name = Some aliases
            /\ (x = "/" +:+ cmd_name
                \/ exists alias, alias ∈ aliases /\ x = "/" +:+ alias)).
    { rewrite list_elem_of_In, in_flat_map. split.
      - intros ([k v] & Hkv & Hx). apply list_elem_of_In, elem_of_map_to_list in Hkv.
        exists k, v. split; [done|]. cbn [fst snd] in Hx.
        apply list_elem_of_In, elem_of_cons in Hx as [->|Hx]; [by left|].
        right. apply list_elem_of_fmap in Hx as (a & -> & Ha). eauto.
      - intros (k & v & Hkv & Hx). exists (k, v). split.
        { by apply list_elem_of_In, elem_of_map_to_list. }
        cbn [fst snd]. apply list_elem_of_In, elem_of_cons.
        destruct Hx as [->|(a & Ha & ->)]; [by left|].
        right. apply list_elem_of_fmap. eauto. }
    by rewrite Hcore, Hscript.
Qed.

End CommandFacts.

(** ** The DCC manager: repeated cleanup, the port search, passive offers *)

Module TransferFacts.
Import DCC TransferReports.

Lemma cleanup_config m now :
  dcc_config (_cleanup_finished_transfers m now) = dcc_config m.
Proof.
  unfold _cleanup_finished_transfers.
  destruct (negb (cleanup_enabled (dcc_config m))); [done|].
  destruct (remove_marked _ _) as [tr n]. by destruct (0 <? n)%Z.
Qed.

Lemma with_transfers_same m : with_transfers (transfers m) m = m.
Proof. by destruct m. Qed.

(** A pass over a table in which nothing is marked changes nothing and
    reports nothing. *)
Lemma cleanup_nothing_marked m now :
  (forall k t, transfers m !! k = Some t ->
     marked_for_cleanup now (transfer_max_age_seconds (dcc_config m)) t = false) ->
  _cleanup_finished_transfers m now = m.
Proof.
  intros Hnone. unfold _cleanup_finished_transfers.
  destruct (negb (cleanup_enabled (dcc_config m))); [done|].
  assert (Hfilter : filter (fun kv : string * DCCTransfer =>
                              marked_for_cleanup now (transfer_max_age_seconds (dcc_config m))
                                kv.2 = true)
                      (map_to_list (transfers m)) = []).
  { apply ResumeFacts.filter_nil_iff. intros [k t] Hin Hm.
    apply elem_of_map_to_list in Hin. cbn [snd] in Hm. rewrite (Hnone k t Hin) in Hm.
    discriminate. }
  rewrite Hfilter. cbn. apply with_transfers_same.
Qed.

(** X18. The cleanup pass is idempotent: a second pass at the same clock
    reading finds nothing to remove, leaves the manager as the first pass
    left it, and reports nothing to the user. *)
Theorem cleanup_twice_is_cleanup_once m now :
  _cleanup_finished_transfers (_cleanup_finished_transfers m now) now
  = _cleanup_finished_transfers m now.
Proof.
  destruct (cleanup_enabled (dcc_config m)) eqn:Hen.
  - apply cleanup_nothing_marked. intros k t Hk.
    rewrite cleanup_config. rewrite (CleanupFacts.cleanup_lookup m now k Hen) in Hk.
    destruct (transfers m !! k) as [t0|]; [|done].
    destruct (marked_for_cleanup now (transfer_max_age_seconds (dcc_config m)) t0) eqn:Em;
      [done|].
    by injection Hk as <-.
  - by rewrite !(CleanupFacts.cleanup_disabled_is_skipped m now Hen).
Qed.

(** X19. With a configured range whose start does not exceed its end,
    the search for a listening socket returns the lowest port of the
    range that binds, and leaves the manager as it was; it gives up, with
    one error line in the DCC window, only if no port of the range binds;
    and the only exception that can leave it comes from a port of the
    range whose [socket()] call itself failed. *)
Theorem listening_socket_is_lowest_free_port m bind :
  (port_range_start (dcc_config m) <= port_range_end (dcc_config m))%Z ->
  match (_get_listening_socket m bind).2 with
  | LISTENING p =>
      (port_range_start (dcc_config m) <= p <= port_range_end (dcc_config m))%Z
      /\ bind p = BOUND
      /\ (forall q, (port_range_start (dcc_config m) <= q < p)%Z -> bind q <> BOUND)
      /\ (_get_listening_socket m bind).1 = m
  | NO_PORT =>
      (forall q, (port_range_start (dcc_config m) <= q <= port_range_end (dcc_config m))%Z ->
         bind q <> BOUND)
      /\ (_get_listening_socket m bind).1
         = emit (ADD_MESSAGE ("Error: No available DCC ports in range "
                                +:+ Py.str_of_Z (port_range_start (dcc_config m)) +:+ "-"
                                +:+ Py.str_of_Z (port_range_end (dcc_config m)) +:+ ".")
                   "error" "DCC") m
  | UNBOUND_LOCAL_ERROR =>
      (_get_listening_socket m bind).1 = m
      /\ exists p, (port_range_start (dcc_config m) <= p <= port_range_end (dcc_config m))%Z
           /\ ((exists e, bind p = SOCKET_ERROR false e) \/ bind p = OTHER_EXCEPTION false)
  end.
Proof.
  intros Hrange.
  set (a := port_range_start (dcc_config m)) in *.
  set (b := port_range_end (dcc_config m)) in *.
  pose proof (PortFacts.try_ports_seqZ bind (Z.to_nat (b + 1 - a)) a false) as Hs.
  rewrite Z2Nat.id in Hs by lia.
  unfold _get_listening_socket, effective_port_range. fold a b.
  replace (b <? a)%Z with false by (symmetry; apply Z.ltb_ge; lia).
  cbv beta iota zeta. unfold ports_to_try.
  destruct (try_ports bind false (seqZ a (b + 1 - a))) as [p| |]; cbn [fst snd].
  - destruct Hs as (Hr & Hb & Hfirst). split; [lia|]. done.
  - split; [|done]. intros q Hq. apply Hs. lia.
  - destruct Hs as (_ & p & Hp & Hb). split; [done|]. exists p. split; [lia|done].
Qed.

(** X19, witness: the range is 51000-51010 and the ports below 51003 are
    in use. *)
Lemma listening_socket_is_lowest_free_port_witness :
  (_get_listening_socket manager_with_gift
     (fun p => if (p <? 51003)%Z then SOCKET_ERROR true 98 else BOUND)).2
  = LISTENING 51003
  /\ (51000 <= 51003 <= 51010)%Z.
Proof.
  pose proof (listening_socket_is_lowest_free_port manager_with_gift
                (fun p => if (p <? 51003)%Z then SOCKET_ERROR true 98 else BOUND)) as H.
  assert (Hr : (_get_listening_socket manager_with_gift
                  (fun p => if (p <? 51003)%Z then SOCKET_ERROR true 98 else BOUND)).2
               = LISTENING 51003) by (vm_compute; reflexivity).
  rewrite Hr in H. split; [exact Hr|]. apply H. vm_compute. discriminate.
Defined.



(** The receive of [gift.bin]: the ACCEPT goes out, the status report
    puts its line into the DCC window, the thread is started. *)
Example passive_receive_of_gift :
  effects (initiate_passive_receive example_env manager_with_gift "alice" "gift.bin" 2048
             "tok42" None).1
  = [SEND_CTCP_PRIVMSG "alice" "DCC ACCEPT gift.bin 192.168.1.1 51000 0 tok42";
     ADD_MESSAGE
       "DCC RECEIVE 'gift.bin' with alice: NEGOTIATING (Sent passive ACCEPT. Waiting for alice to connect to 192.168.1.1:51000.)"
       "system" "DCC";
     START_TRANSFER_THREAD "3f2c";
     DISPATCH_EVENT "DCC_TRANSFER_QUEUED" "3f2c";
     ADD_MESSAGE
       "Passive DCC RECV for 'gift.bin' from alice initiated. Listening on 192.168.1.1:51000. Waiting for peer connection."
       "system" "DCC"].
Proof. vm_compute. reflexivity. Qed.

(** X21. An offer is accepted at most once: once a stored, unexpired
    offer has been accepted by its token, whether or not the receive
    could be started, accepting the same token again is refused as not
    found or expired and changes nothing. *)
Theorem passive_offer_is_accepted_once env env' m caller offered_filename_by_user
    caller' offered_filename_by_user' offer_token offer :
  stored_unexpired m (now env) offer_token offer ->
  accept_passive_offer_by_token env'
    (accept_passive_offer_by_token env m caller offered_filename_by_user offer_token).1
    caller' offered_filename_by_user' offer_token
  = ((accept_passive_offer_by_token env m caller offered_filename_by_user offer_token).1,
     OP_ERROR ("Passive offer with token '" +:+ offer_token +:+ "' not found or expired.")
       None).
Proof.
  intros [Hst Hun].
  assert (Hgone : pending_passive_offers
                    (accept_passive_offer_by_token env m caller offered_filename_by_user
                       offer_token).1 !! offer_token = None).
  { unfold accept_passive_offer_by_token, get_offer. rewrite Hst.
    destruct (Qgtb _ _) eqn:E.
    { apply CleanupFacts.Qgtb_lt in E. exfalso. by apply (Qlt_not_le _ _ E). }
    rewrite (proj1 (PassiveOfferFacts.initiate_passive_receive_result env _ _ _ _ _ _)).
    cbn. apply lookup_delete_eq. }
  unfold accept_passive_offer_by_token at 1. unfold get_offer. by rewrite Hgone.
Qed.

(** X21, witness: the offer [tok42] is accepted, and accepted again. *)
Lemma passive_offer_is_accepted_once_witness :
  (accept_passive_offer_by_token example_env manager_with_gift "me" "gift.bin" "tok42").2
  = OP_SUCCESS "3f2c"
  /\ (accept_passive_offer_by_token example_env
        (accept_passive_offer_by_token example_env manager_with_gift "me" "gift.bin" "tok42").1
        "me" "gift.bin" "tok42").2
     = OP_ERROR "Passive offer with token 'tok42' not found or expired." None.
Proof.
  split; [vm_compute; reflexivity|].
  rewrite (passive_offer_is_accepted_once example_env example_env manager_with_gift
             "me" "gift.bin" "me" "gift.bin" "tok42" gift_offer); [reflexivity|].
  split; [reflexivity|]. vm_compute. discriminate.
Defined.

End TransferFacts.

(** ** Cycling through the channels *)

Module ChannelCycleFacts.
Import ClientLogic ChannelCycle.

(** The contexts of the channel cycle are contexts of the table: channel
    contexts, and Status. *)
Lemma elem_of_cyclable_contexts cm n :
  n ∈ cyclable_contexts cm ->
  n ∈ get_all_context_names cm /\ (n = "Status" \/ is_channel_context cm n = true).
Proof.
  unfold cyclable_contexts.
  assert (Hch : n ∈ Py.sort_by_lower
                      (filter (fun n => is_channel_context cm n = true)
                         (get_all_context_names cm)) ->
                n ∈ get_all_context_names cm /\ is_channel_context cm n = true).
  { unfold Py.sort_by_lower. rewrite SwitchFacts.sort_perm.
    intros [H1 H2]%list_elem_of_filter. done. }
  destruct (bool_decide ("Status" ∈ get_all_context_names cm)) eqn:Hs; cbn [andb].
  - destruct (negb _).
    + intros [H|H]%elem_of_app.
      * destruct (Hch H). auto.
      * apply list_elem_of_singleton in H. subst n.
        apply bool_decide_eq_true in Hs. auto.
    + intros H. destruct (Hch H). auto.
  - intros H. destruct (Hch H). auto.
Qed.

Lemma set_active_context_result cm n :
  (set_active_context cm n).2 = true ->
  active_context_name (set_active_context cm n).1 = Some (_normalize_context_name n).
Proof.
  unfold set_active_context. by destruct (contexts cm !! _normalize_context_name n).
Qed.

(** X22. The channel cycle never lands on a query, the DCC window or a
    list window: after [switch_active_channel], whatever the direction,
    the active context is the one that was active before, or Status, or
    a channel context of the table. *)
Theorem channel_cycle_lands_on_channel_or_status client direction :
  active_context_name (context_manager (switch_active_channel client direction))
  = active_context_name (context_manager client)
  \/ exists n,
       n ∈ get_all_context_names (context_manager client)
       /\ active_context_name (context_manager (switch_active_channel client direction))
          = Some (_normalize_context_name n)
       /\ (n = "Status" \/ is_channel_context (context_manager client) n = true).
Proof.
  unfold switch_active_channel.
  pose proof (elem_of_cyclable_contexts (context_manager client)) as Hel.
  destruct (cyclable_contexts (context_manager client)) as [|c0 cs] eqn:Ec.
  { left. apply MessageTargetFacts.add_message_active. }
  rewrite <- Ec in *. set (cyc := cyclable_contexts (context_manager client)) in *.
  assert (Hlen : 0 < Z.of_nat (length cyc)) by (rewrite Ec; simpl; lia).
  assert (Hset : forall n, n ∈ cyc ->
    active_context_name
      (context_manager
         (if (set_active_context (context_manager client) n).2
          then set_ui_needs_update
                 (with_context_manager (set_active_context (context_manager client) n).1 client)
          else add_message client ("Error switching to '" +:+ n +:+ "'.") (ColorKey "error")
                 true (Some (or_else (active_context_name (context_manager client)) "Status"))
                 None false))
    = active_context_name (context_manager client)
    \/ exists n',
         n' ∈ get_all_context_names (context_manager client)
         /\ active_context_name
              (context_manager
                 (if (set_active_context (context_manager client) n).2
                  then set_ui_needs_update
                         (with_context_manager
                            (set_active_context (context_manager client) n).1 client)
                  else add_message client ("Error switching to '" +:+ n +:+ "'.")
                         (ColorKey "error") true
                         (Some (or_else (active_context_name (context_manager client)) "Status"))
                         None false))
            = Some (_normalize_context_name n')
         /\ (n' = "Status" \/ is_channel_context (context_manager client) n' = true)).
  { intros n Hn. destruct (Hel n Hn) as [Hall Hkind].
    destruct (set_active_context (context_manager client) n).2 eqn:Hok.
    - right. exists n. split; [done|]. split; [|done].
      cbn [context_manager set_ui_needs_update with_context_manager].
      by apply set_active_context_result.
    - left. apply MessageTargetFacts.add_message_active. }
  assert (Hpick : forall new : option string,
    (forall n, new = Some n -> n ∈ cyc) ->
    active_context_name
      (context_manager
         (if truthy new
          then if (set_active_context (context_manager client) (default EmptyString new)).2
               then set_ui_needs_update
                      (with_context_manager
                         (set_active_context (context_manager client)
                            (default EmptyString new)).1 client)
               else add_message client
                      ("Error switching to '" +:+ default EmptyString new +:+ "'.")
                      (ColorKey "error") true
                      (Some (or_else (active_context_name (context_manager client)) "Status"))
                      None false
          else client))
    = active_context_name (context_manager client)
    \/ exists n',
         n' ∈ get_all_context_names (context_manager client)
         /\ active_context_name
              (context_manager
                 (if truthy new
                  then if (set_active_context (context_manager client)
                             (default EmptyString new)).2
                       then set_ui_needs_update
                              (with_context_manager
                                 (set_active_context (context_manager client)
                                    (default EmptyString new)).1 client)
                       else add_message client
                              ("Error switching to '" +:+ default EmptyString new +:+ "'.")
                              (ColorKey "error") true
                              (Some (or_else (active_context_name (context_manager client))
                                       "Status"))
                              None false
                  else client))
            = Some (_normalize_context_name n')
         /\ (n' = "Status" \/ is_channel_context (context_manager client) n' = true)).
  { intros [n|] Hnew; [|by left].
    destruct (truthy (Some n)); [|by left].
    apply Hset. by apply Hnew. }
  rewrite Ec. rewrite <- Ec. apply Hpick.
  intros n.
  destruct (truthy (active_context_name (context_manager client))
            && bool_decide (default EmptyString (active_context_name (context_manager client))
                            ∈ cyc)).
  - destruct (index_of _ cyc) as [i|].
    + case_bool_decide.
      * intros [= <-]. apply CycleFacts.item_elem_of. apply Z.mod_pos_bound. lia.
      * case_bool_decide; [|done].
        intros [= <-]. apply CycleFacts.item_elem_of. apply Z.mod_pos_bound. lia.
    + rewrite Ec. intros [= <-]. by left.
  - rewrite Ec. intros [= <-]. by left.
Qed.

End ChannelCycleFacts.

(** ** The window that gets the focus when a channel is joined *)

Module FocusFacts.
Import ClientLogic NumericReplies.

Lemma rfc1459_lower_idempotent c : rfc1459_lower (rfc1459_lower c) = rfc1459_lower c.
Proof. destruct c as [[] [] [] [] [] [] [] []]; reflexivity. Qed.

Lemma map_rfc1459_lower_idempotent s :
  Py.map_string rfc1459_lower (Py.map_string rfc1459_lower s)
  = Py.map_string rfc1459_lower s.
Proof.
  induction s as [|c r IH]; [done|]. simpl. by rewrite IH, rfc1459_lower_idempotent.
Qed.

(** Whether a name has a channel prefix is decided by its first
    character, which the case folding leaves alone. *)
Lemma startswith_any_folded s :
  Py.startswith_any s channel_prefixes = true ->
  Py.startswith_any (Py.map_string rfc1459_lower s) channel_prefixes = true.
Proof.
  destruct s as [|c r]; [done|].
  unfold Py.startswith_any, channel_prefixes, Py.startswith.
  cbn [existsb String.prefix Py.map_string].
  destruct (Ascii.ascii_dec "#" c) as [<-|_]; [intros _; by destruct r|].
  destruct (Ascii.ascii_dec "&" c) as [<-|_]; [intros _; by destruct r|].
  destruct (Ascii.ascii_dec "+" c) as [<-|_]; [intros _; by destruct r|].
  destruct (Ascii.ascii_dec "!" c) as [<-|_]; [intros _; by destruct r|].
  done.
Qed.

(** Folding a folded name changes nothing. *)
Lemma normalize_idempotent n :
  _normalize_context_name (_normalize_context_name n) = _normalize_context_name n.
Proof.
  unfold _normalize_context_name.
  destruct (Py.startswith_any n channel_prefixes) eqn:E.
  - rewrite (startswith_any_folded n E). apply map_rfc1459_lower_idempotent.
  - by rewrite E.
Qed.

Lemma set_active_context_contexts cm n :
  contexts (set_active_context cm n).1 = contexts cm.
Proof. unfold set_active_context. by destruct (contexts cm !! _normalize_context_name n). Qed.

Lemma set_active_context_active cm n :
  active_context_name (set_active_context cm n).1
  = if bool_decide (is_Some (contexts cm !! _normalize_context_name n))
    then Some (_normalize_context_name n) else active_context_name cm.
Proof.
  unfold set_active_context.
  destruct (contexts cm !! _normalize_context_name n) eqn:E.
  - by rewrite bool_decide_eq_true_2.
  - rewrite bool_decide_eq_false_2; [done|]. by intros [? ?].
Qed.

(** X23. When a channel is fully joined, no context is changed and the
    focus moves to that channel or stays where it is. The channel of the
    last [/join] gets the focus from any window, and the pending target
    is then forgotten; a channel joined otherwise takes the focus only
    when it is one of the initial channels and the user is on Status or
    on no window. *)
Theorem fully_joined_focus client channel_name :
  contexts (context_manager (handle_channel_fully_joined client channel_name))
  = contexts (context_manager client)
  /\ events (handle_channel_fully_joined client channel_name)
     = (events client
        ++ [CHANNEL_FULLY_JOINED_EVENT (_normalize_context_name channel_name)])%list
  /\ (active_context_name (context_manager (handle_channel_fully_joined client channel_name))
      = active_context_name (context_manager client)
      \/ active_context_name (context_manager (handle_channel_fully_joined client channel_name))
         = Some (_normalize_context_name channel_name))
  /\ (forall target,
        last_join_command_target client = Some target -> target <> EmptyString ->
        _normalize_context_name target = _normalize_context_name channel_name ->
        is_Some (get_context (context_manager client) channel_name) ->
        active_context_name (context_manager (handle_channel_fully_joined client channel_name))
        = Some (_normalize_context_name channel_name)
        /\ last_join_command_target (handle_channel_fully_joined client channel_name) = None)
  /\ (active_context_name (context_manager (handle_channel_fully_joined client channel_name))
      <> active_context_name (context_manager client) ->
      (exists target,
         last_join_command_target client = Some target /\ target <> EmptyString
         /\ _normalize_context_name target = _normalize_context_name channel_name)
      \/ ((get_active_context (context_manager client) = None
           \/ exists active_ctx,
                get_active_context (context_manager client) = Some active_ctx
                /\ name active_ctx = "Status")
          /\ exists ci,
               conn_info client = Some ci
               /\ _normalize_context_name channel_name
                  ∈ (_normalize_context_name <$> initial_channels ci))).
Proof.
  unfold handle_channel_fully_joined.
  set (normalized := _normalize_context_name channel_name).
  cbn [last_join_command_target dispatch context_manager conn_info].
  assert (Hact :
    active_context_name (set_active_context (context_manager client) normalized).1
    = active_context_name (context_manager client)
    \/ active_context_name (set_active_context (context_manager client) normalized).1
       = Some normalized).
  { rewrite set_active_context_active. unfold normalized. rewrite normalize_idempotent.
    case_bool_decide; auto. }
  split; [|split; [|split; [|split]]].
  - destruct (_ && _).
    + cbn. apply set_active_context_contexts.
    + destruct (match get_active_context _ with Some c => _ | None => true end); [|done].
      destruct (conn_info client); [|done].
      destruct (_ && _); [|done]. cbn. apply set_active_context_contexts.
  - destruct (_ && _); [done|].
    destruct (match get_active_context _ with Some c => _ | None => true end); [|done].
    destruct (conn_info client); [|done]. by destruct (_ && _).
  - destruct (_ && _); [exact Hact|].
    destruct (match get_active_context _ with Some c => _ | None => true end); [|by left].
    destruct (conn_info client); [|by left].
    destruct (_ && _); [exact Hact|by left].
  - intros target Ht Hne Hsame Hex. rewrite Ht. cbn [truthy default].
    apply WrapFacts.nonempty_true in Hne. rewrite Hne.
    rewrite bool_decide_eq_true_2 by done. cbn [andb].
    cbn [context_manager set_ui_needs_update with_last_join_command_target
           with_context_manager last_join_command_target].
    split; [|done]. rewrite set_active_context_active.
    unfold normalized. rewrite normalize_idempotent.
    by rewrite bool_decide_eq_true_2.
  - change (get_active_context
              (context_manager
                 (dispatch (CHANNEL_FULLY_JOINED_EVENT normalized) client)))
      with (get_active_context (context_manager client)).
    destruct (truthy (last_join_command_target client) && _) eqn:Etarget.
    + intros _. left. apply andb_prop in Etarget as [Ht Hsame].
      destruct (last_join_command_target client) as [target|]; [|discriminate].
      exists target. split; [done|]. split.
      * intros ->. discriminate.
      * by apply bool_decide_eq_true in Hsame.
    + destruct (get_active_context (context_manager client)) as [active_ctx|] eqn:Eactive.
      * destruct (bool_decide (name active_ctx = "Status")) eqn:Hname;
          [|intros Hc; by destruct Hc].
        apply bool_decide_eq_true in Hname.
        destruct (conn_info client) as [ci|]; [|intros Hc; by destruct Hc].
        destruct (bool_decide (initial_channels ci <> [])
                  && bool_decide (normalized ∈ _)) eqn:Einit; [|intros Hc; by destruct Hc].
        intros _. right. split; [right; by exists active_ctx|].
        exists ci. split; [done|].
        apply andb_prop in Einit as [_ Hin]. by apply bool_decide_eq_true in Hin.
      * destruct (conn_info client) as [ci|]; [|intros Hc; by destruct Hc].
        destruct (bool_decide (initial_channels ci <> [])
                  && bool_decide (normalized ∈ _)) eqn:Einit; [|intros Hc; by destruct Hc].
        intros _. right. split; [by left|].
        exists ci. split; [done|].
        apply andb_prop in Einit as [_ Hin]. by apply bool_decide_eq_true in Hin.
Qed.

(** The channel of the last [/join] takes the focus from [#foo], and the
    pending target is cleared. *)
Example focus_follows_join_command :
  active_context_name (context_manager joining_bar) = Some "#foo"
  /\ active_context_name (context_manager (handle_channel_fully_joined joining_bar "#bar"))
     = Some "#bar"
  /\ last_join_command_target (handle_channel_fully_joined joining_bar "#bar") = None.
Proof. vm_compute. auto. Qed.

End FocusFacts.
